(** * CSE3000: score aggregation, comparison and batch scoring scripts

    A shallow embedding of the Python scripts [cal_kendall.py],
    [variance_test.py], [get_estoi.py] and [get_siib.py], and of the data
    that [std_deviation_plot.py] and [scatter_plot.py] prepare for their
    figures (the drawing itself is left to matplotlib).

    Modelling conventions.
    - A finite Python [float] is a canonical rational [Qc]; arithmetic is
      exact, so rounding is outside the model, and so are the non-finite
      values a file name or a cell could spell ([nan], [inf]).  Results
      that need a square root live in [R]; a [nan] result is the
      constructor [NaN].  The statistics of [cal_kendall] are therefore
      the exact values of their formulas, which the code approximates on
      doubles; the module [binary64] evaluates the RMSE line of the
      script on IEEE 754 doubles, to show where rounding decides.
    - The identifiers of [cal_kendall] are compared as text.  That is the
      join pandas performs when [pd.read_csv] keeps the identifier column
      of every score file as strings; the statements about a join that
      is returned assume it ([text_identifiers]).
    - The file system is an input: a folder is the list that [os.listdir]
      returns, each name with the outcome of reading it.
    - Library capabilities whose internals are not part of the repository
      (parsing a float, Levene's test, the intelligibility scorers, the
      Kendall p-value) are Section variables; [pd.merge], [pearsonr] and
      the tau-c coefficient are written out from their documented
      behaviour.
    - Exceptions are values of [exn]; a computation that may raise returns
      a [result]. *)

From Stdlib Require Import PrimFloat.
From Stdlib Require Import QArith Qcanon Qround Reals Qreals Lra Lia DecimalString Ascii.
From stdpp Require Import base gmap sets list strings sorting.

(** ** Python runtime shared by the scripts *)
Module Py.

Inductive exn : Type :=
| ValueError (msg : string)
| KeyError (key : string)
| ZeroDivisionError (msg : string)
| OtherError (kind msg : string).

(** [str(e)] *)
Definition str_exn (e : exn) : string :=
  match e with
  | ValueError msg => msg
  | KeyError key => "'" +:+ key +:+ "'"
  | ZeroDivisionError msg => msg
  | OtherError _ msg => msg
  end.

Inductive result (A : Type) : Type :=
| Return (a : A)
| Raise (e : exn).
Arguments Return {A} a.
Arguments Raise {A} e.

#[global] Instance result_ret : MRet result := fun A a => Return a.
#[global] Instance result_bind : MBind result := fun A B k m =>
  match m with
  | Return a => k a
  | Raise e => Raise e
  end.

Definition raises {A} (m : result A) : Prop := exists e, m = Raise e.

(** Code with side effects on a state [S]: the state survives an
    exception, as a file written before the exception stays written. *)
Definition prog (S A : Type) : Type := S -> result A * S.

#[global] Instance prog_ret {S} : MRet (prog S) := fun A a s => (Return a, s).
#[global] Instance prog_bind {S} : MBind (prog S) := fun A B k m s =>
  match m s with
  | (Return a, s') => k a s'
  | (Raise e, s') => (Raise e, s')
  end.

Definition raise {S A} (e : exn) : prog S A := fun s => (Raise e, s).
Definition lift {S A} (r : result A) : prog S A := fun s => (r, s).
Definition modify {S} (f : S -> S) : prog S unit := fun s => (Return tt, f s).

(** [try: body except Exception as e: handler(e)] *)
Definition try_except {S A} (body : prog S A) (handler : exn -> prog S A) : prog S A :=
  fun s =>
    match body s with
    | (Return a, s') => (Return a, s')
    | (Raise e, s') => handler e s'
    end.

(** [for a in l: body(a)] *)
Fixpoint for_each {S A} (l : list A) (body : A -> prog S unit) : prog S unit :=
  match l with
  | [] => mret tt
  | a :: rest => body a ;; for_each rest body
  end.

(** [d[k]] on a dict *)
Definition getitem `{Countable K} {V} (name : string) (d : gmap K V) (k : K) : result V :=
  match d !! k with
  | Some v => Return v
  | None => Raise (KeyError name)
  end.

(** An [int] used where a [float] is expected is [Qc_of_Z]; [len(x)]
    as a float. *)
Definition of_nat (n : nat) : Qc := Qc_of_Z (Z.of_nat n).

(** [os.path.join(folder, name)] for a relative [name] *)
Definition path_join (folder name : string) : string := folder +:+ "/" +:+ name.

(** [s.endswith(suf)] *)
Definition endswith (s suf : string) : bool :=
  let n := String.length s in
  let m := String.length suf in
  bool_decide (m <= n)%nat && String.eqb (String.substring (n - m) m s) suf.

(** [s.split(sep)[0]]: the part of [s] before the first occurrence of
    [sep], all of [s] when [sep] does not occur. *)
Definition split_head (s sep : string) : string :=
  match String.index 0 sep s with
  | Some i => String.substring 0 i s
  | None => s
  end.

(** [str(n)] for a natural number. *)
Definition str_nat (n : nat) : string :=
  NilEmpty.string_of_uint (Nat.to_uint n).

End Py.
Export Py.

(** Numeric results: a real number or [nan]. *)
Inductive num : Type :=
| NaN
| Real (r : R).

Definition Qc2R (q : Qc) : R := Q2R q.

(** ** cal_kendall.py *)
Module cal_kendall.

Record csv_row : Type := { c_rir : string; c_score : string; c_count : string }.

(** One directory entry: its name and what [pd.read_csv(..., header=None,
    names=["rir", "score", "count"])] gives for it. *)
Definition dir_entry : Type := (string * result (list csv_row))%type.

Record ScoreRecord : Type := { t60 : Qc; rir : string; score : Qc }.

(** A pandas frame as [load_scores] can return it: [pd.DataFrame()], which
    has no columns at all, or a frame with the columns [t60, rir, score]. *)
Inductive DataFrame : Type :=
| NoColumns
| Frame (rows : list ScoreRecord).

Definition frame_rows (df : DataFrame) : list ScoreRecord :=
  match df with
  | NoColumns => []
  | Frame rows => rows
  end.

(** What one pass through the body of the [for csv_file] loop does. *)
Inductive iteration : Type :=
| Continue
| Appended (df : list ScoreRecord)
| Caught (e : exn).

Record loader_state : Type :=
  { scores : list (list ScoreRecord); printed : list (string * exn) }.

Section Loader.

(** Python's [float(str)]: the value, or [ValueError]. *)
Variable float : string -> result Qc.
(** [pd.to_numeric(cell, errors="coerce")]: [None] stands for NaN. *)
Variable to_numeric : string -> option Qc.

(** [t60_range and not (t60_range[0] <= t60 <= t60_range[1])] *)
Definition outside (t60_range : option (Qc * Qc)) (t : Qc) : bool :=
  match t60_range with
  | None => false
  | Some (lo, hi) => negb (bool_decide (lo <= t)%Qc && bool_decide (t <= hi)%Qc)
  end.

(** Lines 41-50: coerce the score column, drop the NaN rows, add the
    [t60] column and keep [t60, rir, score]. *)
Definition clean_rows (t : Qc) (rows : list csv_row) : list ScoreRecord :=
  omap (fun r => match to_numeric (c_score r) with
                 | Some s => Some {| t60 := t; rir := c_rir r; score := s |}
                 | None => None
                 end) rows.

Definition load_file (t60_range : option (Qc * Qc)) (e : dir_entry) : iteration :=
  match float (split_head (fst e) "_mean_scores") with
  | Raise err => Caught err
  | Return t =>
      if outside t60_range t then Continue
      else match snd e with
           | Raise err => Caught err
           | Return rows => Appended (clean_rows t rows)
           end
  end.

Fixpoint load_loop (t60_range : option (Qc * Qc)) (csv_files : list dir_entry)
    (st : loader_state) : loader_state :=
  match csv_files with
  | [] => st
  | e :: rest =>
      load_loop t60_range rest
        match load_file t60_range e with
        | Continue => st
        | Appended df => {| scores := scores st ++ [df]; printed := printed st |}
        | Caught err => {| scores := scores st; printed := printed st ++ [(fst e, err)] |}
        end
  end.

Definition load_scores_run (folder : list dir_entry) (t60_range : option (Qc * Qc))
    : DataFrame * list (string * exn) :=
  let csv_files := filter (fun e => endswith (fst e) "_mean_scores.csv" = true) folder in
  let st := load_loop t60_range csv_files {| scores := []; printed := [] |} in
  (match scores st with
   | [] => NoColumns
   | _ :: _ => Frame (concat (scores st))
   end, printed st).

Definition load_scores (folder : list dir_entry) (t60_range : option (Qc * Qc))
    : DataFrame :=
  fst (load_scores_run folder t60_range).

(** *** The loader as section 4.1 of the specification words it *)

(** A file qualifies when its name has the suffix, its T60 parses and lies
    in the range, and it can be read. *)
Definition qualifying_rows (t60_range : option (Qc * Qc)) (e : dir_entry)
    : option (Qc * list csv_row) :=
  if endswith (fst e) "_mean_scores.csv" then
    match float (split_head (fst e) "_mean_scores"), snd e with
    | Return t, Return rows =>
        match t60_range with
        | None => Some (t, rows)
        | Some (lo, hi) =>
            if decide (lo <= t /\ t <= hi)%Qc then Some (t, rows) else None
        end
    | _, _ => None
    end
  else None.

Definition retained_rows (folder : list dir_entry) (t60_range : option (Qc * Qc))
    : list ScoreRecord :=
  flat_map (fun e => match qualifying_rows t60_range e with
                     | Some (t, rows) =>
                         flat_map (fun r => match to_numeric (c_score r) with
                                            | Some s => [ {| t60 := t; rir := c_rir r; score := s |} ]
                                            | None => []
                                            end) rows
                     | None => []
                     end) folder.

(** The rows a file holds, none when it cannot be read. *)
Definition input_rows (e : dir_entry) : nat :=
  match snd e with
  | Return rows => length rows
  | Raise _ => 0
  end.

Definition total_input_rows (folder : list dir_entry) : nat :=
  sum_list (map input_rows folder).

(** What one file adds to the table. *)
Definition contribution (t60_range : option (Qc * Qc)) (e : dir_entry)
    : list ScoreRecord :=
  match load_file t60_range e with
  | Appended df => df
  | _ => []
  end.

(** *** pandas and scipy as [calculate_folders_metrics] uses them *)

Record merged_row : Type :=
  { m_t60 : Qc; m_rir : string; score_1 : Qc; score_2 : Qc }.

Definition same_key (a b : ScoreRecord) : Prop :=
  t60 a = t60 b /\ rir a = rir b.

#[global] Instance same_key_dec a b : Decision (same_key a b).
Proof. unfold same_key. apply _. Defined.

(** The rows of the right table that carry the key of [a], each paired
    with [a]. *)
Definition matches (a : ScoreRecord) (rows2 : list ScoreRecord) : list merged_row :=
  map (fun b => {| m_t60 := t60 a; m_rir := rir a;
                   score_1 := score a; score_2 := score b |})
      (filter (same_key a) rows2).

(** The inner join that [pd.merge(left, right, on=["t60", "rir"])]
    documents: every pair of rows with equal keys, in the order of the
    left keys. *)
Definition inner_join (rows1 rows2 : list ScoreRecord) : list merged_row :=
  flat_map (fun a => matches a rows2) rows1.

(** Whether [pd.read_csv] keeps a cell of the identifier column as a
    string whatever else the column holds: the cell spells no number, no
    boolean and no missing value. *)
Variable is_text : string -> bool.

(** Every identifier cell of every score file of the folder that can be
    read is text.  pandas then holds the identifier column of the loaded
    table as strings, whichever rows are dropped. *)
Definition text_identifiers (folder : list dir_entry) : bool :=
  forallb (fun e => negb (endswith (fst e) "_mean_scores.csv")
                    || match snd e with
                       | Return rows => forallb (fun r => is_text (c_rir r)) rows
                       | Raise _ => true
                       end) folder.

(** [pd.merge(scores1, scores2, on=["t60", "rir"], suffixes=("_1", "_2"))]:
    a frame without the key columns makes pandas raise [KeyError], before
    it looks at any cell.  With the key columns on both sides, this is
    the merge of two tables whose identifier columns hold strings
    ([text_identifiers]).  An identifier column that [pd.read_csv] typed
    as numbers is outside this definition: pandas compares such
    identifiers as numbers (1 and 01 are one key), and it refuses, with a
    [ValueError] of its own, to merge a column of strings with a column
    of numbers. *)
Definition pd_merge (scores1 scores2 : DataFrame) : result (list merged_row) :=
  match scores1, scores2 with
  | Frame rows1, Frame rows2 => Return (inner_join rows1 rows2)
  | _, _ => Raise (KeyError "t60")
  end.

Definition sum (x : list Qc) : Qc := foldr Qcplus 0%Qc x.

(** [np.mean] *)
Definition mean (x : list Qc) : Qc := (sum x / of_nat (length x))%Qc.

Definition dot (x y : list Qc) : Qc := sum (zip_with Qcmult x y).

Definition centred (x : list Qc) : list Qc := map (fun a => (a - mean x)%Qc) x.

(** [(x == x[0]).all()] *)
Definition constant (x : list Qc) : bool :=
  match x with
  | [] => true
  | x0 :: _ => forallb (fun a => bool_decide (a = x0)) x
  end.

(** [max(min(r, 1.0), -1.0)] *)
Definition clip (r : R) : R := Rmax (Rmin r 1) (-1).

(** The coefficient itself: [nan] for a constant input, otherwise
    sum((x - mx)(y - my)) / sqrt(sum((x - mx)^2) sum((y - my)^2)), clipped
    to [-1, 1].  This is the exact value of the formula; scipy evaluates
    it on doubles, and its result is this value up to rounding only (on
    two identical vectors it can fall just below 1.0). *)
Definition pearson_value (x y : list Qc) : num :=
  if constant x || constant y then NaN
  else
    let xm := centred x in
    let ym := centred y in
    Real (clip (Qc2R (dot xm ym) / sqrt (Qc2R (dot xm xm * dot ym ym)))).

(** The text is that of scipy 1.17; older releases word it without the
    backquotes. *)
Definition too_short_error : exn :=
  ValueError "`x` and `y` must have length at least 2.".

(** [scipy.stats.pearsonr(x, y)[0]]: [ValueError] for vectors of
    different lengths or with fewer than two samples. *)
Definition pearsonr (x y : list Qc) : result num :=
  if negb (Nat.eqb (length x) (length y)) then
    Raise (ValueError "x and y must have the same length.")
  else if Nat.ltb (length x) 2 then Raise too_short_error
  else Return (pearson_value x y).

(** sign(a - b) *)
Definition sgn (a b : Qc) : Z :=
  match (a ?= b)%Qc with
  | Lt => -1
  | Eq => 0
  | Gt => 1
  end.

(** Concordant minus discordant pairs: the sum over all pairs i < j of
    sign(x_i - x_j) sign(y_i - y_j). *)
Fixpoint con_minus_dis (x y : list Qc) : Z :=
  match x, y with
  | a :: x', b :: y' =>
      (foldr Z.add 0 (zip_with (fun c d => sgn a c * sgn b d) x' y')
       + con_minus_dis x' y')%Z
  | _, _ => 0%Z
  end.

(** [len(set(x))] *)
Definition classes (x : list Qc) : nat := length (remove_dups x).

(** [np.minimum(1., max(-1., tau))] *)
Definition limit (tau : Qc) : Qc :=
  let lower := if decide (tau <= -1)%Qc then (-1)%Qc else tau in
  if decide (1 <= lower)%Qc then 1%Qc else lower.

(** The tau-c coefficient of [scipy.stats.kendalltau(x, y, variant="c")]:
    [nan] when the input is empty or one of the vectors is entirely tied,
    otherwise 2 (P - Q) / (n^2 (m - 1) / m) with m the smaller number of
    distinct values, limited to [-1, 1]. *)
Definition tau_c (x y : list Qc) : option Qc :=
  if bool_decide (classes x <= 1)%nat || bool_decide (classes y <= 1)%nat then None
  else
    let size := of_nat (length x) in
    let minclasses := of_nat (Nat.min (classes x) (classes y)) in
    let tau := (2 * Qc_of_Z (con_minus_dis x y)
                / (size * size * (minclasses - 1) / minclasses))%Qc in
    Some (limit tau).

(** Where scipy returns the p-value of the test. *)
Variable kendall_p : list Qc -> list Qc -> num.

Definition kendalltau (x y : list Qc) : num * num :=
  match tau_c x y with
  | None => (NaN, NaN)
  | Some tau => (Real (Qc2R tau), kendall_p x y)
  end.

Record MetricSummary : Type :=
  { pearson : num; kendall : num; kendall_p_value : num; rmse : num }.

Definition empty_join_error : exn :=
  ValueError "No common T60 and RIR pairs found between the two folders within the specified range.".

(** [np.sqrt(np.mean((x - y) ** 2))], as the exact value of the formula;
    [binary64.rmse] is the same line on doubles. *)
Definition rmse_of (x y : list Qc) : R :=
  sqrt (Qc2R (mean (zip_with (fun a b => ((a - b) * (a - b))%Qc) x y))).

(** Lines 76-103: what [calculate_folders_metrics] does with the two
    tables it has loaded. *)
Definition compare_scores (scores1 scores2 : DataFrame) : result MetricSummary :=
  merged_df ← pd_merge scores1 scores2;
  if bool_decide (length merged_df = 0)%nat then Raise empty_join_error
  else
    let x := map score_1 merged_df in
    let y := map score_2 merged_df in
    pearson_corr ← pearsonr x y;
    let '(kendall_corr, kendall_p_value) := kendalltau x y in
    mret {| pearson := pearson_corr; kendall := kendall_corr;
            kendall_p_value := kendall_p_value;
            rmse := Real (rmse_of x y) |}.

Definition calculate_folders_metrics (folder1 folder2 : list dir_entry)
    (t60_range : option (Qc * Qc)) : result MetricSummary :=
  let scores1 := load_scores folder1 t60_range in
  let scores2 := load_scores folder2 t60_range in
  compare_scores scores1 scores2.

(** *** The comparison as section 4.2 of the specification words it *)

(** The inner join of the two loaded score tables on (t60, identifier). *)
Definition paired_samples (folder1 folder2 : list dir_entry)
    (t60_range : option (Qc * Qc)) : list merged_row :=
  inner_join (frame_rows (load_scores folder1 t60_range))
             (frame_rows (load_scores folder2 t60_range)).

(** The summary of a list of paired samples. *)
Definition summary_of (pairs : list merged_row) : MetricSummary :=
  let x := map score_1 pairs in
  let y := map score_2 pairs in
  {| pearson := pearson_value x y;
     kendall := fst (kendalltau x y);
     kendall_p_value := snd (kendalltau x y);
     rmse := Real (rmse_of x y) |}.

(** Whether [load_scores] gave a frame that has the key columns. *)
Definition has_columns (df : DataFrame) : Prop :=
  match df with
  | NoColumns => False
  | Frame _ => True
  end.

End Loader.

(** *** Notions the proofs speak about *)

(** The join key of a row. *)
Definition key (a : ScoreRecord) : Qc * string := (t60 a, rir a).

(** A row joined with itself. *)
Definition diagonal (a : ScoreRecord) : merged_row :=
  {| m_t60 := t60 a; m_rir := rir a; score_1 := score a; score_2 := score a |}.

(** A joined row read from the other side. *)
Definition swap_scores (m : merged_row) : merged_row :=
  {| m_t60 := m_t60 m; m_rir := m_rir m; score_1 := score_2 m; score_2 := score_1 m |}.

(** Concordance of two paired samples: 1, -1, or 0 on a tie. *)
Definition pair_sign (p q : merged_row) : Z :=
  (sgn (score_1 p) (score_1 q) * sgn (score_2 p) (score_2 q))%Z.

Definition row_sum (p : merged_row) (l : list merged_row) : Z :=
  foldr Z.add 0%Z (map (pair_sign p) l).

Fixpoint pair_sum (l : list merged_row) : Z :=
  match l with
  | [] => 0
  | p :: l' => row_sum p l' + pair_sum l'
  end.

(** Sum of the products of the centred columns [g] and [h]. *)
Definition cross (g h : merged_row -> Qc) (l : list merged_row) : Qc :=
  dot (centred (map g l)) (centred (map h l)).

Definition square_error (p : merged_row) : Qc :=
  ((score_1 p - score_2 p) * (score_1 p - score_2 p))%Qc.

End cal_kendall.

(** ** Line 96 of cal_kendall.py on IEEE 754 doubles *)
Module binary64.

(** A Python [int] as a double, digit by digit; exact below 2^53. *)
Fixpoint of_pos (p : positive) : PrimFloat.float :=
  match p with
  | xH => PrimFloat.one
  | xO p' => PrimFloat.mul PrimFloat.two (of_pos p')
  | xI p' => PrimFloat.add (PrimFloat.mul PrimFloat.two (of_pos p')) PrimFloat.one
  end.

Definition of_Z (z : Z) : PrimFloat.float :=
  match z with
  | Z0 => PrimFloat.zero
  | Zpos p => of_pos p
  | Zneg p => PrimFloat.opp (of_pos p)
  end.

(** The double nearest to a rational whose numerator and denominator lie
    below 2^53 (the division of two exact doubles is correctly rounded):
    what [float] and [pd.read_csv] give for a decimal numeral of that
    value. *)
Definition of_Qc (q : Qc) : PrimFloat.float :=
  PrimFloat.div (of_Z (Qnum q)) (of_Z (Zpos (Qden q))).

(** [np.mean(v)] on fewer than eight values: the values are added from
    left to right and the sum is divided by their number. *)
Definition mean (v : list PrimFloat.float) : PrimFloat.float :=
  PrimFloat.div (fold_left PrimFloat.add v PrimFloat.zero) (of_Z (Z.of_nat (length v))).

(** [np.sqrt(np.mean((x - y) ** 2))] *)
Definition rmse (x y : list PrimFloat.float) : PrimFloat.float :=
  PrimFloat.sqrt
    (mean (zip_with (fun a b => PrimFloat.mul (PrimFloat.sub a b) (PrimFloat.sub a b)) x y)).

(** Line 96 on the paired samples, in the order of the merged table. *)
Definition rmse_of_pairs (pairs : list cal_kendall.merged_row) : PrimFloat.float :=
  rmse (map (fun p => of_Qc (cal_kendall.score_1 p)) pairs)
       (map (fun p => of_Qc (cal_kendall.score_2 p)) pairs).

End binary64.

(** ** variance_test.py *)
Module variance_test.

(** One directory entry: its name and what [pd.read_csv(file_path)] gives
    for it, a frame seen as its named columns. *)
Definition dir_entry : Type := (string * result (gmap string (list Qc)))%type.

Record levene_row : Type := { T60 : Qc; Levene_Stat : num; P_Value : num }.

(** The lines the script prints. *)
Inductive line : Type :=
| ErrorProcessing (file_name : string) (e : exn)
| Banner
| ResultLine (t60 : Qc) (stat p_value : num)
| ErrorLevene (t60 : Qc) (e : exn)
| ResultsSaved (output_file : string).

(** The console and the files written so far. *)
Record world : Type :=
  { console : list line; written : list (string * list levene_row) }.

Definition print (l : line) : prog world unit :=
  modify (fun w => {| console := console w ++ [l]; written := written w |}).

Definition to_csv (output_file : string) (df : list levene_row) : prog world unit :=
  modify (fun w => {| console := console w;
                      written := written w ++ [(output_file, df)] |}).

(** The order [sort_values(by="T60")] sorts rows in. *)
Definition by_T60 (a b : levene_row) : Prop := (T60 a <= T60 b)%Qc.

#[global] Instance by_T60_dec : RelDecision by_T60.
Proof. intros a b. unfold by_T60. apply _. Defined.

Section Variance.

(** Python's [float(str)]. *)
Variable float : string -> result Qc.
(** [scipy.stats.levene(scores1, scores2)]: statistic and p-value, or an
    exception. *)
Variable levene : list Qc -> list Qc -> result (num * num).

(** The body of the [try] of [get_t60_data]. *)
Definition read_scores (e : dir_entry) : result (Qc * list Qc) :=
  t60 ← float (split_head (fst e) "_mean_scores");
  df ← snd e;
  scores ← getitem "mean_score" df "mean_score";
  mret (t60, scores).

Fixpoint get_t60_data_loop (folder : list dir_entry) (t60_data : gmap Qc (list Qc))
    : prog world (gmap Qc (list Qc)) :=
  match folder with
  | [] => mret t60_data
  | e :: rest =>
      if endswith (fst e) "_mean_scores.csv" then
        match read_scores e with
        | Return (t60, scores) => get_t60_data_loop rest (<[t60 := scores]> t60_data)
        | Raise err =>
            print (ErrorProcessing (fst e) err) ;;
            get_t60_data_loop rest t60_data
        end
      else get_t60_data_loop rest t60_data
  end.

Definition get_t60_data (folder : list dir_entry) : prog world (gmap Qc (list Qc)) :=
  get_t60_data_loop folder ∅.

(** [sorted(set(d1.keys()).intersection(d2.keys()))] *)
Definition common (d1 d2 : gmap Qc (list Qc)) : list Qc :=
  merge_sort Qcle (elements (dom d1 ∩ dom d2)).

Fixpoint levene_loop (folder1_data folder2_data : gmap Qc (list Qc))
    (common_t60s : list Qc) (results : list levene_row)
    : prog world (list levene_row) :=
  match common_t60s with
  | [] => mret results
  | t60 :: rest =>
      scores1 ← lift (getitem "t60" folder1_data t60);
      scores2 ← lift (getitem "t60" folder2_data t60);
      match levene scores1 scores2 with
      | Return (stat, p_value) =>
          print (ResultLine t60 stat p_value) ;;
          levene_loop folder1_data folder2_data rest
            (results ++ [ {| T60 := t60; Levene_Stat := stat; P_Value := p_value |} ])
      | Raise err =>
          print (ErrorLevene t60 err) ;;
          levene_loop folder1_data folder2_data rest results
      end
  end.

(** [pd.DataFrame(results).sort_values(by="T60")]: a frame built from an
    empty list has no column to sort by. *)
Definition sort_values (results : list levene_row) : result (list levene_row) :=
  match results with
  | [] => Raise (KeyError "T60")
  | _ :: _ => Return (merge_sort by_T60 results)
  end.

Definition levene_test_between_folders (folder1 folder2 : list dir_entry)
    (output_file : string) : prog world unit :=
  folder1_data ← get_t60_data folder1;
  folder2_data ← get_t60_data folder2;
  let common_t60s := common folder1_data folder2_data in
  print Banner ;;
  results ← levene_loop folder1_data folder2_data common_t60s [];
  results_df ← lift (sort_values results);
  to_csv output_file results_df ;;
  print (ResultsSaved output_file).

(** *** The comparator as section 4.4 of the specification words it *)

(** The T60 a file is stored under, when [get_t60_data] keeps it. *)
Definition file_t60 (e : dir_entry) : option Qc :=
  if endswith (fst e) "_mean_scores.csv" then
    match read_scores e with
    | Return (t60, _) => Some t60
    | Raise _ => None
    end
  else None.

(** The T60 values present in a folder. *)
Definition folder_t60s (folder : list dir_entry) : gset Qc :=
  list_to_set (omap file_t60 folder).

(** The row Levene's test gives at one T60, unless it fails. *)
Definition row_at (d1 d2 : gmap Qc (list Qc)) (t60 : Qc) : option levene_row :=
  match levene (d1 !!! t60) (d2 !!! t60) with
  | Return (stat, p_value) =>
      Some {| T60 := t60; Levene_Stat := stat; P_Value := p_value |}
  | Raise _ => None
  end.

(** The line printed for one T60. *)
Definition line_at (d1 d2 : gmap Qc (list Qc)) (t60 : Qc) : line :=
  match levene (d1 !!! t60) (d2 !!! t60) with
  | Return (stat, p_value) => ResultLine t60 stat p_value
  | Raise err => ErrorLevene t60 err
  end.

End Variance.

End variance_test.

(** ** What get_estoi.py and get_siib.py share: numpy helpers and the
    output they produce *)
Module scorer_io.

(** [sorted(names)] compares strings by code point. *)
Definition str_le (a b : string) : Prop := String.leb a b = true.

#[global] Instance str_le_dec : RelDecision str_le.
Proof. intros a b. unfold str_le. apply _. Defined.

Definition sorted (names : list string) : list string := merge_sort str_le names.

(** [sorted([f for f in os.listdir(folder) if f.endswith(".wav")])] *)
Definition wav_files (listing : list string) : list string :=
  sorted (filter (fun f => endswith f ".wav" = true) listing).

(** [np.pad(x, (0, padding), mode="constant")] *)
Definition np_pad (x : list Qc) (padding : nat) : list Qc :=
  x ++ replicate padding 0%Qc.

(** [np.tile(x, reps)] *)
Definition np_tile {A} (x : list A) (reps : nat) : list A :=
  concat (replicate reps x).

(** Lines "Pad the clean signal to match the length of the degraded
    signal": pad with zeros when shorter, cut when longer. *)
Definition align (clean_signal degraded_signal : list Qc) : list Qc :=
  if Nat.ltb (length clean_signal) (length degraded_signal) then
    np_pad clean_signal (length degraded_signal - length clean_signal)
  else if Nat.ltb (length degraded_signal) (length clean_signal) then
    take (length degraded_signal) clean_signal
  else clean_signal.

(** The second column of an output row: a score, or the error text. *)
Inductive cell : Type :=
| Score (s : num)
| Text (s : string).

Inductive line : Type :=
| Processed (file_record_name : string) (s : num)
| FailedToProcess (degraded_file : string) (e : exn).

(** One invocation of the scoring capability. *)
Record call (A : Type) : Type :=
  { clean_arg : list A; degraded_arg : list A; fs_arg : Z }.
Arguments clean_arg {A} c.
Arguments degraded_arg {A} c.
Arguments fs_arg {A} c.

(** The rows appended to each CSV path, the scorer invocations made and
    the console, in order. *)
Record world (A : Type) : Type :=
  { csv : gmap string (list (string * cell));
    scored : list (call A);
    console : list line }.
Arguments csv {A} w.
Arguments scored {A} w.
Arguments console {A} w.

(** [open(path, mode="a")]: the file exists afterwards, its rows are kept. *)
Definition open_append {A} (path : string) : prog (world A) unit :=
  modify (fun w => {| csv := <[path := default [] (csv w !! path)]> (csv w);
                      scored := scored w; console := console w |}).

Definition writerow {A} (path : string) (row : string * cell) : prog (world A) unit :=
  modify (fun w => {| csv := <[path := default [] (csv w !! path) ++ [row]]> (csv w);
                      scored := scored w; console := console w |}).

Definition print {A} (l : line) : prog (world A) unit :=
  modify (fun w => {| csv := csv w; scored := scored w; console := console w ++ [l] |}).

(** Calling the scorer: the call is recorded, its outcome returned. *)
Definition invoke {A} (scorer : list A -> list A -> Z -> result num)
    (clean degraded : list A) (fs : Z) : prog (world A) num :=
  fun w => (scorer clean degraded fs,
            {| csv := csv w;
               scored := scored w ++ [ {| clean_arg := clean; degraded_arg := degraded; fs_arg := fs |} ];
               console := console w |}).

(** The rows a run leaves at a path. *)
Definition rows_at {A} (w : world A) (path : string) : list (string * cell) :=
  default [] (csv w !! path).

(** A run that completes and appends exactly [row] at [path]. *)
Definition appends_row {A} (run : prog (world A) unit) (path : string)
    (w : world A) (row : string * cell) : Prop :=
  fst (run w) = Return tt /\ rows_at (snd (run w)) path = rows_at w path ++ [row].

(** The two shapes of an output row: a score under the name
    "<rir_subfolder_name>/<degraded_file>", or an error text under the
    bare name of the degraded file. *)
Definition named_by_outcome (rir_subfolder_name degraded_file : string)
    (row : string * cell) : Prop :=
  (exists s, row = (rir_subfolder_name +:+ "/" +:+ degraded_file, Score s))
  \/ (exists e, row = (degraded_file, Text ("Error: " +:+ str_exn e))).

(** A run that raises [e] before scoring anything and before writing any
    row or printing any line. *)
Definition aborts_untouched {A} (run : prog (world A) unit) (w : world A)
    (e : exn) : Prop :=
  fst (run w) = Raise e
  /\ scored (snd (run w)) = scored w
  /\ console (snd (run w)) = console w
  /\ forall path, rows_at (snd (run w)) path = rows_at w path.

Definition mismatch_error (n_clean n_degraded : nat) (rir_folder_path : string) : exn :=
  ValueError ("Mismatch: " +:+ str_nat n_clean +:+ " clean files vs "
              +:+ str_nat n_degraded +:+ " degraded files in " +:+ rir_folder_path).

Definition rate_error (clean_file degraded_file : string) : exn :=
  ValueError ("Sampling rates do not match for " +:+ clean_file +:+ " and " +:+ degraded_file).

End scorer_io.

(** ** get_estoi.py *)
Module get_estoi.
Import scorer_io.

Definition clean_audio_folder : string := "clean_english".
Definition degraded_base_folder : string := "clean_english_zero".
Definition output_folder_name : string := "estoi_scores_zero_english".

Section Scorer.

(** The file system: [os.listdir], [os.path.isdir], [sf.read]. *)
Variable listdir : string -> list string.
Variable isdir : string -> bool.
Variable sf_read : string -> result (list Qc * Z).
(** [pystoi.stoi(clean, degraded, fs, extended=True)] *)
Variable stoi : list Qc -> list Qc -> Z -> result num.
(** [os.getcwd()] *)
Variable cwd : string.

Definition output_folder_path : string := path_join cwd output_folder_name.

(** The body of the loop over the file pairs. *)
Definition process_pair (rir_folder_path clean_audio_folder output_csv_path
    rir_subfolder_name clean_file degraded_file : string) : prog (world Qc) unit :=
  let clean_file_path := path_join clean_audio_folder clean_file in
  let degraded_file_path := path_join rir_folder_path degraded_file in
  try_except
    ('(clean_signal, fs_clean) ← lift (sf_read clean_file_path);
     '(degraded_signal, fs_degraded) ← lift (sf_read degraded_file_path);
     (if bool_decide (fs_clean <> fs_degraded)
      then raise (rate_error clean_file degraded_file) else mret tt) ;;
     let clean_signal := align clean_signal degraded_signal in
     estoi_score ← invoke stoi clean_signal degraded_signal fs_clean;
     let file_record_name := rir_subfolder_name +:+ "/" +:+ degraded_file in
     writerow output_csv_path (file_record_name, Score estoi_score) ;;
     print (Processed file_record_name estoi_score))
    (fun e =>
       writerow output_csv_path (degraded_file, Text ("Error: " +:+ str_exn e)) ;;
       print (FailedToProcess degraded_file e)).

(** What decides between the two paths of the loop body, in the words of
    the specification: a pair is successful when both files are read at
    one sample rate and the scorer returns on the aligned signals, and
    then it has that score; it is failed with the first exception
    otherwise. *)
Definition pair_outcome (rir_folder_path clean_audio_folder clean_file
    degraded_file : string) : result num :=
  match sf_read (path_join clean_audio_folder clean_file) with
  | Raise e => Raise e
  | Return (clean_signal, fs_clean) =>
      match sf_read (path_join rir_folder_path degraded_file) with
      | Raise e => Raise e
      | Return (degraded_signal, fs_degraded) =>
          if decide (fs_clean = fs_degraded)
          then stoi (align clean_signal degraded_signal) degraded_signal fs_clean
          else Raise (rate_error clean_file degraded_file)
      end
  end.

Definition process_rir_folder (rir_folder_path clean_audio_folder output_csv_path
    rir_subfolder_name : string) : prog (world Qc) unit :=
  open_append output_csv_path ;;
  let clean_files := wav_files (listdir clean_audio_folder) in
  let degraded_files := wav_files (listdir rir_folder_path) in
  if bool_decide (length clean_files <> length degraded_files) then
    raise (mismatch_error (length clean_files) (length degraded_files) rir_folder_path)
  else
    for_each (zip clean_files degraded_files)
      (fun pair => process_pair rir_folder_path clean_audio_folder output_csv_path
                     rir_subfolder_name (fst pair) (snd pair)).

Definition process_t60_folder (t60_folder : string) : prog (world Qc) unit :=
  let t60_folder_path := path_join degraded_base_folder t60_folder in
  let output_csv_path :=
    path_join output_folder_path (t60_folder +:+ "_estoi_scores.csv") in
  let rir_folders :=
    filter (fun f => isdir (path_join t60_folder_path f) = true) (listdir t60_folder_path) in
  for_each rir_folders
    (fun rir_folder =>
       process_rir_folder (path_join t60_folder_path rir_folder) clean_audio_folder
         output_csv_path rir_folder).

End Scorer.

End get_estoi.

(** ** get_siib.py *)
Module get_siib.
Import scorer_io.

Definition clean_audio_folder : string := "clean_english".
Definition degraded_base_folder : string := "clean_english_zero".
Definition output_folder_name : string := "siib_scores_zero_english".

(** A sample after normalisation: [None] is nan, the value of 0/0. *)
Definition sample : Type := option Qc.

Definition abs (a : Qc) : Qc := if decide (0 <= a)%Qc then a else (- a)%Qc.
Definition max (a b : Qc) : Qc := if decide (a <= b)%Qc then b else a.

(** [np.max(np.abs(x))]: numpy refuses an empty array. *)
Definition np_max_abs (x : list Qc) : result Qc :=
  match x with
  | [] => Raise (ValueError "zero-size array to reduction operation maximum which has no identity")
  | a :: rest => Return (foldr (fun b m => max (abs b) m) (abs a) rest)
  end.

(** [x / np.max(np.abs(x))]: when the maximum is 0 every sample is 0 and
    every quotient is nan. *)
Definition normalize (x : list Qc) : result (list sample) :=
  m ← np_max_abs x;
  mret (map (fun a => if decide (m = 0%Qc) then None else Some (a / m)%Qc) x).

(** [n / fs] on Python ints. *)
Definition true_div (n : nat) (fs : Z) : result Qc :=
  if decide (fs = 0%Z) then Raise (ZeroDivisionError "division by zero")
  else Return (of_nat n / Qc_of_Z fs)%Qc.

(** The repeat policy in the words of the specification: the duration of
    a signal of [n] samples at rate [fs], and the number of copies a
    signal of that duration is tiled into. *)
Definition duration (n : nat) (fs : Z) : Qc := (of_nat n / Qc_of_Z fs)%Qc.

Definition repeat_policy (seconds : Qc) : nat :=
  if decide (seconds <= Qc_of_Z 5)%Qc then 10 else 5.

(** The scorer call the policy prescribes for a pair of signals read at
    rate [fs]: the normalised aligned signals, both tiled by the repeat
    count of the aligned signal's duration. *)
Definition tiled_call (clean degraded : list Qc) (fs : Z) (c : call sample) : Prop :=
  let aligned := align clean degraded in
  let reps := repeat_policy (duration (length aligned) fs) in
  exists cn dn,
    normalize aligned = Return cn
    /\ normalize degraded = Return dn
    /\ length aligned = length degraded
    /\ c = {| clean_arg := np_tile cn reps; degraded_arg := np_tile dn reps;
              fs_arg := fs |}.

Section Scorer.

Variable listdir : string -> list string.
Variable isdir : string -> bool.
Variable sf_read : string -> result (list Qc * Z).
(** [pysiib.SIIB(clean, degraded, fs, window="hamming", gauss=True)] *)
Variable SIIB : list sample -> list sample -> Z -> result num.
Variable cwd : string.

Definition output_folder_path : string := path_join cwd output_folder_name.

Definition process_pair (rir_folder_path clean_audio_folder output_csv_path
    rir_subfolder_name clean_file degraded_file : string) : prog (world sample) unit :=
  let clean_file_path := path_join clean_audio_folder clean_file in
  let degraded_file_path := path_join rir_folder_path degraded_file in
  try_except
    ('(clean_signal, fs_clean) ← lift (sf_read clean_file_path);
     '(degraded_signal, fs_degraded) ← lift (sf_read degraded_file_path);
     (if bool_decide (fs_clean <> fs_degraded)
      then raise (rate_error clean_file degraded_file) else mret tt) ;;
     let clean_signal := align clean_signal degraded_signal in
     clean_signal ← lift (normalize clean_signal);
     degraded_signal ← lift (normalize degraded_signal);
     signal_length_seconds ← lift (true_div (length clean_signal) fs_clean);
     let repeat_count :=
       if decide (signal_length_seconds <= Qc_of_Z 5)%Qc then 10%nat else 5%nat in
     let clean_signal := np_tile clean_signal repeat_count in
     let degraded_signal := np_tile degraded_signal repeat_count in
     siib_score ← invoke SIIB clean_signal degraded_signal fs_clean;
     let file_record_name := rir_subfolder_name +:+ "/" +:+ degraded_file in
     writerow output_csv_path (file_record_name, Score siib_score) ;;
     print (Processed file_record_name siib_score))
    (fun e =>
       writerow output_csv_path (degraded_file, Text ("Error: " +:+ str_exn e)) ;;
       print (FailedToProcess degraded_file e)).

(** What decides between the two paths of the loop body, in the words of
    the specification: a pair is successful when both files are read at
    one sample rate, both signals can be normalised, the rate is not 0
    and the scorer returns on the tiled signals, and then it has that
    score; it is failed with the first exception otherwise. *)
Definition pair_outcome (rir_folder_path clean_audio_folder clean_file
    degraded_file : string) : result num :=
  match sf_read (path_join clean_audio_folder clean_file) with
  | Raise e => Raise e
  | Return (clean_signal, fs_clean) =>
      match sf_read (path_join rir_folder_path degraded_file) with
      | Raise e => Raise e
      | Return (degraded_signal, fs_degraded) =>
          if decide (fs_clean = fs_degraded) then
            match normalize (align clean_signal degraded_signal) with
            | Raise e => Raise e
            | Return clean_normalized =>
                match normalize degraded_signal with
                | Raise e => Raise e
                | Return degraded_normalized =>
                    if decide (fs_clean = 0%Z)
                    then Raise (ZeroDivisionError "division by zero")
                    else
                      let reps :=
                        repeat_policy (duration (length clean_normalized) fs_clean) in
                      SIIB (np_tile clean_normalized reps)
                           (np_tile degraded_normalized reps) fs_clean
                end
            end
          else Raise (rate_error clean_file degraded_file)
      end
  end.

Definition process_rir_folder (rir_folder_path clean_audio_folder output_csv_path
    rir_subfolder_name : string) : prog (world sample) unit :=
  open_append output_csv_path ;;
  let clean_files := wav_files (listdir clean_audio_folder) in
  let degraded_files := wav_files (listdir rir_folder_path) in
  if bool_decide (length clean_files <> length degraded_files) then
    raise (mismatch_error (length clean_files) (length degraded_files) rir_folder_path)
  else
    for_each (zip clean_files degraded_files)
      (fun pair => process_pair rir_folder_path clean_audio_folder output_csv_path
                     rir_subfolder_name (fst pair) (snd pair)).

Definition process_t60_folder (t60_folder : string) : prog (world sample) unit :=
  let t60_folder_path := path_join degraded_base_folder t60_folder in
  let output_csv_path :=
    path_join output_folder_path (t60_folder +:+ "_siib_scores.csv") in
  let rir_folders :=
    filter (fun f => isdir (path_join t60_folder_path f) = true) (listdir t60_folder_path) in
  for_each rir_folders
    (fun rir_folder =>
       process_rir_folder (path_join t60_folder_path rir_folder) clean_audio_folder
         output_csv_path rir_folder).

End Scorer.

End get_siib.

(** ** Concrete folders and capabilities used to run the model *)
Module Fixtures.

Definition digit (c : ascii) : option Z :=
  let n := nat_of_ascii c in
  if (48 <=? n)%nat && (n <=? 57)%nat then Some (Z.of_nat (n - 48)) else None.

Fixpoint digits (s : string) (acc : Z) : option Z :=
  match s with
  | EmptyString => Some acc
  | String c s' =>
      match digit c with
      | Some d => digits s' (10 * acc + d)%Z
      | None => None
      end
  end.

(** Decimal numerals such as [0.50] and [12]: a fragment of what Python's
    [float] and pandas' [to_numeric] accept. *)
Definition parse_decimal (s : string) : option Qc :=
  let ip := split_head s "." in
  let fp := String.substring (S (String.length ip)) (String.length s) s in
  if bool_decide (ip = "") then None
  else match digits ip 0, digits fp 0 with
       | Some i, Some f =>
           let k := Z.pow 10 (Z.of_nat (String.length fp)) in
           Some (Q2Qc (Qmake (i * k + f) (Z.to_pos k)))
       | _, _ => None
       end.

(** The error text quotes the string as [repr] does for a string without
    quotes or escapes. *)
Definition float (s : string) : result Qc :=
  match parse_decimal s with
  | Some q => Return q
  | None => Raise (ValueError ("could not convert string to float: '" +:+ s +:+ "'"))
  end.

(** Identifiers that begin with [mic]: a fragment of the cells that
    [pd.read_csv] keeps as strings. *)
Definition is_text (s : string) : bool := String.prefix "mic" s.

Definition no_p_value (x y : list Qc) : num := NaN.

Definition row (name value : string) : cal_kendall.csv_row :=
  {| cal_kendall.c_rir := name; cal_kendall.c_score := value;
     cal_kendall.c_count := "10" |}.

(** The two folders of the concrete scenario of section 8, with an
    unreadable entry and a row without a score added to the first. *)
Definition folder_A : list cal_kendall.dir_entry :=
  [("0.50_mean_scores.csv", Return [row "mic1" "0.8"; row "mic2" "0.6"; row "mic3" "n/a"]);
   ("broken_mean_scores.csv", Return [row "mic1" "0.1"]);
   ("notes.txt", Raise (OtherError "UnicodeDecodeError" "invalid start byte"))].

Definition folder_B : list cal_kendall.dir_entry :=
  [("0.50_mean_scores.csv", Return [row "mic1" "0.9"; row "mic2" "0.5"])].

(** Shares the single key (0.5, mic1) with [folder_A]. *)
Definition folder_one : list cal_kendall.dir_entry :=
  [("0.50_mean_scores.csv", Return [row "mic1" "0.9"; row "mic9" "0.5"])].

(** Shares no key with [folder_A]. *)
Definition folder_other : list cal_kendall.dir_entry :=
  [("0.50_mean_scores.csv", Return [row "mic7" "0.9"])].

(** No score file at all. *)
Definition folder_empty : list cal_kendall.dir_entry :=
  [("readme.md", Raise (OtherError "ParserError" "Error tokenizing data"))].

(** Unique keys, two of the three scores tied. *)
Definition folder_ties : list cal_kendall.dir_entry :=
  [("0.50_mean_scores.csv", Return [row "mic1" "1"; row "mic2" "1"; row "mic3" "2"])].

(** Two folders with the same three keys, listed in opposite orders. *)
Definition folder_fwd : list cal_kendall.dir_entry :=
  [("0.50_mean_scores.csv",
    Return [row "mic1" "0.1"; row "mic2" "0.2"; row "mic3" "0.3"])].

Definition folder_rev : list cal_kendall.dir_entry :=
  [("0.50_mean_scores.csv",
    Return [row "mic3" "0.9"; row "mic2" "0.4"; row "mic1" "0.2"])].

Definition mean_scores (scores : list Qc) : gmap string (list Qc) :=
  {[ "mean_score" := scores ]}.

Definition half : Qc := Q2Qc (1 # 2).

Definition estoi_english : list variance_test.dir_entry :=
  [("0.5_mean_scores.csv", Return (mean_scores [half; 1%Qc; half]));
   ("1.5_mean_scores.csv", Return (mean_scores [1%Qc; 1%Qc]));
   ("2.0_mean_scores.csv", Return (mean_scores [half]))].

Definition estoi_mandarin : list variance_test.dir_entry :=
  [("2.0_mean_scores.csv", Return (mean_scores [half; 1%Qc]));
   ("0.5_mean_scores.csv", Return (mean_scores [1%Qc; half]));
   ("4.0_mean_scores.csv", Return (mean_scores [1%Qc; half]))].

(** Only T60 = 4. *)
Definition estoi_long : list variance_test.dir_entry :=
  [("4.0_mean_scores.csv", Return (mean_scores [1%Qc; half]))].

(** Only T60 = 2, with a single score. *)
Definition estoi_single : list variance_test.dir_entry :=
  [("2.0_mean_scores.csv", Return (mean_scores [half]))].

(** A stand-in for a Levene's test that raises on some samples, here on
    those with fewer than two values, so that the [except] branch of the
    caller can be run.  [scipy.stats.levene] itself answers such a sample
    with [nan] or [inf]; what makes it raise is not modelled. *)
Definition levene (scores1 scores2 : list Qc) : result (num * num) :=
  if Nat.ltb (length scores1) 2 || Nat.ltb (length scores2) 2
  then Raise (ValueError "sample too small")
  else Return (Real 0, Real 1).

Definition empty_world : variance_test.world :=
  {| variance_test.console := []; variance_test.written := [] |}.

(** Three clean recordings, two degraded ones in the sub-folder
    [rir_1]. *)
Definition listdir (path : string) : list string :=
  if String.eqb path "clean_english" then ["c.wav"; "a.wav"; "b.wav"; "readme.txt"]
  else if String.eqb path "clean_pair" then ["a.wav"]
  else if String.eqb path "clean_english_zero/0.5/rir_1" then ["b.wav"; "a.wav"]
  else [].

(** Three samples at 2 Hz for the clean recording, four for the degraded
    one. *)
Definition sf_read (path : string) : result (list Qc * Z) :=
  if String.eqb path "clean_pair/a.wav" then Return ([1%Qc; half; 1%Qc], 2%Z)
  else if String.eqb path "rir_pair/a.wav" then Return ([half; 1%Qc; half; half], 2%Z)
  else Raise (OtherError "LibsndfileError" "Error opening file").

Definition scorer {A} (clean degraded : list A) (fs : Z) : result num :=
  Return (Real 1).

Definition no_output (A : Type) : scorer_io.world A :=
  {| scorer_io.csv := ∅; scorer_io.scored := []; scorer_io.console := [] |}.

End Fixtures.

(** ** Further notions about the loader and the comparator *)
Module cal_kendall_notions.
Import cal_kendall.

Section Loader.

Variable float : string -> result Qc.
Variable to_numeric : string -> option Qc.

(** The frame one pass of the loop appends to [scores], if any. *)
Definition appended (t60_range : option (Qc * Qc)) (e : dir_entry)
    : option (list ScoreRecord) :=
  match load_file float to_numeric t60_range e with
  | Appended df => Some df
  | _ => None
  end.

(** The failure one pass of the loop prints, if any. *)
Definition caught (t60_range : option (Qc * Qc)) (e : dir_entry)
    : option (string * exn) :=
  match load_file float to_numeric t60_range e with
  | Caught err => Some (fst e, err)
  | _ => None
  end.

End Loader.

(** A directory entry [load_scores] looks at. *)
Definition score_file (e : dir_entry) : Prop :=
  endswith (fst e) "_mean_scores.csv" = true.

(** [pd.concat(scores, ignore_index=True) if scores else pd.DataFrame()] *)
Definition collected (frames : list (list ScoreRecord)) : DataFrame :=
  match frames with
  | [] => NoColumns
  | _ :: _ => Frame (concat frames)
  end.

(** [pd.concat] of two results of [load_scores]: a frame without columns
    adds nothing. *)
Definition frames_together (a b : DataFrame) : DataFrame :=
  match a, b with
  | NoColumns, d => d
  | d, NoColumns => d
  | Frame x, Frame y => Frame (x ++ y)
  end.

(** A coefficient that is [nan] or lies in [-1, 1]. *)
Definition nan_or_unit (v : num) : Prop :=
  v = NaN \/ exists r, v = Real r /\ (-1 <= r <= 1)%R.

End cal_kendall_notions.

(** ** Further notions about the Variance Comparator *)
Module variance_test_notions.
Import variance_test.

Section Variance.

Variable float : string -> result Qc.

(** The T60 and the scores [get_t60_data] stores for a file, if it keeps
    the file. *)
Definition file_scores (e : dir_entry) : option (Qc * list Qc) :=
  if endswith (fst e) "_mean_scores.csv" then
    match read_scores float e with
    | Return p => Some p
    | Raise _ => None
    end
  else None.

(** What one file does to the dictionary: [t60_data[t60] = scores]. *)
Definition store (d : gmap Qc (list Qc)) (e : dir_entry) : gmap Qc (list Qc) :=
  match file_scores e with
  | Some (t60, scores) => <[t60 := scores]> d
  | None => d
  end.

(** The dictionary [get_t60_data] builds, file after file. *)
Definition t60_data_of (folder : list dir_entry) : gmap Qc (list Qc) :=
  foldl store ∅ folder.

(** The scores stored under [t60] by one file, if it stores any there. *)
Definition scores_under (t60 : Qc) (e : dir_entry) : option (list Qc) :=
  match file_scores e with
  | Some (t, scores) => if decide (t = t60) then Some scores else None
  | None => None
  end.

(** The score lists of the files stored under [t60], in listing order. *)
Definition stored_under (t60 : Qc) (folder : list dir_entry) : list (list Qc) :=
  omap (scores_under t60) folder.

(** The line [get_t60_data] prints for a file, if it prints one. *)
Definition file_error (e : dir_entry) : option line :=
  if endswith (fst e) "_mean_scores.csv" then
    match read_scores float e with
    | Return _ => None
    | Raise err => Some (ErrorProcessing (fst e) err)
    end
  else None.

(** Everything [get_t60_data] prints for a folder. *)
Definition read_errors (folder : list dir_entry) : list line :=
  omap file_error folder.

(** The scores [get_t60_data] ends up with under [t60]. *)
Definition scores_at (t60 : Qc) (folder : list dir_entry) : option (list Qc) :=
  last (stored_under t60 folder).

(** [scipy.stats.levene]. *)
Variable levene : list Qc -> list Qc -> result (num * num).

(** Levene's test is run at [t] on the scores both folders ended up with
    there, and gives [outcome]. *)
Definition tested (folder1 folder2 : list dir_entry) (t : Qc)
    (outcome : result (num * num)) : Prop :=
  exists scores1 scores2,
    scores_at t folder1 = Some scores1
    /\ scores_at t folder2 = Some scores2
    /\ levene scores1 scores2 = outcome.

End Variance.

End variance_test_notions.

(** ** Further notions about the Batch Scorers *)
Module scorer_notions.
Import scorer_io.

(** The check of [process_rir_folder]: as many clean as degraded [.wav]
    files. *)
Definition matching (listdir : string -> list string)
    (clean_audio_folder rir_folder_path : string) : Prop :=
  length (wav_files (listdir clean_audio_folder))
  = length (wav_files (listdir rir_folder_path)).

#[global] Instance matching_dec listdir ca rp : Decision (matching listdir ca rp).
Proof. unfold matching. apply _. Defined.

(** A scorer call on two signals of the same length. *)
Definition equal_lengths {A} (c : call A) : Prop :=
  length (clean_arg c) = length (degraded_arg c).

(** The rows a run leaves at [p], when it appends [rows] at [out] and
    nothing anywhere else. *)
Definition appended_at {A} (out : string) (rows : list (string * cell))
    (w w' : world A) : Prop :=
  forall p, rows_at w' p = if decide (p = out) then rows_at w p ++ rows else rows_at w p.

(** The rows of one RIR sub-folder: one per degraded [.wav] file, in
    sorted order of the file names, each named by its outcome. *)
Definition block_of (listdir : string -> list string) (rir_folder_path sub : string)
    (block : list (string * cell)) : Prop :=
  Forall2 (named_by_outcome sub) (wav_files (listdir rir_folder_path)) block.

(** What one file pair does: it completes, appends one row at [out] and
    calls the scorer at most once, on signals of equal length. *)
Definition pair_effect {A} (run : prog (world A) unit) (out sub degraded_file : string)
    (w : world A) : Prop :=
  exists row calls,
    fst (run w) = Return tt
    /\ appended_at out [row] w (snd (run w))
    /\ named_by_outcome sub degraded_file row
    /\ scored (snd (run w)) = scored w ++ calls
    /\ Forall equal_lengths calls
    /\ (length calls <= 1)%nat.

(** What a completed [process_rir_folder] does. *)
Definition folder_effect {A} (run : prog (world A) unit)
    (listdir : string -> list string) (out rir_folder_path sub : string)
    (w : world A) : Prop :=
  exists block,
    fst (run w) = Return tt
    /\ appended_at out block w (snd (run w))
    /\ block_of listdir rir_folder_path sub block.

(** The run of [process_t60_folder] over the sub-folders [done], ending
    with [outcome]: one block of rows per sub-folder, in listing order,
    all in the CSV of the T60 folder. *)
Definition t60_effect {A} (run : prog (world A) unit)
    (listdir : string -> list string) (out t60_folder_path : string)
    (done : list string) (outcome : result unit) (w : world A) : Prop :=
  exists blocks,
    fst (run w) = outcome
    /\ appended_at out (concat blocks) w (snd (run w))
    /\ Forall2 (fun sub block => block_of listdir (path_join t60_folder_path sub) sub block)
         done blocks.

End scorer_notions.
(** ** cal_kendall.py run as a script *)
Module cal_kendall_main.
Import cal_kendall.

(** The lines the script prints: those of [load_scores] for the files it
    fails on, and those of the [__main__] block.  The RMSE of the summary
    is not among them. *)
Inductive line : Type :=
| FailedToProcess (csv_file : string) (e : exn)
| PearsonLine (v : num)
| KendallLine (v : num)
| KendallPValueLine (v : num)
| ErrorLine (e : exn).

Definition print (l : line) : prog (list line) unit :=
  modify (fun console => console ++ [l]).

(** [try: body except ValueError as e: handler(e)]: any other exception
    goes through. *)
Definition try_except_ValueError {S A} (body : prog S A) (handler : exn -> prog S A)
    : prog S A :=
  fun s =>
    match body s with
    | (Raise (ValueError msg), s') => handler (ValueError msg) s'
    | r => r
    end.

Definition folder1 : string := "siib_scores_english_mean".
Definition folder2 : string := "stipa_scores_mean".
Definition t60_range : option (Qc * Qc) := Some (1%Qc, Qc_of_Z 8).

Section Main.

Variable float : string -> result Qc.
Variable to_numeric : string -> option Qc.
Variable kendall_p : list Qc -> list Qc -> num.
(** The file system: the entries of a folder, each with what reading it
    gives. *)
Variable folder : string -> list dir_entry.

(** The lines [load_scores] prints for a folder, in the order of its
    loop. *)
Definition failures (folder : list dir_entry) (t60_range : option (Qc * Qc))
    : list line :=
  map (fun failed => FailedToProcess (fst failed) (snd failed))
      (snd (load_scores_run float to_numeric folder t60_range)).

(** [load_scores] with the console: it never raises. *)
Definition run_load_scores (folder : list dir_entry) (t60_range : option (Qc * Qc))
    : prog (list line) DataFrame :=
  fun console =>
    (Return (fst (load_scores_run float to_numeric folder t60_range)),
     console ++ failures folder t60_range).

(** [calculate_folders_metrics] with the console: both folders are
    loaded, the first before the second, before anything can raise. *)
Definition run_calculate_folders_metrics (folder1 folder2 : list dir_entry)
    (t60_range : option (Qc * Qc)) : prog (list line) MetricSummary :=
  scores1 ← run_load_scores folder1 t60_range;
  scores2 ← run_load_scores folder2 t60_range;
  lift (compare_scores kendall_p scores1 scores2).

Definition main : prog (list line) unit :=
  try_except_ValueError
    (metrics ← run_calculate_folders_metrics (folder folder1) (folder folder2) t60_range;
     print (PearsonLine (pearson metrics)) ;;
     print (KendallLine (kendall metrics)) ;;
     print (KendallPValueLine (kendall_p_value metrics)))
    (fun e => print (ErrorLine e)).

End Main.

End cal_kendall_main.

(** ** What the plotting scripts share: the grid of subplots *)
Module plot_layout.

(** [math.ceil(n / k)] on Python ints: true division, then the ceiling. *)
Definition ceil_div (n k : Z) : result Z :=
  if decide (k = 0%Z) then Raise (ZeroDivisionError "division by zero")
  else Return (Qceiling (inject_Z n / inject_Z k)).

(** [len(axes)] after [plt.subplots(num_rows, subplots_per_row, ...)] and
    [axes.flatten()]. *)
Definition n_axes (num_rows subplots_per_row : Z) : Z := (num_rows * subplots_per_row)%Z.

(** [range(num_subplots, len(axes))]: the axes that are deleted. *)
Definition hidden (num_subplots n_axes : Z) : list Z :=
  map (fun i => (num_subplots + Z.of_nat i)%Z) (seq 0 (Z.to_nat (n_axes - num_subplots))).

End plot_layout.

(** ** std_deviation_plot.py: the data of [plot_mean_std] *)
Module std_deviation_plot.
Import plot_layout.

(** One directory entry: its name and what [pd.read_csv(file_path)] gives
    for it, a frame seen as its named columns. *)
Definition dir_entry : Type := (string * result (gmap string (list Qc)))%type.

(** One element of [plot_data]. *)
Record stat_row : Type := { t60 : Qc; mean : num; std : num }.

(** The order [sort_values(by="t60")] sorts rows in. *)
Definition by_t60 (a b : stat_row) : Prop := (t60 a <= t60 b)%Qc.

#[global] Instance by_t60_dec : RelDecision by_t60.
Proof. intros a b. unfold by_t60. apply _. Defined.

Inductive line : Type :=
| ProcessingFolder (folder label : string).

Definition print (l : line) : prog (list line) unit :=
  modify (fun console => console ++ [l]).

(** [l.index(t)]: [None] stands for the [ValueError] of a value that is
    not in the list. *)
Fixpoint index (l : list Qc) (t : Qc) : option nat :=
  match l with
  | [] => None
  | a :: rest => if decide (a = t) then Some 0%nat else S <$> index rest t
  end.

(** [sorted(all_t60_values)] *)
Definition sorted_t60_values (all_t60_values : gset Qc) : list Qc :=
  merge_sort Qcle (elements all_t60_values).

(** [all_plot_data[start_idx:end_idx]] for the subplot [subplot_idx]; the
    loop is only entered with a positive [folders_per_subplot]. *)
Definition current_data {A} (all_plot_data : list A) (folders_per_subplot : Z)
    (subplot_idx : nat) : list A :=
  let start_idx := (Z.of_nat subplot_idx * folders_per_subplot)%Z in
  let end_idx := (start_idx + folders_per_subplot)%Z in
  take (Z.to_nat (end_idx - start_idx)) (drop (Z.to_nat start_idx) all_plot_data).

Section Plot.

(** [os.listdir(folder)], each name with what reading it gives. *)
Variable listdir : string -> list dir_entry.
(** Python's [float(str)]. *)
Variable float : string -> result Qc.
(** [Series.mean()] and [Series.std()] of pandas. *)
Variable series_mean : list Qc -> num.
Variable series_std : list Qc -> num.
(** The rows of [DataFrame.sort_values(by="t60")]; pandas does not fix the
    order of rows with equal keys. *)
Variable sort_rows : list stat_row -> list stat_row.

(** The body of the loop over the files: there is no [try] around it. *)
Definition read_stats (e : dir_entry) : result stat_row :=
  let t60 := split_head (fst e) "_" in
  df ← snd e;
  t60_value ← float t60;
  scores ← getitem "mean_score" df "mean_score";
  mret {| t60 := t60_value; mean := series_mean scores; std := series_std scores |}.

Fixpoint collect_files (files : list dir_entry) (all_t60_values : gset Qc)
    (plot_data : list stat_row) : result (gset Qc * list stat_row) :=
  match files with
  | [] => mret (all_t60_values, plot_data)
  | e :: rest =>
      if endswith (fst e) "_mean_scores.csv" then
        row ← read_stats e;
        collect_files rest ({[t60 row]} ∪ all_t60_values) (plot_data ++ [row])
      else collect_files rest all_t60_values plot_data
  end.

(** [pd.DataFrame(plot_data).sort_values(by="t60")]: a frame built from an
    empty list has no column to sort by. *)
Definition sort_values (plot_data : list stat_row) : result (list stat_row) :=
  match plot_data with
  | [] => Raise (KeyError "t60")
  | _ :: _ => Return (sort_rows plot_data)
  end.

(** The loop "Collect data for each folder" over the items of
    [input_folders_with_labels]. *)
Fixpoint collect (input : list (string * string)) (all_t60_values : gset Qc)
    (all_plot_data : list (list stat_row * string))
    : prog (list line) (gset Qc * list (list stat_row * string)) :=
  match input with
  | [] => mret (all_t60_values, all_plot_data)
  | (folder, label) :: rest =>
      print (ProcessingFolder folder label) ;;
      '(all_t60_values, plot_data) ← lift (collect_files (listdir folder) all_t60_values []);
      plot_df ← lift (sort_values plot_data);
      collect rest all_t60_values (all_plot_data ++ [(plot_df, label)])
  end.

(** The column [x_pos] of one frame:
    [plot_df["t60"].apply(lambda t: x_positions[sorted_t60_values.index(t)])]
    with [x_positions = np.arange(len(sorted_t60_values))]. *)
Definition x_pos (all_t60_values : gset Qc) (plot_df : list stat_row) : option (list nat) :=
  mapM (fun r => index (sorted_t60_values all_t60_values) (t60 r)) plot_df.

(** *** The collection in words *)

(** A directory entry the loop looks at. *)
Definition score_file (e : dir_entry) : Prop :=
  endswith (fst e) "_mean_scores.csv" = true.

(** A score file that can be read, carries a T60 that parses and has the
    column [mean_score]; the other entries do not matter. *)
Definition readable (e : dir_entry) : Prop :=
  score_file e -> exists row, read_stats e = Return row.

(** A folder the collection gets through: it holds a score file, and
    every score file in it is readable. *)
Definition plottable (folder : string) : Prop :=
  (exists e, e ∈ listdir folder /\ score_file e)
  /\ Forall readable (listdir folder).

(** The statistics of the score files of a listing, in listing order. *)
Definition kept_rows (files : list dir_entry) : list stat_row :=
  omap (fun e => if endswith (fst e) "_mean_scores.csv" then
                   match read_stats e with
                   | Return row => Some row
                   | Raise _ => None
                   end
                 else None) files.

(** The frame and label [all_plot_data] holds for one item of the
    input. *)
Definition plotted (item : string * string) : list stat_row * string :=
  (sort_rows (kept_rows (listdir (fst item))), snd item).

(** The T60 values of the score files of the input folders. *)
Definition t60s_of (input : list (string * string)) : gset Qc :=
  list_to_set (flat_map (fun item => map t60 (kept_rows (listdir (fst item)))) input).

Definition processing (item : string * string) : line :=
  ProcessingFolder (fst item) (snd item).

End Plot.

End std_deviation_plot.

(** ** scatter_plot.py: the points of [plot_scatter] *)
Module scatter_plot.

(** The keys of [x_data] and [y_data]: the part of the file name before
    the first underscore, as a string, and the cell [rir]. *)
Definition key : Type := (string * string)%type.

(** What [pd.read_csv(file_path)] gives, as far as the loop over
    [df.iterrows()] looks at it: the cells [rir] and [mean_score] of its
    rows, or the first of these two columns that the frame lacks, with
    the number of its rows. *)
Inductive frame : Type :=
| Table (rows : list (string * Qc))
| Lacking (column : string) (n_rows : nat).

Definition dir_entry : Type := (string * result frame)%type.

#[global] Instance Qc_inhabited : Inhabited Qc := populate 0%Qc.

Inductive line : Type :=
| ProcessingY (y_folder output_label : string)
| ProcessingX (x_folder x_label : string).

Definition print (l : line) : prog (list line) unit :=
  modify (fun console => console ++ [l]).

(** One dot of a subplot: [ax.scatter(x, y, label=f"T60={t60}",
    color=color_map[t60], ...)]; the colour is the argument given to
    [plt.cm.viridis]. *)
Record dot : Type := { t60 : string; x : Qc; y : Qc; color : Qc }.

(** [str(key)], the text of a [KeyError] for a missing key. *)
Definition str_key (k : key) : string :=
  "('" +:+ fst k +:+ "', '" +:+ snd k +:+ "')".

(** The order of [sorted] on tuples of two strings. *)
Definition key_le (a b : key) : Prop :=
  match String.compare (fst a) (fst b) with
  | Lt => True
  | Eq => scorer_io.str_le (snd a) (snd b)
  | Gt => False
  end.

#[global] Instance key_le_dec : RelDecision key_le.
Proof. intros a b. unfold key_le. destruct (String.compare _ _); apply _. Defined.

(** [for _, row in df.iterrows(): data[(t60, row["rir"])] =
    row["mean_score"]]: a missing column is a [KeyError] at the first
    row. *)
Definition store_rows (t60 : string) (df : frame) (data : gmap key Qc)
    : result (gmap key Qc) :=
  match df with
  | Table rows => Return (foldl (fun d row => <[(t60, fst row) := snd row]> d) data rows)
  | Lacking column 0 => Return data
  | Lacking column (S _) => Raise (KeyError column)
  end.

(** The loop over the files of a folder; there is no [try] in it. *)
Fixpoint collect (files : list dir_entry) (data : gmap key Qc) : result (gmap key Qc) :=
  match files with
  | [] => mret data
  | e :: rest =>
      if endswith (fst e) "_mean_scores.csv" then
        let t60 := split_head (fst e) "_" in
        df ← snd e;
        data ← store_rows t60 df data;
        collect rest data
      else collect rest data
  end.

(** [sorted(set(x_data.keys()).intersection(y_data.keys()))] *)
Definition common_keys (x_data y_data : gmap key Qc) : list key :=
  merge_sort key_le (elements (dom x_data ∩ dom y_data)).

(** [{t60: plt.cm.viridis(i / len(unique_t60)) for i, t60 in
    enumerate(unique_t60)}] *)
Definition color_map (unique_t60 : list string) : result (gmap string Qc) :=
  foldl (fun r it => d ← r;
                     c ← get_siib.true_div (fst it) (Z.of_nat (length unique_t60));
                     mret (<[snd it := c]> d))
    (Return ∅) (imap (fun i t60 => (i, t60)) unique_t60).

(** "Match data points between x and y folders" and the dots drawn from
    them. *)
Definition dots (x_data y_data : gmap key Qc) : result (list dot) :=
  let common_keys := common_keys x_data y_data in
  x_scores ← mapM (fun key => getitem (str_key key) x_data key) common_keys;
  y_scores ← mapM (fun key => getitem (str_key key) y_data key) common_keys;
  let t60_values := map fst common_keys in
  let unique_t60 := scorer_io.sorted (elements (list_to_set t60_values : gset string)) in
  color_map ← color_map unique_t60;
  mapM (fun p => c ← getitem (fst p) color_map (fst p);
                 mret {| t60 := fst p; x := fst (snd p); y := snd (snd p); color := c |})
       (zip t60_values (zip x_scores y_scores)).

(** [axes[subplot_idx]] on the flattened array of axes. *)
Definition axis (n_axes : Z) (subplot_idx : nat) : result unit :=
  if decide (Z.of_nat subplot_idx < n_axes)%Z then Return tt
  else Raise (OtherError "IndexError"
                ("index " +:+ str_nat subplot_idx
                 +:+ " is out of bounds for axis 0 with size "
                 +:+ str_nat (Z.to_nat n_axes))).

Section Plot.

(** [os.listdir(folder)], each name with what reading it gives. *)
Variable listdir : string -> list dir_entry.
(** [plt.subplots(num_rows, subplots_per_row, ...)]: matplotlib creates
    the grid or refuses its dimensions. *)
Variable plt_subplots : Z -> Z -> result unit.

(** The loop over the x folders, from [subplot_idx] on: the dots of each
    subplot. *)
Fixpoint subplots (x_folders_with_labels : list (string * string)) (subplot_idx : nat)
    (n_axes : Z) (y_data : gmap key Qc) : prog (list line) (list (list dot)) :=
  match x_folders_with_labels with
  | [] => mret []
  | (x_folder, x_label) :: rest =>
      lift (axis n_axes subplot_idx) ;;
      print (ProcessingX x_folder x_label) ;;
      x_data ← lift (collect (listdir x_folder) ∅);
      drawn ← lift (dots x_data y_data);
      others ← subplots rest (S subplot_idx) n_axes y_data;
      mret (drawn :: others)
  end.

(** [plot_scatter], up to the dots it draws; the formatting of the axes
    and the deletion of the unused ones follow. *)
Definition plot_scatter (x_folders_with_labels : list (string * string))
    (y_folder output_label : string) (subplots_per_row : Z)
    : prog (list line) (list (list dot)) :=
  print (ProcessingY y_folder output_label) ;;
  y_data ← lift (collect (listdir y_folder) ∅);
  let num_subplots := Z.of_nat (length x_folders_with_labels) in
  num_rows ← lift (plot_layout.ceil_div num_subplots subplots_per_row);
  lift (plt_subplots num_rows subplots_per_row) ;;
  subplots x_folders_with_labels 0 (plot_layout.n_axes num_rows subplots_per_row) y_data.

End Plot.

(** *** The collection in words *)

Definition score_file (e : dir_entry) : Prop :=
  endswith (fst e) "_mean_scores.csv" = true.

(** The rows a score file stores, keyed, when the loop gets through
    it. *)
Definition stored (e : dir_entry) : result (list (key * Qc)) :=
  match snd e with
  | Raise err => Raise err
  | Return (Table rows) =>
      Return (map (fun row => ((split_head (fst e) "_", fst row), snd row)) rows)
  | Return (Lacking column 0) => Return []
  | Return (Lacking column (S _)) => Raise (KeyError column)
  end.

(** An entry the loop gets through. *)
Definition fine (e : dir_entry) : Prop :=
  score_file e -> exists rows, stored e = Return rows.

(** Everything the score files of a listing store, in order. *)
Definition all_stored (files : list dir_entry) : list (key * Qc) :=
  flat_map (fun e => if endswith (fst e) "_mean_scores.csv" then
                       match stored e with
                       | Return rows => rows
                       | Raise _ => []
                       end
                     else []) files.

(** The scores stored under a key, in order. *)
Definition stored_under (k : key) (files : list dir_entry) : list Qc :=
  omap (fun kv => if decide (fst kv = k) then Some (snd kv) else None) (all_stored files).

End scatter_plot.

(** ** A concrete tree of recordings *)
Module Recordings.

(** Two clean recordings; the T60 folder [1.0] with two complete RIR
    sub-folders and a stray file; the T60 folder [0.5] whose second
    sub-folder misses a recording. *)
Definition listdir (path : string) : list string :=
  if String.eqb path "clean_english" then ["b.wav"; "a.wav"; "notes.txt"]
  else if String.eqb path "clean_english_zero/1.0" then ["rir_2"; "log.txt"; "rir_1"]
  else if String.eqb path "clean_english_zero/1.0/rir_1" then ["a.wav"; "b.wav"]
  else if String.eqb path "clean_english_zero/1.0/rir_2" then ["b.wav"; "a.wav"; "x.txt"]
  else if String.eqb path "clean_english_zero/0.5" then ["rir_1"; "rir_2"; "rir_3"]
  else if String.eqb path "clean_english_zero/0.5/rir_1" then ["a.wav"; "b.wav"]
  else if String.eqb path "clean_english_zero/0.5/rir_2" then ["a.wav"]
  else if String.eqb path "clean_english_zero/0.5/rir_3" then ["a.wav"; "b.wav"]
  else [].

Definition isdir (path : string) : bool :=
  negb (endswith path ".txt") && negb (endswith path ".wav").

(** Every recording holds two samples at 1 Hz, except an unreadable
    one. *)
Definition sf_read (path : string) : result (list Qc * Z) :=
  if String.eqb path "clean_english_zero/1.0/rir_2/b.wav"
  then Raise (OtherError "LibsndfileError" "Error opening file")
  else Return ([1%Qc; 0%Qc], 1%Z).

(** The folders of the script cal_kendall.py: the first holds no file
    with a T60 between 1.0 and 8.0, the second no score file. *)
Definition folder (name : string) : list cal_kendall.dir_entry :=
  if String.eqb name "stipa_scores_mean" then Fixtures.folder_empty
  else Fixtures.folder_A.


End Recordings.

(** ** Concrete folders for the plotting scripts *)
Module Plots.

(** [Series.mean()]: [nan] for an empty column. *)
Definition series_mean (scores : list Qc) : num :=
  match scores with
  | [] => NaN
  | _ :: _ => Real (Qc2R (cal_kendall.mean scores))
  end.

(** [Series.std()]: the sample standard deviation, [nan] below two
    values. *)
Definition series_std (scores : list Qc) : num :=
  match scores with
  | [] | [_] => NaN
  | _ =>
      Real (sqrt (Qc2R (cal_kendall.dot (cal_kendall.centred scores)
                          (cal_kendall.centred scores)
                        / of_nat (length scores - 1))))
  end.

Definition sort_rows (rows : list std_deviation_plot.stat_row)
    : list std_deviation_plot.stat_row :=
  merge_sort std_deviation_plot.by_t60 rows.

(** Two folders of score files, a folder without any, and a folder with
    a score file whose name carries no T60. *)
Definition listdir (folder : string) : list std_deviation_plot.dir_entry :=
  if String.eqb folder "estoi_scores_english_mean" then Fixtures.estoi_english
  else if String.eqb folder "estoi_scores_mandarin_mean" then Fixtures.estoi_mandarin
  else if String.eqb folder "haspi_scores_english_mean" then
    [("0.5_mean_scores.csv", Return (Fixtures.mean_scores [Fixtures.half]));
     ("high_mean_scores.csv", Return (Fixtures.mean_scores [1%Qc]))]
  else [("readme.txt", Raise (OtherError "ParserError" "Error tokenizing data"))].

Definition estoi_folders : list (string * string) :=
  [("estoi_scores_english_mean", "ESTOI English");
   ("estoi_scores_mandarin_mean", "ESTOI Mandarin")].

(** A folder for [plot_scatter]: two files whose names carry the same
    T60 under two spellings, and two rows for one [rir]. *)
Definition scatter_files : list scatter_plot.dir_entry :=
  [("0.5_mean_scores.csv",
    Return (scatter_plot.Table [("rir_1", Fixtures.half); ("rir_1", 1%Qc)]));
   ("0.50_mean_scores.csv", Return (scatter_plot.Table [("rir_1", 0%Qc)]));
   ("notes.txt", Raise (OtherError "ParserError" "Error tokenizing data"));
   ("1.0_mean_scores.csv", Return (scatter_plot.Lacking "rir" 0))].

Definition scatter_listdir (folder : string) : list scatter_plot.dir_entry :=
  if String.eqb folder "stipa_scores_mean" then scatter_files
  else [("0.5_mean_scores.csv",
         Return (scatter_plot.Table [("rir_1", Fixtures.half); ("rir_2", 1%Qc)]))].

(** A grid needs a positive number of rows and of columns. *)
Definition plt_subplots (num_rows subplots_per_row : Z) : result unit :=
  if (0 <? num_rows)%Z && (0 <? subplots_per_row)%Z then Return tt
  else Raise (ValueError "Number of rows must be a positive integer").

End Plots.

(** * Properties *)

(** ** The Score Loader *)
Section LoaderFacts.
Import cal_kendall.

Variable float : string -> result Qc.
Variable to_numeric : string -> option Qc.

Local Abbreviation load_file := (load_file float to_numeric).
Local Abbreviation load_loop := (load_loop float to_numeric).
Local Abbreviation load_scores := (load_scores float to_numeric).
Local Abbreviation retained_rows := (retained_rows float to_numeric).
Local Abbreviation qualifying_rows := (qualifying_rows float).
Local Abbreviation contribution := (contribution float to_numeric).

Lemma clean_rows_flat_map t rows :
  clean_rows to_numeric t rows
  = flat_map (fun r => match to_numeric (c_score r) with
                       | Some s => [ {| t60 := t; rir := c_rir r; score := s |} ]
                       | None => []
                       end) rows.
Proof.
  induction rows as [|r rows IH]; [done|].
  cbn. unfold clean_rows in IH. destruct (to_numeric (c_score r)); cbn; by rewrite IH.
Qed.

Lemma clean_rows_length t rows :
  (length (clean_rows to_numeric t rows) <= length rows)%nat.
Proof.
  induction rows as [|r rows IH]; cbn; [lia|].
  unfold clean_rows in IH. destruct (to_numeric (c_score r)); cbn; lia.
Qed.

Lemma outside_spec lo hi t :
  outside (Some (lo, hi)) t = false <-> (lo <= t /\ t <= hi)%Qc.
Proof.
  cbn. rewrite negb_false_iff, andb_true_iff, !bool_decide_eq_true. tauto.
Qed.

(** The loop appends the contributions of the files, in order, to what
    was collected before. *)
Lemma load_loop_scores t60_range files st :
  concat (scores (load_loop t60_range files st))
  = concat (scores st) ++ flat_map (contribution t60_range) files.
Proof.
  revert st. induction files as [|e files IH]; intros st; cbn.
  - by rewrite app_nil_r.
  - rewrite IH. unfold cal_kendall.contribution at 2.
    destruct (load_file t60_range e); cbn; try done.
    rewrite concat_app. cbn. by rewrite app_nil_r, <- app_assoc.
Qed.

Lemma load_loop_no_frames t60_range files st :
  scores st = [] ->
  (forall e, e ∈ files -> forall df, load_file t60_range e <> Appended df) ->
  scores (load_loop t60_range files st) = [].
Proof.
  revert st. induction files as [|e files IH]; intros st Hst Hno; cbn; [done|].
  apply IH.
  - pose proof (Hno e (list_elem_of_here _ _)) as He.
    destruct (load_file t60_range e); cbn; try done. by destruct (He df).
  - intros e' He'. apply Hno. by apply list_elem_of_further.
Qed.

Lemma contribution_qualifying t60_range e :
  endswith (fst e) "_mean_scores.csv" = true ->
  contribution t60_range e
  = match qualifying_rows t60_range e with
    | Some (t, rows) => clean_rows to_numeric t rows
    | None => []
    end.
Proof.
  intros Hs.
  unfold cal_kendall.contribution, cal_kendall.load_file, cal_kendall.qualifying_rows.
  rewrite Hs. destruct (float _) as [t|err]; [|done].
  destruct t60_range as [[lo hi]|].
  - destruct (outside (Some (lo, hi)) t) eqn:Ho.
    + destruct (snd e); [|done]. case_decide as Hr; [|done].
      apply outside_spec in Hr. congruence.
    + destruct (snd e); [|done]. case_decide as Hr; [done|].
      apply outside_spec in Ho. tauto.
  - cbn. by destruct (snd e).
Qed.

Lemma load_file_qualifying t60_range e df :
  endswith (fst e) "_mean_scores.csv" = true ->
  load_file t60_range e = Appended df -> qualifying_rows t60_range e <> None.
Proof.
  intros Hs. unfold cal_kendall.load_file, cal_kendall.qualifying_rows.
  rewrite Hs. destruct (float _) as [t|err]; [|done].
  destruct (outside t60_range t) eqn:Ho; [done|].
  destruct (snd e); [|done]. intros _.
  destruct t60_range as [[lo hi]|]; [|done].
  apply outside_spec in Ho. by case_decide.
Qed.

Lemma retained_rows_filter folder t60_range :
  retained_rows folder t60_range
  = flat_map (contribution t60_range)
      (filter (fun e => endswith (fst e) "_mean_scores.csv" = true) folder).
Proof.
  unfold cal_kendall.retained_rows.
  induction folder as [|e folder IH]; [done|].
  cbn [flat_map]. rewrite filter_cons. case_decide as Hs.
  - cbn [flat_map]. rewrite IH, (contribution_qualifying _ _ Hs).
    f_equal. destruct (qualifying_rows t60_range e) as [[t rows]|]; [|done].
    symmetry. apply clean_rows_flat_map.
  - rewrite IH. unfold cal_kendall.qualifying_rows.
    by destruct (endswith (fst e) "_mean_scores.csv").
Qed.

Lemma load_scores_rows folder t60_range :
  frame_rows (load_scores folder t60_range) = retained_rows folder t60_range.
Proof.
  rewrite retained_rows_filter.
  unfold cal_kendall.load_scores, load_scores_run. cbn [fst].
  set (files := filter _ folder).
  pose proof (load_loop_scores t60_range files {| scores := []; printed := [] |}) as H.
  cbn in H. destruct (scores _) eqn:E; cbn; by rewrite <- H.
Qed.

Lemma contribution_length t60_range e :
  (length (contribution t60_range e) <= input_rows e)%nat.
Proof.
  unfold cal_kendall.contribution, cal_kendall.load_file, input_rows.
  destruct (float _); cbn; [|lia].
  destruct (outside _ _); cbn; [lia|].
  destruct (snd e); cbn; [apply clean_rows_length|lia].
Qed.

Lemma load_scores_count folder t60_range :
  (length (frame_rows (load_scores folder t60_range)) <= total_input_rows folder)%nat.
Proof.
  rewrite load_scores_rows, retained_rows_filter. unfold total_input_rows.
  induction folder as [|e folder IH]; [cbn; lia|].
  rewrite filter_cons. pose proof (contribution_length t60_range e).
  case_decide; cbn [flat_map map sum_list sum_list_with]; unfold Datatypes.id.
  - rewrite length_app. by apply Nat.add_le_mono.
  - etrans; [exact IH|]. apply Nat.le_add_l.
Qed.

Lemma load_scores_none_qualify folder t60_range :
  (forall e, e ∈ folder -> qualifying_rows t60_range e = None) ->
  load_scores folder t60_range = NoColumns.
Proof.
  intros Hno. unfold cal_kendall.load_scores, load_scores_run. cbn [fst].
  rewrite load_loop_no_frames; [done|done|].
  intros e He df Hdf. apply list_elem_of_filter in He as [Hs He].
  by apply (load_file_qualifying _ _ _ Hs Hdf), Hno.
Qed.

(** Every retained row carries a T60 inside the range. *)
Lemma retained_rows_in_range folder lo hi r :
  r ∈ retained_rows folder (Some (lo, hi)) -> (lo <= t60 r /\ t60 r <= hi)%Qc.
Proof.
  unfold cal_kendall.retained_rows. intros Hr.
  apply list_elem_of_In, in_flat_map in Hr as (e & _ & Hr).
  unfold cal_kendall.qualifying_rows in Hr.
  destruct (endswith (fst e) "_mean_scores.csv"); [|done].
  destruct (float _) as [t|]; [|done]. destruct (snd e) as [rows|]; [|done].
  case_decide as Hrange; [|done].
  apply in_flat_map in Hr as (c & _ & Hr).
  destruct (to_numeric (c_score c)); [|done].
  destruct Hr as [<-|[]]. exact Hrange.
Qed.

(** C3. For every folder and every t60_range, [load_scores] returns
    exactly the rows of the qualifying files (name with the suffix, T60
    parsed and inside [lo, hi] inclusive when a range is given, file
    readable) whose score survives numeric coercion, in file order, so
    every returned row has its T60 inside the range; it returns no more
    rows than the input holds; and when no file qualifies it returns the
    empty frame [pd.DataFrame()], not an error. *)
Theorem load_scores_exact folder t60_range :
  frame_rows (load_scores folder t60_range) = retained_rows folder t60_range
  /\ (forall lo hi r,
        t60_range = Some (lo, hi) ->
        r ∈ frame_rows (load_scores folder t60_range) ->
        (lo <= t60 r /\ t60 r <= hi)%Qc)
  /\ (length (frame_rows (load_scores folder t60_range)) <= total_input_rows folder)%nat
  /\ ((forall e, e ∈ folder -> qualifying_rows t60_range e = None) ->
      load_scores folder t60_range = NoColumns).
Proof.
  split; [apply load_scores_rows|]. split.
  { intros lo hi r -> Hr. rewrite load_scores_rows in Hr.
    by apply (retained_rows_in_range folder). }
  split; [apply load_scores_count|apply load_scores_none_qualify].
Qed.

End LoaderFacts.

(** Run on [folder_A]: the two scored rows of the file inside the range
    are returned, and nothing is when the range excludes the file. *)
Lemma load_scores_exact_witness :
  cal_kendall.frame_rows
    (cal_kendall.load_scores Fixtures.float Fixtures.parse_decimal Fixtures.folder_A
       (Some (0%Qc, 1%Qc)))
  = cal_kendall.retained_rows Fixtures.float Fixtures.parse_decimal Fixtures.folder_A
      (Some (0%Qc, 1%Qc))
  /\ cal_kendall.load_scores Fixtures.float Fixtures.parse_decimal Fixtures.folder_A
       (Some (1%Qc, 2%Qc)) = cal_kendall.NoColumns.
Proof.
  split.
  - apply (load_scores_exact Fixtures.float Fixtures.parse_decimal Fixtures.folder_A
             (Some (0%Qc, 1%Qc))).
  - apply (load_scores_exact Fixtures.float Fixtures.parse_decimal Fixtures.folder_A
             (Some (1%Qc, 2%Qc))).
    intros e He. unfold Fixtures.folder_A in He.
    repeat (apply elem_of_cons in He as [->|He]; [vm_compute; reflexivity|]).
    by apply elem_of_nil in He.
Defined.

(** ** The statistics of the Pairwise Metric Comparator *)
Section StatisticsFacts.
Import cal_kendall.

Lemma sum_nil : sum [] = 0%Qc.
Proof. reflexivity. Qed.

Lemma sum_cons a x : sum (a :: x) = (a + sum x)%Qc.
Proof. reflexivity. Qed.

Lemma sum_app x y : sum (x ++ y) = (sum x + sum y)%Qc.
Proof.
  induction x as [|a x IH]; cbn [app]; rewrite ?sum_nil, ?sum_cons, ?IH; ring.
Qed.

Lemma sum_Permutation x y : x ≡ₚ y -> sum x = sum y.
Proof.
  induction 1 as [|a x y _ IH|a b x|x y z _ IH1 _ IH2]; rewrite ?sum_cons.
  - done.
  - by rewrite IH.
  - ring.
  - congruence.
Qed.

Lemma zip_with_map_pairs {A B} (f : Qc -> Qc -> B) (g h : A -> Qc) (l : list A) :
  zip_with f (map g l) (map h l) = map (fun a => f (g a) (h a)) l.
Proof. induction l as [|a l IH]; cbn; [done|]. by rewrite IH. Qed.

Lemma mean_Permutation x y : x ≡ₚ y -> mean x = mean y.
Proof.
  intros H. unfold mean. by rewrite (sum_Permutation _ _ H), (Permutation_length H).
Qed.

Lemma constant_spec x :
  constant x = true <-> forall a b, a ∈ x -> b ∈ x -> a = b.
Proof.
  destruct x as [|x0 x]; cbn - [forallb].
  - split; [|done]. intros _ a b Ha. by apply elem_of_nil in Ha.
  - rewrite forallb_forall. split.
    + intros H a b Ha Hb.
      apply list_elem_of_In, H, bool_decide_eq_true in Ha.
      apply list_elem_of_In, H, bool_decide_eq_true in Hb. congruence.
    + intros H a Ha. apply bool_decide_eq_true, H.
      * by apply list_elem_of_In.
      * apply list_elem_of_here.
Qed.

Lemma constant_Permutation x y : x ≡ₚ y -> constant x = constant y.
Proof.
  intros H. apply eq_true_iff_eq. rewrite !constant_spec.
  split; intros Hc a b Ha Hb; apply Hc.
  all: first [by rewrite H | by rewrite <- H].
Qed.

Lemma classes_Permutation x y : x ≡ₚ y -> classes x = classes y.
Proof.
  intros H. unfold classes. apply Permutation_length.
  apply NoDup_Permutation; [apply NoDup_remove_dups..|].
  intros a. by rewrite !elem_of_remove_dups, H.
Qed.


(** *** Concordance counted over pairs of joined rows *)

Lemma sgn_antisym a b : sgn a b = (- sgn b a)%Z.
Proof.
  unfold sgn, Qccompare. rewrite <- (Qcompare_antisym b a).
  by destruct (b ?= a)%Q.
Qed.

Lemma pair_sign_sym p q : pair_sign p q = pair_sign q p.
Proof.
  unfold pair_sign.
  rewrite (sgn_antisym (score_1 p)), (sgn_antisym (score_2 p)). lia.
Qed.

Lemma pair_sign_swap p q : pair_sign (swap_scores p) (swap_scores q) = pair_sign p q.
Proof. unfold pair_sign. cbn. lia. Qed.

Lemma con_minus_dis_pairs l :
  con_minus_dis (map score_1 l) (map score_2 l) = pair_sum l.
Proof.
  induction l as [|p l IH]; [done|].
  cbn [map con_minus_dis pair_sum]. rewrite IH. f_equal.
  unfold row_sum. f_equal. clear IH.
  induction l as [|q l IH]; [done|]. cbn. by rewrite IH.
Qed.

Lemma row_sum_cons p q l : row_sum p (q :: l) = (pair_sign p q + row_sum p l)%Z.
Proof. reflexivity. Qed.

Lemma row_sum_Permutation p l l' : l ≡ₚ l' -> row_sum p l = row_sum p l'.
Proof.
  induction 1 as [|a x y _ IH|a b x|x y z _ IH1 _ IH2]; rewrite ?row_sum_cons; lia.
Qed.

Lemma pair_sum_Permutation l l' : l ≡ₚ l' -> pair_sum l = pair_sum l'.
Proof.
  induction 1 as [|a x y H IH|a b x|x y z _ IH1 _ IH2]; cbn [pair_sum].
  - done.
  - by rewrite IH, (row_sum_Permutation _ _ _ H).
  - rewrite !row_sum_cons, (pair_sign_sym a b). lia.
  - congruence.
Qed.

Lemma row_sum_swap p l :
  row_sum (swap_scores p) (map swap_scores l) = row_sum p l.
Proof.
  induction l as [|q l IH]; [done|].
  cbn [map]. by rewrite !row_sum_cons, IH, pair_sign_swap.
Qed.

Lemma pair_sum_swap l : pair_sum (map swap_scores l) = pair_sum l.
Proof.
  induction l as [|p l IH]; [done|]. cbn [map pair_sum]. by rewrite IH, row_sum_swap.
Qed.

Lemma score_1_swap l : map score_1 (map swap_scores l) = map score_2 l.
Proof. by rewrite map_map. Qed.

Lemma score_2_swap l : map score_2 (map swap_scores l) = map score_1 l.
Proof. by rewrite map_map. Qed.

(** *** The join read from the other side *)

Lemma same_key_sym a b : same_key a b <-> same_key b a.
Proof. unfold same_key. intuition congruence. Qed.

Lemma flat_map_app_Permutation {A B} (f g : A -> list B) l :
  flat_map (fun a => f a ++ g a) l ≡ₚ flat_map f l ++ flat_map g l.
Proof.
  induction l as [|a l IH]; [done|]. cbn. rewrite IH.
  rewrite <- !app_assoc. apply Permutation_app_head.
  rewrite !app_assoc. apply Permutation_app_tail, Permutation_app_comm.
Qed.

Lemma matches_cons b a rows :
  matches b (a :: rows)
  = (if decide (same_key b a)
     then [ {| m_t60 := t60 b; m_rir := rir b; score_1 := score b; score_2 := score a |} ]
     else []) ++ matches b rows.
Proof. unfold matches. rewrite filter_cons. by case_decide. Qed.

Lemma matches_column a rows2 :
  flat_map (fun b => if decide (same_key b a)
                     then [ {| m_t60 := t60 b; m_rir := rir b;
                               score_1 := score b; score_2 := score a |} ]
                     else []) rows2
  = map swap_scores (matches a rows2).
Proof.
  induction rows2 as [|b rows2 IH]; [done|].
  cbn [flat_map]. rewrite IH, matches_cons.
  destruct (decide (same_key b a)) as [Hk|Hk].
  - rewrite decide_True by by apply same_key_sym.
    cbn. destruct Hk as [-> ->]. done.
  - rewrite decide_False; [done|]. by rewrite same_key_sym.
Qed.

Lemma inner_join_nil_r rows : inner_join rows [] = [].
Proof. induction rows as [|a rows IH]; [done|]. cbn. exact IH. Qed.

Lemma inner_join_swap rows1 rows2 :
  inner_join rows2 rows1 ≡ₚ map swap_scores (inner_join rows1 rows2).
Proof.
  induction rows1 as [|a rows1 IH].
  - by rewrite inner_join_nil_r.
  - unfold inner_join at 1.
    rewrite (flat_map_ext _ _ (fun b => matches_cons b a rows1)) by done.
    rewrite flat_map_app_Permutation, matches_column.
    cbn [inner_join flat_map]. rewrite map_app. apply Permutation_app_head, IH.
Qed.


(** *** The statistics do not depend on the order of the pairs nor on
    which side comes first *)

Lemma cross_sum g h l :
  cross g h l
  = sum (map (fun p => ((g p - mean (map g l)) * (h p - mean (map h l)))%Qc) l).
Proof.
  unfold cross, dot, centred. rewrite !map_map.
  by rewrite (zip_with_map_pairs Qcmult).
Qed.

Lemma cross_Permutation g h l l' : l ≡ₚ l' -> cross g h l = cross g h l'.
Proof.
  intros H. rewrite !cross_sum.
  rewrite (mean_Permutation (map g l) (map g l')) by by apply Permutation_map.
  rewrite (mean_Permutation (map h l) (map h l')) by by apply Permutation_map.
  by apply sum_Permutation, Permutation_map.
Qed.

Lemma cross_comm g h l : cross g h l = cross h g l.
Proof.
  rewrite !cross_sum. f_equal. apply map_ext. intros p. ring.
Qed.

Lemma pearson_value_cross (g h : merged_row -> Qc) l :
  pearson_value (map g l) (map h l)
  = if constant (map g l) || constant (map h l) then NaN
    else Real (clip (Qc2R (cross g h l) / sqrt (Qc2R (cross g g l * cross h h l)))).
Proof. reflexivity. Qed.

Lemma pearson_value_Permutation (g h : merged_row -> Qc) l l' :
  l ≡ₚ l' -> pearson_value (map g l) (map h l) = pearson_value (map g l') (map h l').
Proof.
  intros H. rewrite !pearson_value_cross.
  rewrite (constant_Permutation (map g l) (map g l')) by by apply Permutation_map.
  rewrite (constant_Permutation (map h l) (map h l')) by by apply Permutation_map.
  by rewrite !(cross_Permutation _ _ l l').
Qed.

Lemma pearson_value_comm (g h : merged_row -> Qc) l :
  pearson_value (map g l) (map h l) = pearson_value (map h l) (map g l).
Proof.
  rewrite !pearson_value_cross, orb_comm, (cross_comm g h).
  by rewrite (Qcmult_comm (cross g g l)).
Qed.

Lemma rmse_of_pairs l :
  rmse_of (map score_1 l) (map score_2 l) = sqrt (Qc2R (mean (map square_error l))).
Proof. unfold rmse_of. by rewrite zip_with_map_pairs. Qed.

Lemma rmse_of_Permutation l l' :
  l ≡ₚ l' ->
  rmse_of (map score_1 l) (map score_2 l) = rmse_of (map score_1 l') (map score_2 l').
Proof.
  intros H. rewrite !rmse_of_pairs.
  by rewrite (mean_Permutation _ (map square_error l')) by by apply Permutation_map.
Qed.

Lemma rmse_of_swap l :
  rmse_of (map score_1 (map swap_scores l)) (map score_2 (map swap_scores l))
  = rmse_of (map score_1 l) (map score_2 l).
Proof.
  rewrite !rmse_of_pairs, map_map. do 3 f_equal.
  apply map_ext. intros p. unfold square_error. cbn. ring.
Qed.

Lemma tau_c_Permutation l l' :
  l ≡ₚ l' ->
  tau_c (map score_1 l) (map score_2 l) = tau_c (map score_1 l') (map score_2 l').
Proof.
  intros H. unfold tau_c.
  rewrite (classes_Permutation (map score_1 l) (map score_1 l')) by by apply Permutation_map.
  rewrite (classes_Permutation (map score_2 l) (map score_2 l')) by by apply Permutation_map.
  by rewrite !con_minus_dis_pairs, !length_map, (pair_sum_Permutation _ _ H),
    (Permutation_length H).
Qed.

Lemma tau_c_swap l :
  tau_c (map score_1 (map swap_scores l)) (map score_2 (map swap_scores l))
  = tau_c (map score_1 l) (map score_2 l).
Proof.
  unfold tau_c. rewrite !con_minus_dis_pairs, pair_sum_swap.
  rewrite score_1_swap, score_2_swap, !length_map.
  by rewrite orb_comm, Nat.min_comm.
Qed.

Section Summary.

Variable kendall_p : list Qc -> list Qc -> num.

Lemma kendall_coefficient l :
  fst (kendalltau kendall_p (map score_1 l) (map score_2 l))
  = match tau_c (map score_1 l) (map score_2 l) with
    | Some tau => Real (Qc2R tau)
    | None => NaN
    end.
Proof. unfold kendalltau. by destruct (tau_c _ _). Qed.

Lemma summary_swap l l' :
  l' ≡ₚ map swap_scores l ->
  rmse (summary_of kendall_p l') = rmse (summary_of kendall_p l)
  /\ pearson (summary_of kendall_p l') = pearson (summary_of kendall_p l)
  /\ kendall (summary_of kendall_p l') = kendall (summary_of kendall_p l).
Proof.
  intros H. unfold summary_of. cbn [rmse pearson kendall]. split; [|split].
  - by rewrite (rmse_of_Permutation _ _ H), rmse_of_swap.
  - rewrite (pearson_value_Permutation score_1 score_2 _ _ H), score_1_swap, score_2_swap.
    apply pearson_value_comm.
  - by rewrite !kendall_coefficient, (tau_c_Permutation _ _ H), tau_c_swap.
Qed.

End Summary.

(** *** A table joined with itself *)

Lemma filter_same_key_absent a rows :
  key a ∉ map key rows -> filter (same_key a) rows = [].
Proof.
  induction rows as [|b rows IH]; [done|]. cbn [map]. intros H.
  rewrite filter_cons, decide_False.
  - apply IH. intros Hin. apply H. by apply list_elem_of_further.
  - intros [Ht Hr]. apply H. unfold key. rewrite Ht, Hr. apply list_elem_of_here.
Qed.

Lemma filter_same_key_unique a rows :
  NoDup (map key rows) -> a ∈ rows -> filter (same_key a) rows = [a].
Proof.
  induction rows as [|b rows IH]; intros Hnd Ha.
  - by apply elem_of_nil in Ha.
  - cbn [map] in Hnd. apply NoDup_cons in Hnd as [Hb Hnd].
    rewrite filter_cons. apply elem_of_cons in Ha as [->|Ha].
    + rewrite decide_True by done. by rewrite filter_same_key_absent.
    + rewrite decide_False; [by apply IH|].
      intros [Ht Hr]. apply Hb. replace (key b) with (key a)
        by (unfold key; congruence).
      apply list_elem_of_In, in_map. by apply list_elem_of_In.
Qed.

Lemma inner_join_self rows :
  NoDup (map key rows) -> inner_join rows rows = map diagonal rows.
Proof.
  intros Hnd. unfold inner_join.
  assert (forall l, l ⊆ rows -> flat_map (fun a => matches a rows) l = map diagonal l) as H.
  { induction l as [|a l IH]; intros Hl; [done|]. cbn [flat_map map].
    rewrite IH by (intros b Hb; apply Hl; by apply list_elem_of_further).
    unfold matches at 1.
    rewrite filter_same_key_unique; [done|done|apply Hl, list_elem_of_here]. }
  by apply H.
Qed.

Lemma score_1_diagonal rows : map score_1 (map diagonal rows) = map score rows.
Proof. by rewrite map_map. Qed.

Lemma score_2_diagonal rows : map score_2 (map diagonal rows) = map score rows.
Proof. by rewrite map_map. Qed.

(** *** Qc and R *)

Lemma Qc2R_0 : Qc2R 0 = 0%R.
Proof. unfold Qc2R. cbn. apply RMicromega.Q2R_0. Qed.

Lemma Qc2R_1 : Qc2R 1 = 1%R.
Proof. unfold Qc2R. change (this 1%Qc) with 1%Q. apply RMicromega.Q2R_1. Qed.

Lemma Qc2R_Q2Qc q : Qc2R (Q2Qc q) = Q2R q.
Proof. unfold Qc2R. apply Qeq_eqR. cbn. apply Qred_correct. Qed.

Lemma Q2Qc_eq (q : Qc) (r : Q) : Qeq q r -> q = Q2Qc r.
Proof. intros H. apply Qc_is_canon. cbn. by rewrite Qred_correct. Qed.

Lemma Qc2R_mult a b : Qc2R (a * b) = (Qc2R a * Qc2R b)%R.
Proof.
  unfold Qc2R. rewrite <- Q2R_mult. apply Qeq_eqR. cbn. apply Qred_correct.
Qed.

Lemma Qc2R_pos a : (0 < a)%Qc -> (0 < Qc2R a)%R.
Proof. intros H. rewrite <- Qc2R_0. by apply Qlt_Rlt. Qed.

Lemma sum_zero {A} (l : list A) : sum (map (fun _ => 0%Qc) l) = 0%Qc.
Proof. induction l as [|a l IH]; [done|]. cbn [map]. rewrite sum_cons, IH. ring. Qed.

Lemma rmse_of_self x : rmse_of x x = 0%R.
Proof.
  unfold rmse_of.
  assert (zip_with (fun a b => ((a - b) * (a - b))%Qc) x x = map (fun _ => 0%Qc) x) as ->.
  { induction x as [|a x IH]; [done|]. cbn. rewrite IH. f_equal. ring. }
  unfold mean. rewrite sum_zero.
  replace (0 / of_nat (length (map (fun _ : Qc => 0%Qc) x)))%Qc with 0%Qc
    by (unfold Qcdiv; ring).
  rewrite Qc2R_0. apply sqrt_0.
Qed.


Lemma Qc2R_plus a b : Qc2R (a + b) = (Qc2R a + Qc2R b)%R.
Proof.
  unfold Qc2R. rewrite <- Q2R_plus. apply Qeq_eqR. cbn. apply Qred_correct.
Qed.

Lemma Qc2R_inj a b : Qc2R a = Qc2R b -> a = b.
Proof. intros H. by apply Qc_is_canon, eqR_Qeq. Qed.

Lemma Qc2R_le a b : (a <= b)%Qc <-> (Qc2R a <= Qc2R b)%R.
Proof. split; [apply Qle_Rle|apply Rle_Qle]. Qed.

Lemma square_nonneg a : (0 <= a * a)%Qc.
Proof. apply Qc2R_le. rewrite Qc2R_0, Qc2R_mult. nra. Qed.

Lemma nonneg_sum_zero a b : (0 <= a)%Qc -> (0 <= b)%Qc -> (a + b)%Qc = 0%Qc -> a = 0%Qc /\ b = 0%Qc.
Proof.
  rewrite !Qc2R_le, Qc2R_0. intros Ha Hb Hab.
  apply (f_equal Qc2R) in Hab. rewrite Qc2R_plus, Qc2R_0 in Hab.
  split; apply Qc2R_inj; rewrite Qc2R_0; lra.
Qed.

Lemma sum_squares_nonneg l : (0 <= sum (map (fun a : Qc => (a * a)%Qc) l))%Qc.
Proof.
  induction l as [|a l IH]; cbn [map]; rewrite ?sum_cons; [done|].
  apply Qcplus_nonneg_nonneg; [apply square_nonneg|done].
Qed.

Lemma sum_squares_zero l :
  sum (map (fun a : Qc => (a * a)%Qc) l) = 0%Qc -> forall a, a ∈ l -> a = 0%Qc.
Proof.
  induction l as [|b l IH]; intros Hs a Ha; [by apply elem_of_nil in Ha|].
  cbn [map] in Hs. rewrite sum_cons in Hs.
  apply nonneg_sum_zero in Hs as [Hb Hl];
    [|apply square_nonneg|apply sum_squares_nonneg].
  apply elem_of_cons in Ha as [->|Ha]; [|by apply IH].
  by destruct (Qcmult_integral _ _ Hb).
Qed.

Lemma dot_self l : dot l l = sum (map (fun a : Qc => (a * a)%Qc) l)%Qc.
Proof.
  unfold dot. f_equal. induction l as [|a l IH]; [done|]. cbn. by rewrite IH.
Qed.

Lemma spread_positive x : constant x = false -> (0 < dot (centred x) (centred x))%Qc.
Proof.
  intros Hc. rewrite dot_self.
  destruct (decide (sum (map (fun a => (a * a)%Qc) (centred x)) = 0%Qc)) as [Hz|Hz].
  - assert (constant x = true) as Hc'; [|congruence].
    apply constant_spec.
    assert (forall a, a ∈ x -> a = mean x) as Hm.
    { intros a Ha.
      assert ((a - mean x)%Qc = 0%Qc) as Hd.
      { apply (sum_squares_zero _ Hz). unfold centred.
        apply list_elem_of_In, (in_map (fun a0 => (a0 - mean x)%Qc)). by apply list_elem_of_In. }
      rewrite <- (Qcplus_0_l (mean x)), <- Hd. ring. }
    intros a b Ha Hb. by rewrite (Hm a), (Hm b).
  - pose proof (sum_squares_nonneg (centred x)) as Hn.
    apply Qcle_lt_or_eq in Hn as [Hn|Hn]; [done|]. by destruct Hz.
Qed.

Lemma clip_1 : clip 1 = 1%R.
Proof.
  unfold clip, Rmax, Rmin.
  destruct (Rle_dec 1 1); destruct (Rle_dec _ _); lra.
Qed.

Lemma pearson_value_self x : constant x = false -> pearson_value x x = Real 1.
Proof.
  intros Hc. unfold pearson_value. rewrite Hc. cbn [orb].
  pose proof (Qc2R_pos _ (spread_positive x Hc)) as Hpos.
  rewrite Qc2R_mult, sqrt_square by lra.
  replace (_ / _)%R with 1%R by (field; lra).
  by rewrite clip_1.
Qed.


Lemma sgn_square a c : a <> c -> (sgn a c * sgn a c)%Z = 1%Z.
Proof.
  intros H. unfold sgn. destruct (a ?= c)%Qc eqn:E; try done.
  by apply Qceq_alt in E.
Qed.

Lemma row_self a x :
  a ∉ x ->
  foldr Z.add 0%Z (zip_with (fun c d => (sgn a c * sgn a d)%Z) x x) = Z.of_nat (length x).
Proof.
  induction x as [|c x IH]; intros Ha; [done|].
  cbn [zip_with foldr length]. rewrite IH, sgn_square; [lia| |].
  - intros ->. apply Ha, list_elem_of_here.
  - intros Hin. apply Ha. by apply list_elem_of_further.
Qed.

Lemma con_minus_dis_self x :
  NoDup x ->
  (2 * con_minus_dis x x)%Z = (Z.of_nat (length x) * (Z.of_nat (length x) - 1))%Z.
Proof.
  induction 1 as [|a x Ha _ IH]; [done|].
  cbn [con_minus_dis length]. rewrite row_self by done. lia.
Qed.

Lemma classes_NoDup x : NoDup x -> classes x = length x.
Proof.
  intros H. unfold classes. apply Permutation_length, NoDup_Permutation;
    [apply NoDup_remove_dups|done|]. intros a. apply elem_of_remove_dups.
Qed.

Lemma limit_1 : limit 1 = 1%Qc.
Proof. reflexivity. Qed.

Lemma tau_c_self x : NoDup x -> (2 <= length x)%nat -> tau_c x x = Some 1%Qc.
Proof.
  intros Hnd Hn. unfold tau_c. rewrite classes_NoDup by done.
  rewrite bool_decide_eq_false_2 by lia. cbn [orb]. rewrite Nat.min_id.
  f_equal. etrans; [|exact limit_1]. f_equal.
  rewrite <- Z2Qc_inj_2, <- Z2Qc_inj_mul, con_minus_dis_self by done.
  rewrite Z2Qc_inj_mul, Z2Qc_inj_sub, Z2Qc_inj_1. fold (of_nat (length x)).
  assert (of_nat (length x) <> 0%Qc) as H0.
  { unfold of_nat. rewrite <- Z2Qc_inj_0. intros H%Z2Qc_inj. lia. }
  assert ((of_nat (length x) - 1)%Qc <> 0%Qc) as H1.
  { unfold of_nat. rewrite <- Z2Qc_inj_1, <- Z2Qc_inj_sub, <- Z2Qc_inj_0.
    intros H%Z2Qc_inj. lia. }
  field. done.
Qed.

End StatisticsFacts.

(** ** The Pairwise Metric Comparator *)
Section CompareFacts.
Import cal_kendall.

Variable float : string -> result Qc.
Variable to_numeric : string -> option Qc.
Variable is_text : string -> bool.
Variable kendall_p : list Qc -> list Qc -> num.

Local Abbreviation load_scores := (load_scores float to_numeric).
Local Abbreviation calculate_folders_metrics :=
  (calculate_folders_metrics float to_numeric kendall_p).
Local Abbreviation paired_samples := (paired_samples float to_numeric).
Local Abbreviation summary_of := (summary_of kendall_p).

Lemma kendalltau_eta x y :
  kendalltau kendall_p x y
  = (fst (kendalltau kendall_p x y), snd (kendalltau kendall_p x y)).
Proof. by destruct (kendalltau kendall_p x y). Qed.

(** A folder without any retained file makes [pd.merge] fail. *)
Lemma calculate_no_columns folder1 folder2 t60_range :
  ~ (has_columns (load_scores folder1 t60_range)
     /\ has_columns (load_scores folder2 t60_range)) ->
  calculate_folders_metrics folder1 folder2 t60_range = Raise (KeyError "t60").
Proof.
  unfold cal_kendall.calculate_folders_metrics, compare_scores.
  destruct (load_scores folder1 t60_range), (load_scores folder2 t60_range); cbn; tauto.
Qed.

(** With the key columns on both sides the outcome is decided by the
    number of paired samples. *)
Lemma calculate_with_columns folder1 folder2 t60_range :
  has_columns (load_scores folder1 t60_range) ->
  has_columns (load_scores folder2 t60_range) ->
  calculate_folders_metrics folder1 folder2 t60_range
  = match paired_samples folder1 folder2 t60_range with
    | [] => Raise empty_join_error
    | [_] => Raise too_short_error
    | pairs => Return (summary_of pairs)
    end.
Proof.
  unfold cal_kendall.calculate_folders_metrics, compare_scores, cal_kendall.paired_samples.
  destruct (load_scores folder1 t60_range) as [|rows1]; [done|].
  destruct (load_scores folder2 t60_range) as [|rows2]; [done|].
  intros _ _. cbn [pd_merge frame_rows mbind result_bind].
  destruct (inner_join rows1 rows2) as [|p1 [|p2 pairs]]; [done|done|].
  rewrite bool_decide_eq_false_2 by done.
  unfold pearsonr. rewrite !length_map, Nat.eqb_refl. cbn [negb length Nat.ltb Nat.leb].
  cbn [mbind result_bind]. by rewrite kendalltau_eta.
Qed.

Lemma paired_samples_columns folder1 folder2 t60_range :
  paired_samples folder1 folder2 t60_range <> [] ->
  has_columns (load_scores folder1 t60_range)
  /\ has_columns (load_scores folder2 t60_range).
Proof.
  unfold cal_kendall.paired_samples.
  destruct (load_scores folder1 t60_range) as [|rows1]; [done|].
  destruct (load_scores folder2 t60_range) as [|rows2]; [|done].
  cbn [frame_rows]. rewrite inner_join_nil_r. done.
Qed.

Lemma calculate_one_pair folder1 folder2 t60_range :
  length (paired_samples folder1 folder2 t60_range) = 1%nat ->
  calculate_folders_metrics folder1 folder2 t60_range = Raise too_short_error.
Proof.
  intros Hn.
  destruct (paired_samples_columns folder1 folder2 t60_range) as [H1 H2].
  { intros E. by rewrite E in Hn. }
  rewrite calculate_with_columns by done.
  by destruct (paired_samples folder1 folder2 t60_range) as [|p1 [|p2 pairs]].
Qed.

Lemma calculate_returns folder1 folder2 t60_range :
  (2 <= length (paired_samples folder1 folder2 t60_range))%nat ->
  calculate_folders_metrics folder1 folder2 t60_range
  = Return (summary_of (paired_samples folder1 folder2 t60_range)).
Proof.
  intros Hn.
  destruct (paired_samples_columns folder1 folder2 t60_range) as [H1 H2].
  { intros E. rewrite E in Hn. cbn in Hn. lia. }
  rewrite calculate_with_columns by done.
  destruct (paired_samples folder1 folder2 t60_range) as [|p1 [|p2 pairs]];
    cbn in Hn; [lia|lia|done].
Qed.

Lemma calculate_returned folder1 folder2 t60_range m :
  calculate_folders_metrics folder1 folder2 t60_range = Return m ->
  (2 <= length (paired_samples folder1 folder2 t60_range))%nat
  /\ m = summary_of (paired_samples folder1 folder2 t60_range).
Proof.
  intros Hm.
  destruct (decide (2 <= length (paired_samples folder1 folder2 t60_range))%nat)
    as [Hn|Hn].
  - rewrite calculate_returns in Hm by done. split; [done|congruence].
  - exfalso.
    destruct (paired_samples folder1 folder2 t60_range) as [|p1 [|p2 pairs]] eqn:E.
    + destruct (load_scores folder1 t60_range) as [|rows1] eqn:E1.
      { rewrite calculate_no_columns in Hm; [done|]. rewrite E1. cbn. tauto. }
      destruct (load_scores folder2 t60_range) as [|rows2] eqn:E2.
      { rewrite calculate_no_columns in Hm; [done|]. rewrite E2. cbn. tauto. }
      rewrite calculate_with_columns, E in Hm; [done|by rewrite E1|by rewrite E2].
    + rewrite calculate_one_pair in Hm; [done|by rewrite E].
    + cbn in Hn. lia.
Qed.

Lemma calculate_empty folder1 folder2 t60_range :
  paired_samples folder1 folder2 t60_range = [] ->
  raises (calculate_folders_metrics folder1 folder2 t60_range).
Proof.
  intros E.
  destruct (calculate_folders_metrics folder1 folder2 t60_range) as [m|err] eqn:Hm.
  - apply calculate_returned in Hm as [Hn _]. rewrite E in Hn. cbn in Hn. lia.
  - by exists err.
Qed.

Lemma empty_join_error_only_when_empty folder1 folder2 t60_range :
  calculate_folders_metrics folder1 folder2 t60_range = Raise empty_join_error ->
  paired_samples folder1 folder2 t60_range = [].
Proof.
  intros Hm.
  destruct (paired_samples folder1 folder2 t60_range) as [|p1 [|p2 pairs]] eqn:E.
  - done.
  - rewrite calculate_one_pair in Hm; [done|by rewrite E].
  - rewrite calculate_returns in Hm; [done|]. rewrite E. cbn. lia.
Qed.

Lemma calculate_empty_with_columns folder1 folder2 t60_range :
  has_columns (load_scores folder1 t60_range) ->
  has_columns (load_scores folder2 t60_range) ->
  paired_samples folder1 folder2 t60_range = [] ->
  calculate_folders_metrics folder1 folder2 t60_range = Raise empty_join_error.
Proof. intros H1 H2 E. by rewrite calculate_with_columns, E. Qed.

(** The tables [pd.merge] receives from folders with text identifiers
    hold text identifiers only. *)
Lemma text_identifiers_loaded folder t60_range :
  text_identifiers is_text folder = true ->
  Forall (fun a => is_text (rir a) = true) (frame_rows (load_scores folder t60_range)).
Proof.
  intros Htext. rewrite (load_scores_rows float to_numeric).
  unfold cal_kendall.retained_rows, cal_kendall.text_identifiers in *.
  induction folder as [|e folder IH]; [constructor|].
  cbn [forallb] in Htext. apply andb_prop in Htext as [He Hrest].
  cbn [flat_map]. apply Forall_app. split; [|by apply IH].
  unfold cal_kendall.qualifying_rows.
  destruct (endswith (fst e) "_mean_scores.csv"); [|constructor].
  cbn [negb orb] in He.
  destruct (float _) as [t|]; [|constructor].
  destruct (snd e) as [rows|]; [|constructor].
  assert (Forall (fun a => is_text (rir a) = true)
            (flat_map (fun r => match to_numeric (c_score r) with
                                | Some s => [ {| t60 := t; rir := c_rir r; score := s |} ]
                                | None => []
                                end) rows)) as Hrows.
  { clear -He. induction rows as [|r rows IH]; [constructor|].
    cbn [forallb] in He. apply andb_prop in He as [Hr He].
    cbn [flat_map]. apply Forall_app. split; [|by apply IH].
    destruct (to_numeric (c_score r)); constructor; [done|constructor]. }
  destruct t60_range as [[lo hi]|]; [|done].
  by destruct (decide _); [|constructor].
Qed.

Lemma paired_samples_no_frame folder1 folder2 t60_range :
  load_scores folder1 t60_range = NoColumns \/ load_scores folder2 t60_range = NoColumns ->
  paired_samples folder1 folder2 t60_range = [].
Proof.
  unfold cal_kendall.paired_samples. intros [-> | ->]; cbn [frame_rows]; [done|].
  apply inner_join_nil_r.
Qed.

(** C1 (a case the code misses). When one of the two folders yields no
    table, no score file of it being retained, the inner join is empty,
    yet the call does not fail with the empty-join error of lines 80-83:
    [load_scores] has returned [pd.DataFrame()], which has no column
    [t60], and [pd.merge] raises [KeyError('t60')] before the check is
    reached. *)
Theorem empty_join_key_error folder1 folder2 t60_range :
  load_scores folder1 t60_range = NoColumns \/ load_scores folder2 t60_range = NoColumns ->
  paired_samples folder1 folder2 t60_range = []
  /\ calculate_folders_metrics folder1 folder2 t60_range = Raise (KeyError "t60")
  /\ KeyError "t60" <> empty_join_error.
Proof.
  intros H. split; [by apply paired_samples_no_frame|]. split; [|done].
  apply calculate_no_columns. intros [H1 H2]. destruct H as [H|H]; rewrite H in *; done.
Qed.

(** C2, as amended. For two folders with text identifiers, a join of
    exactly one paired sample makes the call fail with the [ValueError]
    that [pearsonr] raises for fewer than two samples, and with fewer
    than two paired samples no summary is ever returned. *)
Theorem calculate_too_few_pairs folder1 folder2 t60_range :
  text_identifiers is_text folder1 = true ->
  text_identifiers is_text folder2 = true ->
  (length (paired_samples folder1 folder2 t60_range) = 1%nat ->
   calculate_folders_metrics folder1 folder2 t60_range = Raise too_short_error)
  /\ ((length (paired_samples folder1 folder2 t60_range) < 2)%nat ->
      forall m, calculate_folders_metrics folder1 folder2 t60_range <> Return m).
Proof.
  intros _ _. split; [apply calculate_one_pair|].
  intros Hn m Hm. apply calculate_returned in Hm as [Hn' _]. lia.
Qed.

(** C5, as amended. For two folders with text identifiers whose
    comparisons both succeed, swapping the folders gives the same paired
    samples read from the other side, in a possibly different order.
    The Kendall tau-c coefficient, computed from counts of pairs, is
    unchanged, and the Pearson coefficient is [nan] on one side exactly
    when it is on the other; the squared errors under the RMSE are the
    same numbers in a possibly different order. *)
Theorem compare_symmetric folder1 folder2 t60_range m12 m21 :
  text_identifiers is_text folder1 = true ->
  text_identifiers is_text folder2 = true ->
  calculate_folders_metrics folder1 folder2 t60_range = Return m12 ->
  calculate_folders_metrics folder2 folder1 t60_range = Return m21 ->
  paired_samples folder2 folder1 t60_range
    ≡ₚ map swap_scores (paired_samples folder1 folder2 t60_range)
  /\ kendall m12 = kendall m21
  /\ (pearson m12 = NaN <-> pearson m21 = NaN)
  /\ map square_error (paired_samples folder2 folder1 t60_range)
       ≡ₚ map square_error (paired_samples folder1 folder2 t60_range).
Proof.
  intros _ _ [_ ->]%calculate_returned [_ ->]%calculate_returned.
  pose proof (inner_join_swap
                (frame_rows (load_scores folder1 t60_range))
                (frame_rows (load_scores folder2 t60_range))) as Hswap.
  fold (paired_samples folder1 folder2 t60_range) in Hswap.
  fold (paired_samples folder2 folder1 t60_range) in Hswap.
  destruct (summary_swap kendall_p
              (paired_samples folder1 folder2 t60_range)
              (paired_samples folder2 folder1 t60_range) Hswap) as (_ & Hp & Hk).
  split; [done|]. split; [done|]. split; [by rewrite Hp|].
  rewrite Hswap, map_map.
  rewrite (map_ext (fun p => square_error (swap_scores p)) square_error); [done|].
  intros p. unfold square_error. cbn. ring.
Qed.

(** C4, as amended. For a folder with text identifiers whose loaded
    table has no duplicate (t60, identifier) key and whose comparison
    with itself succeeds, the two score vectors are identical and the
    RMSE is 0; the Kendall tau-c coefficient is 1 when the scores are
    pairwise distinct. *)
Theorem self_comparison folder t60_range m :
  text_identifiers is_text folder = true ->
  NoDup (map key (frame_rows (load_scores folder t60_range))) ->
  calculate_folders_metrics folder folder t60_range = Return m ->
  let x := map score (frame_rows (load_scores folder t60_range)) in
  map score_1 (paired_samples folder folder t60_range) = x
  /\ map score_2 (paired_samples folder folder t60_range) = x
  /\ rmse m = Real 0
  /\ (NoDup x -> kendall m = Real 1).
Proof.
  intros _ Hkeys [Hn ->]%calculate_returned x.
  unfold cal_kendall.paired_samples in *.
  rewrite (inner_join_self _ Hkeys) in *.
  unfold cal_kendall.summary_of. cbn [rmse pearson kendall].
  rewrite score_1_diagonal, score_2_diagonal. fold x.
  split; [done|]. split; [done|].
  split; [by rewrite rmse_of_self|].
  intros Hx. unfold kendalltau.
  assert (2 <= length x)%nat as Hlen by (unfold x; by rewrite !length_map in *).
  rewrite (tau_c_self x Hx Hlen). cbn [fst]. by rewrite Qc2R_1.
Qed.

End CompareFacts.

(** *** The comparator run on concrete folders *)

(** The two folders of section 8 with the range of the script, 1.0 to
    8.0: the only score file of [folder_A] with a T60 is at 0.5, outside
    the range, so no file of it is retained. *)
Lemma empty_join_key_error_witness :
  cal_kendall.paired_samples Fixtures.float Fixtures.parse_decimal
    Fixtures.folder_A Fixtures.folder_B (Some (1%Qc, Qc_of_Z 8)) = []
  /\ cal_kendall.calculate_folders_metrics Fixtures.float Fixtures.parse_decimal
       Fixtures.no_p_value Fixtures.folder_A Fixtures.folder_B (Some (1%Qc, Qc_of_Z 8))
     = Raise (KeyError "t60")
  /\ KeyError "t60" <> cal_kendall.empty_join_error.
Proof.
  apply (empty_join_key_error Fixtures.float Fixtures.parse_decimal Fixtures.no_p_value
           Fixtures.folder_A Fixtures.folder_B (Some (1%Qc, Qc_of_Z 8))).
  left. vm_compute. reflexivity.
Defined.

(** The concrete scenario of section 8 of the specification: x = [0.8,
    0.6] and y = [0.9, 0.5] give Pearson 1.0 and RMSE 0.1, as exact
    values. *)
Example section8_scenario :
  let pairs := cal_kendall.paired_samples Fixtures.float Fixtures.parse_decimal
                 Fixtures.folder_A Fixtures.folder_B None in
  cal_kendall.calculate_folders_metrics Fixtures.float Fixtures.parse_decimal
    Fixtures.no_p_value Fixtures.folder_A Fixtures.folder_B None
  = Return (cal_kendall.summary_of Fixtures.no_p_value pairs)
  /\ map cal_kendall.score_1 pairs = [Q2Qc (8 # 10); Q2Qc (6 # 10)]
  /\ map cal_kendall.score_2 pairs = [Q2Qc (9 # 10); Q2Qc (5 # 10)]
  /\ cal_kendall.pearson (cal_kendall.summary_of Fixtures.no_p_value pairs) = Real 1
  /\ cal_kendall.rmse (cal_kendall.summary_of Fixtures.no_p_value pairs)
     = Real (1 / 10).
Proof.
  intros pairs.
  split; [apply calculate_returns; vm_compute; lia|].
  split; [vm_compute; repeat f_equal; by apply Qc_is_canon|].
  split; [vm_compute; repeat f_equal; by apply Qc_is_canon|].
  unfold cal_kendall.summary_of. cbn [cal_kendall.pearson cal_kendall.rmse]. split.
  - rewrite pearson_value_cross.
    assert (cal_kendall.constant (map cal_kendall.score_1 pairs)
            || cal_kendall.constant (map cal_kendall.score_2 pairs) = false) as ->
      by (by vm_compute).
    rewrite (Q2Qc_eq (cal_kendall.cross cal_kendall.score_1 cal_kendall.score_2 pairs)
               (1 # 25)) by (by vm_compute).
    rewrite (Q2Qc_eq (cal_kendall.cross cal_kendall.score_1 cal_kendall.score_1 pairs
                      * cal_kendall.cross cal_kendall.score_2 cal_kendall.score_2 pairs)%Qc
               (1 # 625)) by (by vm_compute).
    rewrite !Qc2R_Q2Qc. unfold Q2R. cbn [Qnum Qden].
    replace (1 * / 625)%R with ((1 / 25) * (1 / 25))%R by lra.
    rewrite sqrt_square by lra.
    replace (1 * / 25 / (1 / 25))%R with 1%R by lra.
    by rewrite clip_1.
  - rewrite rmse_of_pairs.
    rewrite (Q2Qc_eq (cal_kendall.mean (map cal_kendall.square_error pairs)) (1 # 100))
      by (by vm_compute).
    rewrite Qc2R_Q2Qc. unfold Q2R. cbn [Qnum Qden].
    replace (1 * / 100)%R with ((1 / 10) * (1 / 10))%R by lra.
    by rewrite sqrt_square by lra.
Qed.

(** [folder_A] and [folder_one] share exactly the key (0.5, mic1). *)
Lemma calculate_too_few_pairs_witness :
  cal_kendall.calculate_folders_metrics Fixtures.float Fixtures.parse_decimal
    Fixtures.no_p_value Fixtures.folder_A Fixtures.folder_one None
  = Raise cal_kendall.too_short_error.
Proof.
  apply (calculate_too_few_pairs Fixtures.float Fixtures.parse_decimal Fixtures.is_text
           Fixtures.no_p_value Fixtures.folder_A Fixtures.folder_one None).
  - vm_compute. reflexivity.
  - vm_compute. reflexivity.
  - vm_compute. reflexivity.
Defined.

(** C2 fails as stated. [folder_A] and [folder_other] share no key, so
    there are fewer than two paired samples, and the error raised is the
    empty-join error, not the one for insufficient data; against a folder
    without score files it is the [KeyError] of [pd.merge]. *)
Lemma calculate_no_pair_error :
  ((length (cal_kendall.paired_samples Fixtures.float Fixtures.parse_decimal
              Fixtures.folder_A Fixtures.folder_other None) < 2)%nat
   /\ cal_kendall.calculate_folders_metrics Fixtures.float Fixtures.parse_decimal
        Fixtures.no_p_value Fixtures.folder_A Fixtures.folder_other None
      = Raise cal_kendall.empty_join_error
   /\ cal_kendall.empty_join_error <> cal_kendall.too_short_error)
  /\ ((length (cal_kendall.paired_samples Fixtures.float Fixtures.parse_decimal
                 Fixtures.folder_empty Fixtures.folder_A None) < 2)%nat
      /\ cal_kendall.calculate_folders_metrics Fixtures.float Fixtures.parse_decimal
           Fixtures.no_p_value Fixtures.folder_empty Fixtures.folder_A None
         = Raise (KeyError "t60")).
Proof.
  split; [split; [|split]|split].
  - vm_compute. lia.
  - apply calculate_empty_with_columns; by vm_compute.
  - done.
  - vm_compute. lia.
  - apply calculate_no_columns. vm_compute. tauto.
Qed.

(** [folder_A] against [folder_B] and back. *)
Lemma compare_symmetric_witness :
  let pairs12 := cal_kendall.paired_samples Fixtures.float Fixtures.parse_decimal
                   Fixtures.folder_A Fixtures.folder_B None in
  let pairs21 := cal_kendall.paired_samples Fixtures.float Fixtures.parse_decimal
                   Fixtures.folder_B Fixtures.folder_A None in
  pairs21 ≡ₚ map cal_kendall.swap_scores pairs12
  /\ cal_kendall.kendall (cal_kendall.summary_of Fixtures.no_p_value pairs12)
     = cal_kendall.kendall (cal_kendall.summary_of Fixtures.no_p_value pairs21)
  /\ (cal_kendall.pearson (cal_kendall.summary_of Fixtures.no_p_value pairs12) = NaN
      <-> cal_kendall.pearson (cal_kendall.summary_of Fixtures.no_p_value pairs21) = NaN)
  /\ map cal_kendall.square_error pairs21 ≡ₚ map cal_kendall.square_error pairs12.
Proof.
  apply (compare_symmetric Fixtures.float Fixtures.parse_decimal Fixtures.is_text
           Fixtures.no_p_value Fixtures.folder_A Fixtures.folder_B None).
  - vm_compute. reflexivity.
  - vm_compute. reflexivity.
  - apply calculate_returns. vm_compute. lia.
  - apply calculate_returns. vm_compute. lia.
Defined.

(** C5 fails as stated. [folder_fwd] and [folder_rev] hold the same
    three keys in opposite orders, so the merged table of one comparison
    lists the pairs in the reverse order of the other.  Both comparisons
    succeed, and line 96, which adds the three squared errors from first
    to last on doubles, gives 0.36968455021364727 one way round and
    0.3696845502136473 the other. *)
Lemma compare_rmse_depends_on_order :
  let pairs12 := cal_kendall.paired_samples Fixtures.float Fixtures.parse_decimal
                   Fixtures.folder_fwd Fixtures.folder_rev None in
  let pairs21 := cal_kendall.paired_samples Fixtures.float Fixtures.parse_decimal
                   Fixtures.folder_rev Fixtures.folder_fwd None in
  cal_kendall.calculate_folders_metrics Fixtures.float Fixtures.parse_decimal
    Fixtures.no_p_value Fixtures.folder_fwd Fixtures.folder_rev None
  = Return (cal_kendall.summary_of Fixtures.no_p_value pairs12)
  /\ cal_kendall.calculate_folders_metrics Fixtures.float Fixtures.parse_decimal
       Fixtures.no_p_value Fixtures.folder_rev Fixtures.folder_fwd None
     = Return (cal_kendall.summary_of Fixtures.no_p_value pairs21)
  /\ map cal_kendall.m_rir pairs12 = ["mic1"; "mic2"; "mic3"]
  /\ map cal_kendall.m_rir pairs21 = ["mic3"; "mic2"; "mic1"]
  /\ binary64.rmse_of_pairs pairs12 = 0x1.7a8e9634042edp-2%float
  /\ binary64.rmse_of_pairs pairs21 = 0x1.7a8e9634042eep-2%float
  /\ PrimFloat.eqb (binary64.rmse_of_pairs pairs12) (binary64.rmse_of_pairs pairs21)
     = false.
Proof.
  intros pairs12 pairs21.
  split; [apply calculate_returns; vm_compute; lia|].
  split; [apply calculate_returns; vm_compute; lia|].
  split; [vm_compute; reflexivity|]. split; [vm_compute; reflexivity|].
  split; [vm_compute; reflexivity|]. split; [vm_compute; reflexivity|].
  vm_compute. reflexivity.
Qed.

(** [folder_A] against itself. *)
Lemma self_comparison_witness :
  cal_kendall.rmse
    (cal_kendall.summary_of Fixtures.no_p_value
       (cal_kendall.paired_samples Fixtures.float Fixtures.parse_decimal
          Fixtures.folder_A Fixtures.folder_A None)) = Real 0.
Proof.
  apply (self_comparison Fixtures.float Fixtures.parse_decimal Fixtures.is_text
           Fixtures.no_p_value Fixtures.folder_A None).
  - vm_compute. reflexivity.
  - apply (bool_decide_unpack _). vm_compute. exact I.
  - apply calculate_returns. vm_compute. lia.
Defined.

(** C4 fails as stated: [folder_ties] has unique keys and scores 1, 1, 2;
    compared with itself the comparison succeeds and the Kendall tau-c
    coefficient is 8/9, not 1. *)
Lemma self_comparison_ties :
  exists m,
    cal_kendall.calculate_folders_metrics Fixtures.float Fixtures.parse_decimal
      Fixtures.no_p_value Fixtures.folder_ties Fixtures.folder_ties None = Return m
    /\ cal_kendall.kendall m = Real (Qc2R (Q2Qc (8 # 9)))
    /\ cal_kendall.kendall m <> Real 1.
Proof.
  eexists. split; [apply calculate_returns; vm_compute; lia|].
  assert (cal_kendall.tau_c
            (map cal_kendall.score_1
               (cal_kendall.paired_samples Fixtures.float Fixtures.parse_decimal
                  Fixtures.folder_ties Fixtures.folder_ties None))
            (map cal_kendall.score_2
               (cal_kendall.paired_samples Fixtures.float Fixtures.parse_decimal
                  Fixtures.folder_ties Fixtures.folder_ties None))
          = Some (Q2Qc (8 # 9))) as Htau.
  { vm_compute. f_equal; by apply Qc_is_canon. }
  unfold cal_kendall.summary_of. cbn [cal_kendall.kendall].
  rewrite kendall_coefficient, Htau. split; [done|].
  intros [= H]. rewrite Qc2R_Q2Qc in H. unfold Q2R in H. cbn in H. lra.
Qed.

(** ** The Variance Comparator *)
Section VarianceFacts.
Import variance_test.

Variable float : string -> result Qc.
Variable levene : list Qc -> list Qc -> result (num * num).

Local Abbreviation get_t60_data_loop := (get_t60_data_loop float).
Local Abbreviation get_t60_data := (get_t60_data float).
Local Abbreviation folder_t60s := (folder_t60s float).
Local Abbreviation file_t60 := (file_t60 float).
Local Abbreviation levene_loop := (levene_loop levene).
Local Abbreviation row_at := (row_at levene).
Local Abbreviation line_at := (line_at levene).

Lemma folder_t60s_cons e folder :
  folder_t60s (e :: folder)
  = match file_t60 e with
    | Some t => {[t]} ∪ folder_t60s folder
    | None => folder_t60s folder
    end.
Proof.
  unfold variance_test.folder_t60s. cbn [omap list_omap]. destruct (file_t60 e); reflexivity.
Qed.

Lemma get_t60_data_loop_run folder d w :
  exists d' out,
    get_t60_data_loop folder d w
    = (Return d', {| console := console w ++ out; written := written w |})
    /\ dom d' = dom d ∪ folder_t60s folder.
Proof.
  revert d w. induction folder as [|e folder IH]; intros d w.
  - exists d, []. destruct w. cbn. rewrite app_nil_r. split; [done|].
    unfold variance_test.folder_t60s. cbn [omap list_omap list_to_set]. by rewrite (right_id_L ∅ (∪)).
  - cbn [variance_test.get_t60_data_loop]. rewrite folder_t60s_cons.
    unfold variance_test.file_t60.
    destruct (endswith (fst e) "_mean_scores.csv").
    + destruct (read_scores float e) as [[t s]|err].
      * destruct (IH (<[t := s]> d) w) as (d' & out & Hrun & Hdom).
        exists d', out. split; [done|]. rewrite Hdom, dom_insert_L.
        by rewrite (assoc_L (∪)), (comm_L (∪) {[t]}).
      * destruct (IH d {| console := console w ++ [ErrorProcessing (fst e) err];
                         written := written w |}) as (d' & out & Hrun & Hdom).
        exists d', (ErrorProcessing (fst e) err :: out). split; [|done].
        cbn [console written] in Hrun. unfold mbind, prog_bind, print, modify.
        rewrite Hrun. by rewrite <- app_assoc.
    + apply IH.
Qed.

Lemma get_t60_data_run folder w :
  exists d out,
    get_t60_data folder w
    = (Return d, {| console := console w ++ out; written := written w |})
    /\ dom d = folder_t60s folder.
Proof.
  destruct (get_t60_data_loop_run folder ∅ w) as (d & out & Hrun & Hdom).
  exists d, out. split; [done|]. by rewrite Hdom, dom_empty_L, (left_id_L ∅ (∪)).
Qed.

Lemma getitem_lookup_total (d : gmap Qc (list Qc)) name t :
  t ∈ dom d -> getitem name d t = Return (d !!! t).
Proof.
  intros [v Hv]%elem_of_dom. unfold getitem. rewrite Hv.
  by rewrite (lookup_total_correct _ _ _ Hv).
Qed.

Lemma levene_loop_run d1 d2 ts results w :
  (forall t, t ∈ ts -> t ∈ dom d1 /\ t ∈ dom d2) ->
  levene_loop d1 d2 ts results w
  = (Return (results ++ omap (row_at d1 d2) ts),
     {| console := console w ++ map (line_at d1 d2) ts; written := written w |}).
Proof.
  revert results w. induction ts as [|t ts IH]; intros results w Hts.
  - destruct w. cbn. by rewrite !app_nil_r.
  - cbn [variance_test.levene_loop].
    destruct (Hts t) as [H1 H2]; [apply list_elem_of_here|].
    unfold mbind at 1, prog_bind, lift. rewrite (getitem_lookup_total d1) by done.
    unfold mbind at 1, prog_bind. rewrite (getitem_lookup_total d2) by done.
    cbn [omap list_omap map]. unfold variance_test.row_at at 1, variance_test.line_at at 1.
    destruct (levene (d1 !!! t) (d2 !!! t)) as [[stat p]|err].
    + unfold mbind, prog_bind, print, modify. rewrite IH.
      * cbn. by rewrite <- !app_assoc.
      * intros t' Ht'. apply Hts. by apply list_elem_of_further.
    + unfold mbind, prog_bind, print, modify. rewrite IH.
      * cbn. by rewrite <- !app_assoc.
      * intros t' Ht'. apply Hts. by apply list_elem_of_further.
Qed.


Local Abbreviation levene_test_between_folders :=
  (levene_test_between_folders float levene).

Lemma common_elem d1 d2 t : t ∈ common d1 d2 <-> t ∈ dom d1 /\ t ∈ dom d2.
Proof.
  unfold common. rewrite merge_sort_Permutation, elem_of_elements. apply elem_of_intersection.
Qed.

Lemma common_NoDup d1 d2 : NoDup (common d1 d2).
Proof. unfold common. rewrite merge_sort_Permutation. apply NoDup_elements. Qed.

Lemma row_at_T60 d1 d2 t row : row_at d1 d2 t = Some row -> T60 row = t.
Proof.
  unfold variance_test.row_at. destruct (levene _ _) as [[stat p]|err]; [|done].
  by intros [= <-].
Qed.

Lemma rows_sublist d1 d2 ts : map T60 (omap (row_at d1 d2) ts) `sublist_of` ts.
Proof.
  induction ts as [|t ts IH]; [done|]. cbn [omap list_omap].
  destruct (row_at d1 d2 t) as [row|] eqn:E.
  - cbn [map]. rewrite (row_at_T60 _ _ _ _ E). by apply sublist_skip.
  - by apply sublist_cons.
Qed.

(** The whole run: what is printed, and what is written unless no row was
    produced. *)
Lemma levene_test_run folder1 folder2 output_file w :
  exists d1 d2 out,
    dom d1 = folder_t60s folder1 /\ dom d2 = folder_t60s folder2 /\
    levene_test_between_folders folder1 folder2 output_file w
    = match omap (row_at d1 d2) (common d1 d2) with
      | [] => (Raise (KeyError "T60"),
               {| console := console w ++ out; written := written w |})
      | results =>
          (Return tt,
           {| console := console w ++ out ++ [ResultsSaved output_file];
              written := written w ++ [(output_file, merge_sort by_T60 results)] |})
      end.
Proof.
  destruct (get_t60_data_run folder1 w) as (d1 & out1 & Hrun1 & Hdom1).
  destruct (get_t60_data_run folder2
              {| console := console w ++ out1; written := written w |})
    as (d2 & out2 & Hrun2 & Hdom2).
  cbn [console written] in Hrun2.
  exists d1, d2, (out1 ++ out2 ++ [Banner] ++ map (line_at d1 d2) (common d1 d2)).
  split; [done|]. split; [done|].
  unfold variance_test.levene_test_between_folders.
  unfold mbind at 1, prog_bind. rewrite Hrun1.
  unfold mbind at 1, prog_bind. rewrite Hrun2.
  unfold mbind at 1, prog_bind, print at 1, modify. cbn [console written].
  unfold mbind at 1, prog_bind. rewrite levene_loop_run by (intros t; apply common_elem).
  cbn [app console written].
  destruct (omap (row_at d1 d2) (common d1 d2)) as [|row results].
  - unfold mbind, prog_bind, lift. cbn [sort_values]. by rewrite <- !app_assoc.
  - unfold mbind, prog_bind, lift, print, to_csv, modify. cbn [sort_values console written].
    by rewrite <- !app_assoc.
Qed.

#[local] Instance by_T60_total : Total by_T60.
Proof. intros a b. unfold by_T60. apply total, _. Qed.

(** C6. Whenever the comparator completes, the table it writes has rows
    only for T60 values present in both folders, at most one row per
    T60, and is sorted ascending by T60. *)
Theorem levene_test_table folder1 folder2 output_file w w' :
  levene_test_between_folders folder1 folder2 output_file w = (Return tt, w') ->
  exists table,
    written w' = written w ++ [(output_file, table)]
    /\ (forall row, row ∈ table ->
          T60 row ∈ folder_t60s folder1 ∩ folder_t60s folder2)
    /\ NoDup (map T60 table)
    /\ Sorted by_T60 table.
Proof.
  destruct (levene_test_run folder1 folder2 output_file w)
    as (d1 & d2 & out & Hdom1 & Hdom2 & ->).
  pose proof (rows_sublist d1 d2 (common d1 d2)) as Hsub.
  destruct (omap (row_at d1 d2) (common d1 d2)) as [|row results] eqn:E; [done|].
  intros [= <-]. eexists. split; [done|].
  split; [|split].
  - intros r Hr. rewrite merge_sort_Permutation in Hr.
    assert (T60 r ∈ common d1 d2) as Hc.
    { apply (sublist_subseteq _ _ Hsub).
      apply list_elem_of_In, in_map. by apply list_elem_of_In. }
    apply common_elem in Hc. rewrite <- Hdom1, <- Hdom2. by apply elem_of_intersection.
  - rewrite (Permutation_map T60 (merge_sort_Permutation by_T60 (row :: results))).
    apply (sublist_NoDup _ (common d1 d2)); [apply common_NoDup|exact Hsub].
  - apply (Sorted_merge_sort by_T60).
Qed.


(** Without any row the run stops at [sort_values]: nothing is written. *)
Lemma levene_test_no_rows folder1 folder2 output_file w :
  folder_t60s folder1 ∩ folder_t60s folder2 = ∅ ->
  exists w',
    levene_test_between_folders folder1 folder2 output_file w
    = (Raise (KeyError "T60"), w')
    /\ written w' = written w.
Proof.
  intros Hno.
  destruct (levene_test_run folder1 folder2 output_file w)
    as (d1 & d2 & out & Hdom1 & Hdom2 & ->).
  assert (common d1 d2 = []) as ->.
  { unfold common. by rewrite Hdom1, Hdom2, Hno, elements_empty. }
  cbn. eauto.
Qed.

End VarianceFacts.

Lemma levene_test_table_witness :
  exists table,
    variance_test.written
      (snd (variance_test.levene_test_between_folders Fixtures.float Fixtures.levene
              Fixtures.estoi_english Fixtures.estoi_mandarin "levene_results_estoi.csv"
              Fixtures.empty_world))
    = [("levene_results_estoi.csv", table)]
    /\ map variance_test.T60 table = [Fixtures.half].
Proof.
  destruct (levene_test_table Fixtures.float Fixtures.levene
              Fixtures.estoi_english Fixtures.estoi_mandarin "levene_results_estoi.csv"
              Fixtures.empty_world
              (snd (variance_test.levene_test_between_folders Fixtures.float
                      Fixtures.levene Fixtures.estoi_english Fixtures.estoi_mandarin
                      "levene_results_estoi.csv" Fixtures.empty_world)))
    as (table & Htable & _).
  - vm_compute. reflexivity.
  - exists table. split; [exact Htable|].
    vm_compute in Htable. injection Htable as <-. vm_compute.
    f_equal; by apply Qc_is_canon.
Defined.

(** C7 fails on the code. With no T60 common to the two folders, and
    likewise when Levene's test fails at the only common T60, the run is
    aborted by the [KeyError] of [sort_values] and no table is written. *)
Theorem levene_test_aborts_without_rows :
  (fst (variance_test.levene_test_between_folders Fixtures.float Fixtures.levene
          Fixtures.estoi_english Fixtures.estoi_long "levene_results_estoi.csv"
          Fixtures.empty_world) = Raise (KeyError "T60")
   /\ variance_test.written
        (snd (variance_test.levene_test_between_folders Fixtures.float Fixtures.levene
                Fixtures.estoi_english Fixtures.estoi_long "levene_results_estoi.csv"
                Fixtures.empty_world)) = [])
  /\ (fst (variance_test.levene_test_between_folders Fixtures.float Fixtures.levene
             Fixtures.estoi_english Fixtures.estoi_single "levene_results_estoi.csv"
             Fixtures.empty_world) = Raise (KeyError "T60")
      /\ variance_test.written
           (snd (variance_test.levene_test_between_folders Fixtures.float Fixtures.levene
                   Fixtures.estoi_english Fixtures.estoi_single "levene_results_estoi.csv"
                   Fixtures.empty_world)) = []).
Proof. repeat split; vm_compute; reflexivity. Qed.

(** ** The Batch Scorers *)
Section ScorerFacts.
Import scorer_io.

Lemma rows_at_open_append {A} (w : world A) path p :
  rows_at (snd (open_append path w)) p = rows_at w p.
Proof.
  unfold rows_at, open_append, modify. cbn.
  destruct (decide (path = p)) as [->|Hne].
  - by rewrite lookup_insert_eq.
  - by rewrite lookup_insert_ne.
Qed.

Lemma rows_at_writerow {A} (w : world A) path row :
  rows_at (snd (writerow path row w)) path = rows_at w path ++ [row].
Proof. unfold rows_at, writerow, modify. cbn. by rewrite lookup_insert_eq. Qed.

Ltac step :=
  unfold mbind, prog_bind, mret, prog_ret, lift, raise, try_except, invoke,
    writerow, print, modify; cbn [fst snd csv scored console].

Ltac error_row w :=
  eexists; split; [split; [done|apply (rows_at_writerow w)]|right; eauto].

Ltac last_row :=
  eexists; split;
  [split; [done|unfold rows_at; cbn; by rewrite lookup_insert_eq]|].

Ltac outcome_row w :=
  split; [done|];
  first [apply (rows_at_writerow w)
        |unfold rows_at; cbn; by rewrite lookup_insert_eq].

Lemma align_length clean degraded : length (align clean degraded) = length degraded.
Proof.
  unfold align, np_pad.
  destruct (Nat.ltb_spec (length clean) (length degraded)).
  - rewrite length_app, length_replicate. lia.
  - destruct (Nat.ltb_spec (length degraded) (length clean)).
    + rewrite length_take. lia.
    + lia.
Qed.

Lemma np_tile_length {A} (x : list A) reps : length (np_tile x reps) = reps * length x.
Proof.
  unfold np_tile. induction reps as [|reps IH]; [done|].
  cbn [replicate concat]. rewrite length_app, IH. lia.
Qed.

Lemma normalize_nonempty x :
  x <> [] -> exists xn, get_siib.normalize x = Return xn /\ length xn = length x.
Proof.
  destruct x as [|a x]; [done|]. intros _. unfold get_siib.normalize.
  cbn [get_siib.np_max_abs mbind result_bind]. eexists. split; [reflexivity|].
  by rewrite length_map.
Qed.

(** At a positive sample rate the policy compares the number of samples
    with five seconds' worth of them. *)
Lemma repeat_policy_samples n fs :
  (0 < fs)%Z ->
  get_siib.repeat_policy (get_siib.duration n fs)
  = if decide (Z.of_nat n <= 5 * fs)%Z then 10%nat else 5%nat.
Proof.
  intros Hfs. unfold get_siib.repeat_policy, get_siib.duration, of_nat.
  assert (0 < Qc_of_Z fs)%Qc as Hpos.
  { rewrite <- Z2Qc_inj_0. by apply (proj1 (Z2Qc_inj_lt 0 fs)). }
  assert ((Qc_of_Z (Z.of_nat n) / Qc_of_Z fs <= Qc_of_Z 5)%Qc
          <-> (Z.of_nat n <= 5 * fs)%Z) as Hiff.
  { rewrite Z2Qc_inj_le, Z2Qc_inj_mul.
    rewrite (Qcmult_le_mono_pos_r _ _ (Qc_of_Z fs) Hpos).
    unfold Qcdiv. rewrite <- Qcmult_assoc, Qcmult_inv_l, Qcmult_1_r; [done|].
    intros E. rewrite E in Hpos. by apply Qclt_not_eq in Hpos. }
  destruct (decide (Z.of_nat n <= 5 * fs)%Z) as [H|H].
  - rewrite decide_True; [done|by apply Hiff].
  - rewrite decide_False; [done|]. by rewrite Hiff.
Qed.

(** An error row carries the bare file name. *)
Lemma error_row_name sub df name text :
  named_by_outcome sub df (name, Text text) -> name = df.
Proof. intros [[s [= _ ?]]|[e [= -> _]]]; done. Qed.

Variable listdir : string -> list string.
Variable sf_read : string -> result (list Qc * Z).
Variable stoi : list Qc -> list Qc -> Z -> result num.
Variable SIIB : list get_siib.sample -> list get_siib.sample -> Z -> result num.

Lemma estoi_mismatch rp ca out sub w :
  length (wav_files (listdir ca)) <> length (wav_files (listdir rp)) ->
  aborts_untouched (get_estoi.process_rir_folder listdir sf_read stoi rp ca out sub) w
    (mismatch_error (length (wav_files (listdir ca)))
       (length (wav_files (listdir rp))) rp).
Proof.
  intros H. unfold aborts_untouched, get_estoi.process_rir_folder.
  unfold mbind, prog_bind. cbn [open_append modify].
  rewrite bool_decide_eq_true_2 by done. cbn [raise fst snd scored console].
  repeat split. intros p. apply (rows_at_open_append w out p).
Qed.

Lemma siib_mismatch rp ca out sub w :
  length (wav_files (listdir ca)) <> length (wav_files (listdir rp)) ->
  aborts_untouched (get_siib.process_rir_folder listdir sf_read SIIB rp ca out sub) w
    (mismatch_error (length (wav_files (listdir ca)))
       (length (wav_files (listdir rp))) rp).
Proof.
  intros H. unfold aborts_untouched, get_siib.process_rir_folder.
  unfold mbind, prog_bind. cbn [open_append modify].
  rewrite bool_decide_eq_true_2 by done. cbn [raise fst snd scored console].
  repeat split. intros p. apply (rows_at_open_append w out p).
Qed.

Lemma estoi_pair_row rp ca out sub cf df w :
  exists row,
    appends_row (get_estoi.process_pair sf_read stoi rp ca out sub cf df) out w row
    /\ named_by_outcome sub df row.
Proof.
  unfold appends_row, named_by_outcome, get_estoi.process_pair. step.
  destruct (sf_read (path_join ca cf)) as [[clean fs_c]|e1]; [|error_row w].
  destruct (sf_read (path_join rp df)) as [[degraded fs_d]|e2]; [|error_row w].
  destruct (bool_decide (fs_c <> fs_d)); [error_row w|].
  destruct (stoi _ _ _) as [s|e3]; last_row; [left|right]; eauto.
Qed.

Lemma siib_pair_row rp ca out sub cf df w :
  exists row,
    appends_row (get_siib.process_pair sf_read SIIB rp ca out sub cf df) out w row
    /\ named_by_outcome sub df row.
Proof.
  unfold appends_row, named_by_outcome, get_siib.process_pair. step.
  destruct (sf_read (path_join ca cf)) as [[clean fs_c]|e1]; [|error_row w].
  destruct (sf_read (path_join rp df)) as [[degraded fs_d]|e2]; [|error_row w].
  destruct (bool_decide (fs_c <> fs_d)); [error_row w|].
  destruct (get_siib.normalize (align clean degraded)) as [cn|e3]; [|error_row w].
  destruct (get_siib.normalize degraded) as [dn|e4]; [|error_row w].
  destruct (get_siib.true_div (length cn) fs_c) as [secs|e5]; [|error_row w].
  destruct (SIIB _ _ _) as [s|e6]; last_row; [left|right]; eauto.
Qed.

Lemma appends_row_unique {A} (run : prog (world A) unit) out w row row' :
  appends_row run out w row -> appends_row run out w row' -> row = row'.
Proof.
  intros [_ H] [_ H']. rewrite H in H'. by apply app_inj_tail in H' as [_ ?].
Qed.

(** C8. In both scorers, when the numbers of clean and of degraded
    [.wav] files differ, [process_rir_folder] raises the count-mismatch
    error with nothing scored, no row written and nothing printed. *)
Theorem count_mismatch_aborts rp ca out sub (w1 : world Qc) (w2 : world get_siib.sample) :
  length (wav_files (listdir ca)) <> length (wav_files (listdir rp)) ->
  aborts_untouched (get_estoi.process_rir_folder listdir sf_read stoi rp ca out sub) w1
    (mismatch_error (length (wav_files (listdir ca)))
       (length (wav_files (listdir rp))) rp)
  /\ aborts_untouched (get_siib.process_rir_folder listdir sf_read SIIB rp ca out sub) w2
       (mismatch_error (length (wav_files (listdir ca)))
          (length (wav_files (listdir rp))) rp).
Proof. intros H. split; [by apply estoi_mismatch|by apply siib_mismatch]. Qed.

Lemma normalize_length x xn : get_siib.normalize x = Return xn -> length xn = length x.
Proof.
  unfold get_siib.normalize. destruct (get_siib.np_max_abs x) as [m|e]; [|done].
  cbn [mbind result_bind mret result_ret]. intros [= <-]. by rewrite length_map.
Qed.

Lemma siib_calls_tiled rp ca out sub cf df w :
  scored (snd (get_siib.process_pair sf_read SIIB rp ca out sub cf df w)) = scored w
  \/ exists clean degraded fs c,
       sf_read (path_join ca cf) = Return (clean, fs)
       /\ sf_read (path_join rp df) = Return (degraded, fs)
       /\ get_siib.tiled_call clean degraded fs c
       /\ scored (snd (get_siib.process_pair sf_read SIIB rp ca out sub cf df w))
          = scored w ++ [c].
Proof.
  unfold get_siib.process_pair. step.
  destruct (sf_read (path_join ca cf)) as [[clean fs_c]|e1]; [|by left].
  destruct (sf_read (path_join rp df)) as [[degraded fs_d]|e2]; [|by left].
  destruct (bool_decide (fs_c <> fs_d)) eqn:Hfs; [by left|].
  apply bool_decide_eq_false in Hfs. apply dec_stable in Hfs. subst fs_d.
  destruct (get_siib.normalize (align clean degraded)) as [cn|e3] eqn:Hcn; [|by left].
  destruct (get_siib.normalize degraded) as [dn|e4] eqn:Hdn; [|by left].
  unfold get_siib.true_div. destruct (decide (fs_c = 0%Z)) as [|Hne]; [by left|].
  right. exists clean, degraded, fs_c. eexists.
  split; [done|]. split; [done|]. split.
  - exists cn, dn. split; [done|]. split; [done|]. split; [apply align_length|done].
  - unfold get_siib.repeat_policy, get_siib.duration.
    rewrite (normalize_length _ _ Hcn). by destruct (SIIB _ _ _).
Qed.

(** C9. In the SIIB scorer every file pair is either not scored at all
    (an error row is written instead) or scored on the normalised aligned
    signals tiled 10 times when the duration of the aligned signal (its
    length over the sample rate) is at most 5 seconds and 5 times
    otherwise; a pair read at one non-zero sample rate whose degraded
    signal is not empty is scored. *)
Theorem siib_repeat_policy rp ca out sub cf df w :
  (scored (snd (get_siib.process_pair sf_read SIIB rp ca out sub cf df w)) = scored w
   \/ exists clean degraded fs c,
        sf_read (path_join ca cf) = Return (clean, fs)
        /\ sf_read (path_join rp df) = Return (degraded, fs)
        /\ get_siib.tiled_call clean degraded fs c
        /\ scored (snd (get_siib.process_pair sf_read SIIB rp ca out sub cf df w))
           = scored w ++ [c])
  /\ (forall clean degraded fs,
        sf_read (path_join ca cf) = Return (clean, fs) ->
        sf_read (path_join rp df) = Return (degraded, fs) ->
        degraded <> [] -> fs <> 0%Z ->
        exists c,
          get_siib.tiled_call clean degraded fs c
          /\ scored (snd (get_siib.process_pair sf_read SIIB rp ca out sub cf df w))
             = scored w ++ [c]).
Proof.
  split; [apply siib_calls_tiled|].
  intros clean degraded fs Hc Hd Hne Hfs.
  destruct (normalize_nonempty degraded Hne) as (dn & Hdn & Hldn).
  destruct (normalize_nonempty (align clean degraded)) as (cn & Hcn & Hlcn).
  { intros E. apply (f_equal length) in E.
    rewrite align_length in E. by destruct degraded. }
  eexists. split.
  - exists cn, dn. split; [done|]. split; [done|]. split; [apply align_length|done].
  - unfold get_siib.process_pair. step. rewrite Hc, Hd.
    rewrite bool_decide_eq_false_2 by (intros H; by apply H).
    rewrite Hcn, Hdn. unfold get_siib.true_div. rewrite decide_False by done.
    unfold get_siib.repeat_policy, get_siib.duration. rewrite Hlcn.
    by destruct (SIIB _ _ _).
Qed.

Lemma estoi_pair_outcome rp ca out sub cf df w :
  match get_estoi.pair_outcome sf_read stoi rp ca cf df with
  | Return s =>
      appends_row (get_estoi.process_pair sf_read stoi rp ca out sub cf df) out w
        (sub +:+ "/" +:+ df, Score s)
  | Raise e =>
      appends_row (get_estoi.process_pair sf_read stoi rp ca out sub cf df) out w
        (df, Text ("Error: " +:+ str_exn e))
  end.
Proof.
  unfold appends_row, get_estoi.pair_outcome, get_estoi.process_pair. step.
  destruct (sf_read (path_join ca cf)) as [[clean fs_c]|e1]; [|outcome_row w].
  destruct (sf_read (path_join rp df)) as [[degraded fs_d]|e2]; [|outcome_row w].
  destruct (decide (fs_c = fs_d)) as [Hfs|Hfs].
  - rewrite bool_decide_eq_false_2 by (intros H; by apply H).
    destruct (stoi _ _ _) as [s|e3]; outcome_row w.
  - rewrite bool_decide_eq_true_2 by done. outcome_row w.
Qed.

Lemma siib_pair_outcome rp ca out sub cf df w :
  match get_siib.pair_outcome sf_read SIIB rp ca cf df with
  | Return s =>
      appends_row (get_siib.process_pair sf_read SIIB rp ca out sub cf df) out w
        (sub +:+ "/" +:+ df, Score s)
  | Raise e =>
      appends_row (get_siib.process_pair sf_read SIIB rp ca out sub cf df) out w
        (df, Text ("Error: " +:+ str_exn e))
  end.
Proof.
  unfold appends_row, get_siib.pair_outcome, get_siib.process_pair. step.
  destruct (sf_read (path_join ca cf)) as [[clean fs_c]|e1]; [|outcome_row w].
  destruct (sf_read (path_join rp df)) as [[degraded fs_d]|e2]; [|outcome_row w].
  destruct (decide (fs_c = fs_d)) as [Hfs|Hfs].
  - rewrite bool_decide_eq_false_2 by (intros H; by apply H).
    destruct (get_siib.normalize (align clean degraded)) as [cn|e3]; [|outcome_row w].
    destruct (get_siib.normalize degraded) as [dn|e4]; [|outcome_row w].
    unfold get_siib.true_div, get_siib.repeat_policy, get_siib.duration.
    destruct (decide (fs_c = 0%Z)) as [Hz|Hz]; [outcome_row w|].
    destruct (SIIB _ _ _) as [s|e6]; outcome_row w.
  - rewrite bool_decide_eq_true_2 by done. outcome_row w.
Qed.

Lemma length_append s1 s2 :
  String.length (s1 +:+ s2) = (String.length s1 + String.length s2)%nat.
Proof.
  induction s1 as [|c s1 IH]; [done|].
  change (String c s1 +:+ s2) with (String c (s1 +:+ s2)).
  cbn [String.length]. by rewrite IH.
Qed.

Lemma record_names_differ sub df : sub +:+ "/" +:+ df <> df.
Proof.
  intros E. apply (f_equal String.length) in E.
  rewrite !length_append in E. cbn in E. lia.
Qed.

(** C10. In both scorers every file pair appends exactly one row, and
    which one is decided by the outcome of the pair: a successful pair is
    written with its score under "<rir_subfolder_name>/<degraded_file>",
    a failed pair with the error text under the bare degraded file name.
    The two names differ, and the error rows of one file name in two
    sub-folders carry the same record name. *)
Theorem record_name_by_outcome rp ca out sub cf df :
  (forall w,
     match get_estoi.pair_outcome sf_read stoi rp ca cf df with
     | Return s =>
         appends_row (get_estoi.process_pair sf_read stoi rp ca out sub cf df) out w
           (sub +:+ "/" +:+ df, Score s)
     | Raise e =>
         appends_row (get_estoi.process_pair sf_read stoi rp ca out sub cf df) out w
           (df, Text ("Error: " +:+ str_exn e))
     end)
  /\ (forall w,
        match get_siib.pair_outcome sf_read SIIB rp ca cf df with
        | Return s =>
            appends_row (get_siib.process_pair sf_read SIIB rp ca out sub cf df) out w
              (sub +:+ "/" +:+ df, Score s)
        | Raise e =>
            appends_row (get_siib.process_pair sf_read SIIB rp ca out sub cf df) out w
              (df, Text ("Error: " +:+ str_exn e))
        end)
  /\ sub +:+ "/" +:+ df <> df
  /\ (forall rp' sub' w w' name text name' text',
        appends_row (get_estoi.process_pair sf_read stoi rp ca out sub cf df) out w
          (name, Text text) ->
        appends_row (get_estoi.process_pair sf_read stoi rp' ca out sub' cf df) out w'
          (name', Text text') ->
        name = name')
  /\ (forall rp' sub' w w' name text name' text',
        appends_row (get_siib.process_pair sf_read SIIB rp ca out sub cf df) out w
          (name, Text text) ->
        appends_row (get_siib.process_pair sf_read SIIB rp' ca out sub' cf df) out w'
          (name', Text text') ->
        name = name').
Proof.
  split; [intros w; apply estoi_pair_outcome|].
  split; [intros w; apply siib_pair_outcome|].
  split; [apply record_names_differ|].
  split.
  - intros rp' sub' w w' name text name' text' H H'.
    destruct (estoi_pair_row rp ca out sub cf df w) as (row & Hrow & Hname).
    destruct (estoi_pair_row rp' ca out sub' cf df w') as (row' & Hrow' & Hname').
    rewrite (appends_row_unique _ _ _ _ _ Hrow H) in Hname.
    rewrite (appends_row_unique _ _ _ _ _ Hrow' H') in Hname'.
    by rewrite (error_row_name _ _ _ _ Hname), (error_row_name _ _ _ _ Hname').
  - intros rp' sub' w w' name text name' text' H H'.
    destruct (siib_pair_row rp ca out sub cf df w) as (row & Hrow & Hname).
    destruct (siib_pair_row rp' ca out sub' cf df w') as (row' & Hrow' & Hname').
    rewrite (appends_row_unique _ _ _ _ _ Hrow H) in Hname.
    rewrite (appends_row_unique _ _ _ _ _ Hrow' H') in Hname'.
    by rewrite (error_row_name _ _ _ _ Hname), (error_row_name _ _ _ _ Hname').
Qed.

End ScorerFacts.

(** *** The scorers run on a concrete file system *)

(** Three clean recordings against the two degraded ones of [rir_1]. *)
Lemma count_mismatch_aborts_witness :
  scorer_io.aborts_untouched
    (get_estoi.process_rir_folder Fixtures.listdir Fixtures.sf_read Fixtures.scorer
       "clean_english_zero/0.5/rir_1" "clean_english" "out/0.5_estoi_scores.csv" "rir_1")
    (Fixtures.no_output Qc)
    (scorer_io.mismatch_error 3 2 "clean_english_zero/0.5/rir_1")
  /\ scorer_io.aborts_untouched
       (get_siib.process_rir_folder Fixtures.listdir Fixtures.sf_read Fixtures.scorer
          "clean_english_zero/0.5/rir_1" "clean_english" "out/0.5_estoi_scores.csv" "rir_1")
       (Fixtures.no_output get_siib.sample)
       (scorer_io.mismatch_error 3 2 "clean_english_zero/0.5/rir_1").
Proof.
  apply (count_mismatch_aborts Fixtures.listdir Fixtures.sf_read Fixtures.scorer
           Fixtures.scorer "clean_english_zero/0.5/rir_1" "clean_english"
           "out/0.5_estoi_scores.csv" "rir_1").
  vm_compute. lia.
Defined.

(** Four samples at 2 Hz last 2 seconds: ten copies, forty samples. *)
Lemma siib_repeat_policy_witness :
  map (fun c => (length (scorer_io.clean_arg c), length (scorer_io.degraded_arg c)))
    (scorer_io.scored
       (snd (get_siib.process_pair Fixtures.sf_read Fixtures.scorer
               "rir_pair" "clean_pair" "out.csv" "rir_1" "a.wav" "a.wav"
               (Fixtures.no_output get_siib.sample))))
  = [(40, 40)%nat].
Proof.
  destruct (siib_repeat_policy Fixtures.sf_read Fixtures.scorer
              "rir_pair" "clean_pair" "out.csv" "rir_1" "a.wav" "a.wav"
              (Fixtures.no_output get_siib.sample)) as [_ H].
  destruct (H [1%Qc; Fixtures.half; 1%Qc]
              [Fixtures.half; 1%Qc; Fixtures.half; Fixtures.half] 2%Z)
    as (c & (cn & dn & Hcn & Hdn & _ & ->) & ->); [reflexivity|reflexivity|done|done|].
  apply normalize_length in Hcn. apply normalize_length in Hdn.
  cbn [app map scorer_io.scored Fixtures.no_output scorer_io.clean_arg
         scorer_io.degraded_arg].
  rewrite !np_tile_length, Hcn, Hdn, align_length.
  reflexivity.
Defined.

(** The readable pair of [clean_pair] and [rir_pair] is written with its
    score under the name with the sub-folder; the unreadable recording
    [a.wav], in [rir_1] and in [rir_2] alike, is written with the error
    text under the bare name [a.wav]. *)
Lemma record_name_by_outcome_witness :
  scorer_io.appends_row
    (get_estoi.process_pair Fixtures.sf_read Fixtures.scorer
       "rir_pair" "clean_pair" "out.csv" "rir_1" "a.wav" "a.wav")
    "out.csv" (Fixtures.no_output Qc) ("rir_1/a.wav", scorer_io.Score (Real 1))
  /\ scorer_io.appends_row
       (get_siib.process_pair Fixtures.sf_read Fixtures.scorer
          "rir_pair" "clean_pair" "out.csv" "rir_1" "a.wav" "a.wav")
       "out.csv" (Fixtures.no_output get_siib.sample)
       ("rir_1/a.wav", scorer_io.Score (Real 1))
  /\ scorer_io.appends_row
       (get_estoi.process_pair Fixtures.sf_read Fixtures.scorer
          "zero/0.5/rir_1" "clean_english" "out.csv" "rir_1" "a.wav" "a.wav")
       "out.csv" (Fixtures.no_output Qc)
       ("a.wav", scorer_io.Text "Error: Error opening file")
  /\ scorer_io.appends_row
       (get_siib.process_pair Fixtures.sf_read Fixtures.scorer
          "zero/0.5/rir_2" "clean_english" "out.csv" "rir_2" "a.wav" "a.wav")
       "out.csv" (Fixtures.no_output get_siib.sample)
       ("a.wav", scorer_io.Text "Error: Error opening file").
Proof.
  split; [|split; [|split]].
  - exact (proj1 (record_name_by_outcome Fixtures.sf_read Fixtures.scorer Fixtures.scorer
                    "rir_pair" "clean_pair" "out.csv" "rir_1" "a.wav" "a.wav")
             (Fixtures.no_output Qc)).
  - exact (proj1 (proj2 (record_name_by_outcome Fixtures.sf_read Fixtures.scorer
                           Fixtures.scorer
                           "rir_pair" "clean_pair" "out.csv" "rir_1" "a.wav" "a.wav"))
             (Fixtures.no_output get_siib.sample)).
  - exact (proj1 (record_name_by_outcome Fixtures.sf_read Fixtures.scorer Fixtures.scorer
                    "zero/0.5/rir_1" "clean_english" "out.csv" "rir_1" "a.wav" "a.wav")
             (Fixtures.no_output Qc)).
  - exact (proj1 (proj2 (record_name_by_outcome Fixtures.sf_read Fixtures.scorer
                           Fixtures.scorer
                           "zero/0.5/rir_2" "clean_english" "out.csv" "rir_2" "a.wav"
                           "a.wav"))
             (Fixtures.no_output get_siib.sample)).
Defined.

(** ** More on the Score Loader *)
Section LoaderMore.
Import cal_kendall cal_kendall_notions.

Variable float : string -> result Qc.
Variable to_numeric : string -> option Qc.

Local Abbreviation load_file := (load_file float to_numeric).
Local Abbreviation load_loop := (load_loop float to_numeric).
Local Abbreviation load_scores := (load_scores float to_numeric).
Local Abbreviation load_scores_run := (load_scores_run float to_numeric).
Local Abbreviation qualifying_rows := (qualifying_rows float).
Local Abbreviation appended := (appended float to_numeric).
Local Abbreviation caught := (caught float to_numeric).

Lemma load_loop_state t60_range files st :
  load_loop t60_range files st
  = {| scores := scores st ++ omap (appended t60_range) files;
       printed := printed st ++ omap (caught t60_range) files |}.
Proof.
  revert st. induction files as [|e files IH]; intros st.
  - destruct st. cbn. by rewrite !app_nil_r.
  - cbn [cal_kendall.load_loop omap list_omap]. rewrite IH.
    unfold cal_kendall_notions.appended, cal_kendall_notions.caught.
    destruct (load_file t60_range e); cbn [scores printed]; by rewrite <- ?app_assoc.
Qed.

Lemma load_scores_frames folder t60_range :
  load_scores folder t60_range
  = collected (omap (appended t60_range) (filter score_file folder)).
Proof.
  unfold cal_kendall.load_scores, cal_kendall.load_scores_run. cbn [fst].
  rewrite load_loop_state. cbn [scores app]. fold score_file.
  by destruct (omap _ _).
Qed.

Lemma frames_together_frames (f1 f2 : list (list ScoreRecord)) :
  collected (f1 ++ f2) = frames_together (collected f1) (collected f2).
Proof.
  destruct f1 as [|a f1]; [by destruct f2|].
  destruct f2 as [|b f2].
  - by rewrite app_nil_r.
  - cbn [app collected frames_together]. f_equal.
    change (a :: f1 ++ b :: f2) with ((a :: f1) ++ (b :: f2)). by rewrite concat_app.
Qed.

Lemma load_scores_concat folder1 folder2 t60_range :
  load_scores (folder1 ++ folder2) t60_range
  = frames_together (load_scores folder1 t60_range) (load_scores folder2 t60_range).
Proof.
  rewrite !load_scores_frames, filter_app, omap_app. apply frames_together_frames.
Qed.

Lemma appended_qualifying t60_range e :
  score_file e -> qualifying_rows t60_range e = None -> appended t60_range e = None.
Proof.
  intros Hs Hq. unfold cal_kendall_notions.appended.
  destruct (load_file t60_range e) as [| df |] eqn:E; try done.
  by destruct (load_file_qualifying float to_numeric t60_range e df Hs E).
Qed.

Lemma load_scores_skip e t60_range :
  qualifying_rows t60_range e = None -> load_scores [e] t60_range = NoColumns.
Proof.
  intros Hq. rewrite load_scores_frames, filter_cons.
  case_decide as Hs; [|done].
  rewrite filter_nil. cbn [omap list_omap].
  by rewrite (appended_qualifying _ _ Hs Hq).
Qed.

(** X1. Loading is compositional: the table of a folder listed as
    [folder1 ++ folder2] is the concatenation of the tables of the two
    parts, a part without any retained file adding nothing. *)
Theorem load_scores_app folder1 folder2 t60_range :
  load_scores (folder1 ++ folder2) t60_range
  = frames_together (load_scores folder1 t60_range) (load_scores folder2 t60_range)
  /\ frame_rows (load_scores (folder1 ++ folder2) t60_range)
     = frame_rows (load_scores folder1 t60_range)
       ++ frame_rows (load_scores folder2 t60_range).
Proof.
  split; [apply load_scores_concat|]. rewrite load_scores_concat.
  destruct (load_scores folder1 t60_range), (load_scores folder2 t60_range);
    cbn; by rewrite ?app_nil_r.
Qed.

(** X2. A file that does not qualify (wrong suffix, unparsable T60, T60
    outside the range, or unreadable) is ignored: the table is the one
    loaded from the folder without it. *)
Theorem load_scores_ignores before e after t60_range :
  qualifying_rows t60_range e = None ->
  load_scores (before ++ e :: after) t60_range
  = load_scores (before ++ after) t60_range.
Proof.
  intros Hq. change (e :: after) with ([e] ++ after).
  rewrite !load_scores_concat, (load_scores_skip _ _ Hq).
  by destruct (load_scores before t60_range), (load_scores after t60_range).
Qed.

Lemma load_file_caught t60_range e err :
  load_file t60_range e = Caught err
  <-> float (split_head (fst e) "_mean_scores") = Raise err
      \/ exists t, float (split_head (fst e) "_mean_scores") = Return t
                   /\ outside t60_range t = false /\ snd e = Raise err.
Proof.
  unfold cal_kendall.load_file.
  destruct (float _) as [t|err'] eqn:Ef.
  - destruct (outside t60_range t) eqn:Eo.
    + split; [done|]. intros [|(t' & [= <-] & ? & _)]; congruence.
    + destruct (snd e) as [rows|err'] eqn:Er.
      * split; [done|]. intros [|(t' & _ & _ & ?)]; done.
      * split.
        -- intros [= ->]. right. by exists t.
        -- intros [|(t' & _ & _ & [= ->])]; done.
  - split.
    + intros [= ->]. by left.
    + intros [[= ->]|(t & ? & _)]; done.
Qed.

(** X3. The failures printed are exactly those of the files with the
    suffix whose T60 does not parse, or whose T60 is inside the range and
    that cannot be read: a file outside the range is never read, so it is
    never reported. *)
Theorem load_failures_reported folder t60_range name err :
  (name, err) ∈ snd (load_scores_run folder t60_range)
  <-> exists e,
        e ∈ folder /\ fst e = name /\ score_file e
        /\ (float (split_head name "_mean_scores") = Raise err
            \/ exists t, float (split_head name "_mean_scores") = Return t
                         /\ outside t60_range t = false /\ snd e = Raise err).
Proof.
  unfold cal_kendall.load_scores_run. cbn [snd]. rewrite load_loop_state.
  cbn [printed app]. fold score_file. rewrite list_elem_of_omap. split.
  - intros (e & [Hs He]%list_elem_of_filter & Hc).
    unfold cal_kendall_notions.caught in Hc.
    destruct (load_file t60_range e) as [| |err'] eqn:E; try done.
    injection Hc as <- <-. exists e. repeat split; try done.
    by apply load_file_caught.
  - intros (e & He & <- & Hs & Hc). exists e. split.
    + by apply list_elem_of_filter.
    + unfold cal_kendall_notions.caught.
      by rewrite (proj2 (load_file_caught t60_range e err) Hc).
Qed.

End LoaderMore.

(** ** More on the Pairwise Metric Comparator *)
Section CompareMore.
Import cal_kendall cal_kendall_notions.



Lemma clip_bounds r : (-1 <= clip r <= 1)%R.
Proof.
  unfold clip, Rmax, Rmin.
  destruct (Rle_dec r 1); destruct (Rle_dec _ _); lra.
Qed.

Lemma Qc2R_opp a : Qc2R (- a) = (- Qc2R a)%R.
Proof.
  unfold Qc2R. rewrite <- Q2R_opp. apply Qeq_eqR. cbn. apply Qred_correct.
Qed.

Lemma limit_bounds tau : (-1 <= Qc2R (limit tau) <= 1)%R.
Proof.
  assert (Qc2R (-1) = (-1)%R) as Hm by (by rewrite Qc2R_opp, Qc2R_1).
  unfold limit. destruct (decide (tau <= -1)%Qc) as [Hlo|Hlo].
  - rewrite decide_False
      by (intros H; apply Qc2R_le in H; rewrite Hm, Qc2R_1 in H; lra).
    rewrite Hm. lra.
  - destruct (decide (1 <= tau)%Qc) as [Hhi|Hhi].
    + rewrite Qc2R_1. lra.
    + apply Qcnot_le_lt, Qclt_le_weak, Qc2R_le in Hlo, Hhi.
      rewrite Hm in Hlo. rewrite Qc2R_1 in Hhi. lra.
Qed.

Lemma tau_c_bounds x y tau : tau_c x y = Some tau -> (-1 <= Qc2R tau <= 1)%R.
Proof.
  unfold tau_c. destruct (_ || _); [done|]. intros [= <-]. apply limit_bounds.
Qed.




Lemma mean_squares_zero (l : list merged_row) :
  l <> [] ->
  mean (map square_error l) = 0%Qc <-> forall p, p ∈ l -> score_1 p = score_2 p.
Proof.
  intros Hne. unfold mean. rewrite length_map.
  assert (of_nat (length l) <> 0%Qc) as Hn.
  { unfold of_nat. rewrite <- Z2Qc_inj_0. intros H%Z2Qc_inj. destruct l; [done|].
    cbn in H. lia. }
  assert (map square_error l
          = map (fun a : Qc => (a * a)%Qc) (map (fun p => (score_1 p - score_2 p)%Qc) l))
    as -> by (by rewrite map_map).
  split.
  - intros Hz p Hp.
    assert (sum (map (fun a : Qc => (a * a)%Qc)
                   (map (fun p => (score_1 p - score_2 p)%Qc) l)) = 0%Qc) as Hs.
    { rewrite <- (Qcmult_div_r _ (of_nat (length l)) Hn), Hz. ring. }
    assert ((score_1 p - score_2 p)%Qc = 0%Qc) as Hd.
    { apply (sum_squares_zero _ Hs), list_elem_of_In,
        (in_map (fun p => (score_1 p - score_2 p)%Qc)). by apply list_elem_of_In. }
    rewrite <- (Qcplus_0_l (score_2 p)), <- Hd. ring.
  - intros Heq.
    assert (map (fun p => (score_1 p - score_2 p)%Qc) l = map (fun _ => 0%Qc) l) as ->.
    { apply map_ext_in. intros p Hp. rewrite (Heq p) by (by apply list_elem_of_In). ring. }
    rewrite map_map.
    assert (map (fun _ : merged_row => (0 * 0)%Qc) l = map (fun _ => 0%Qc) l) as ->
      by (apply map_ext; intros; ring).
    rewrite sum_zero. unfold Qcdiv. ring.
Qed.

Lemma mean_squares_nonneg (l : list merged_row) :
  (0 <= Qc2R (mean (map square_error l)))%R.
Proof.
  rewrite <- Qc2R_0. apply Qc2R_le. unfold mean, Qcdiv.
  apply Qcmult_nonneg_nonneg.
  - assert (map square_error l
            = map (fun a : Qc => (a * a)%Qc) (map (fun p => (score_1 p - score_2 p)%Qc) l))
      as -> by (by rewrite map_map).
    apply sum_squares_nonneg.
  - rewrite length_map. unfold of_nat.
    destruct (decide (length l = 0)%nat) as [->|Hn]; [done|].
    apply Qclt_le_weak, Qcinv_pos. rewrite <- Z2Qc_inj_0.
    apply (proj1 (Z2Qc_inj_lt _ _)). lia.
Qed.

Variable float : string -> result Qc.
Variable to_numeric : string -> option Qc.
Variable is_text : string -> bool.
Variable kendall_p : list Qc -> list Qc -> num.

Local Abbreviation load_scores := (load_scores float to_numeric).
Local Abbreviation calculate_folders_metrics :=
  (calculate_folders_metrics float to_numeric kendall_p).
Local Abbreviation paired_samples := (paired_samples float to_numeric).
Local Abbreviation qualifying_rows := (qualifying_rows float).

Lemma calculate_no_frame folder1 folder2 t60_range :
  load_scores folder1 t60_range = NoColumns \/ load_scores folder2 t60_range = NoColumns ->
  calculate_folders_metrics folder1 folder2 t60_range = Raise (KeyError "t60").
Proof.
  intros H. apply calculate_no_columns. intros [H1 H2].
  destruct H as [H|H]; rewrite H in *; done.
Qed.

Lemma inverted_range_outside lo hi t : (hi < lo)%Qc -> outside (Some (lo, hi)) t = true.
Proof.
  intros Hinv. destruct (outside (Some (lo, hi)) t) eqn:E; [done|].
  apply outside_spec in E as [H1 H2].
  destruct (Qclt_not_le _ _ Hinv). by etrans.
Qed.

Lemma inverted_range_qualifying lo hi e :
  (hi < lo)%Qc -> qualifying_rows (Some (lo, hi)) e = None.
Proof.
  intros Hinv. unfold cal_kendall.qualifying_rows.
  destruct (endswith _ _); [|done]. destruct (float _) as [t|]; [|done].
  destruct (snd e); [|done]. case_decide as H; [|done].
  destruct H as [H1 H2]. destruct (Qclt_not_le _ _ Hinv). by etrans.
Qed.

(** X4. When one of the two folders holds no qualifying file, the call
    does not reach its own empty-join check: [pd.merge] raises
    [KeyError('t60')] on the frame without columns. *)
Theorem calculate_without_files folder1 folder2 t60_range :
  (forall e, e ∈ folder1 -> qualifying_rows t60_range e = None)
  \/ (forall e, e ∈ folder2 -> qualifying_rows t60_range e = None) ->
  calculate_folders_metrics folder1 folder2 t60_range = Raise (KeyError "t60").
Proof.
  intros [H|H]; apply calculate_no_frame; [left|right];
    by apply load_scores_none_qualify.
Qed.

(** X5. An inverted range (hi < lo) retains no file, so for any two
    folders the call fails with [KeyError('t60')]. *)
Theorem calculate_inverted_range folder1 folder2 lo hi :
  (hi < lo)%Qc ->
  load_scores folder1 (Some (lo, hi)) = NoColumns
  /\ calculate_folders_metrics folder1 folder2 (Some (lo, hi)) = Raise (KeyError "t60").
Proof.
  intros Hinv.
  assert (load_scores folder1 (Some (lo, hi)) = NoColumns) as H.
  { apply load_scores_none_qualify. intros e _. by apply inverted_range_qualifying. }
  split; [done|]. apply calculate_no_frame. by left.
Qed.


(** X7. A returned summary holds coefficients that are [nan] or lie in
    [-1, 1], and an RMSE that is a non-negative number. *)
Theorem summary_ranges folder1 folder2 t60_range m :
  calculate_folders_metrics folder1 folder2 t60_range = Return m ->
  nan_or_unit (pearson m) /\ nan_or_unit (kendall m)
  /\ exists r, rmse m = Real r /\ (0 <= r)%R.
Proof.
  intros [_ ->]%calculate_returned. unfold summary_of. cbn [pearson kendall rmse].
  split; [|split].
  - unfold pearson_value. destruct (constant _ || constant _); [by left|].
    right. eexists. split; [done|]. apply clip_bounds.
  - unfold kendalltau. destruct (tau_c _ _) as [tau|] eqn:E; [|by left].
    right. eexists. split; [done|]. by apply (tau_c_bounds _ _ _ E).
  - eexists. split; [done|]. apply sqrt_pos.
Qed.


(** X9. For two folders with text identifiers, the RMSE of a returned
    summary is 0 when every paired sample has the same score on both
    sides. *)
Theorem rmse_zero_on_equal_scores folder1 folder2 t60_range m :
  text_identifiers is_text folder1 = true ->
  text_identifiers is_text folder2 = true ->
  calculate_folders_metrics folder1 folder2 t60_range = Return m ->
  (forall p, p ∈ paired_samples folder1 folder2 t60_range -> score_1 p = score_2 p) ->
  rmse m = Real 0.
Proof.
  intros _ _ [Hn ->]%calculate_returned Heq. unfold summary_of. cbn [rmse].
  rewrite rmse_of_pairs.
  assert (paired_samples folder1 folder2 t60_range <> []) as Hne.
  { intros E. rewrite E in Hn. cbn in Hn. lia. }
  apply (mean_squares_zero _ Hne) in Heq. by rewrite Heq, Qc2R_0, sqrt_0.
Qed.

End CompareMore.

(** ** More on the Variance Comparator *)
Section VarianceMore.
Import variance_test variance_test_notions.

Variable float : string -> result Qc.
Variable levene : list Qc -> list Qc -> result (num * num).

Local Abbreviation get_t60_data_loop := (get_t60_data_loop float).
Local Abbreviation get_t60_data := (get_t60_data float).
Local Abbreviation file_scores := (file_scores float).
Local Abbreviation t60_data_of := (t60_data_of float).
Local Abbreviation stored_under := (stored_under float).
Local Abbreviation scores_at := (scores_at float).
Local Abbreviation read_errors := (read_errors float).
Local Abbreviation store := (store float).
Local Abbreviation tested := (tested float levene).
Local Abbreviation row_at := (row_at levene).
Local Abbreviation line_at := (line_at levene).
Local Abbreviation levene_loop := (levene_loop levene).
Local Abbreviation levene_test_between_folders :=
  (levene_test_between_folders float levene).

Lemma get_t60_data_loop_dict folder d w :
  get_t60_data_loop folder d w
  = (Return (foldl store d folder),
     {| console := console w ++ read_errors folder; written := written w |}).
Proof.
  revert d w. induction folder as [|e folder IH]; intros d w.
  - destruct w. cbn. by rewrite app_nil_r.
  - cbn [variance_test.get_t60_data_loop foldl].
    unfold variance_test_notions.read_errors. cbn [omap list_omap].
    fold (read_errors folder).
    unfold variance_test_notions.store at 2, variance_test_notions.file_scores,
      variance_test_notions.file_error.
    destruct (endswith (fst e) "_mean_scores.csv"); [|apply IH].
    destruct (read_scores float e) as [[t s]|err]; [apply IH|].
    unfold mbind, prog_bind, print, modify. rewrite IH. cbn [console written].
    by rewrite <- app_assoc.
Qed.

Lemma get_t60_data_dict folder w :
  get_t60_data folder w
  = (Return (t60_data_of folder),
     {| console := console w ++ read_errors folder; written := written w |}).
Proof. apply get_t60_data_loop_dict. Qed.

Lemma foldl_store_lookup folder d t :
  foldl store d folder !! t
  = match scores_at t folder with
    | Some scores => Some scores
    | None => d !! t
    end.
Proof.
  revert d. induction folder as [|e folder IH]; intros d; [done|].
  cbn [foldl]. rewrite IH.
  unfold variance_test_notions.scores_at, variance_test_notions.stored_under.
  cbn [omap list_omap]. fold (stored_under t folder).
  unfold variance_test_notions.store, variance_test_notions.scores_under.
  destruct (file_scores e) as [[t' s]|]; [|done].
  destruct (decide (t' = t)) as [->|Hne].
  - rewrite last_cons, lookup_insert_eq. by destruct (last _).
  - by rewrite lookup_insert_ne.
Qed.

Lemma t60_data_lookup folder t : t60_data_of folder !! t = scores_at t folder.
Proof.
  unfold variance_test_notions.t60_data_of.
  rewrite foldl_store_lookup, lookup_empty. by destruct (scores_at _ _).
Qed.

(** X10. [get_t60_data] never raises and writes no file; when several
    kept files carry the same T60 (as 0.5 and 0.50 do), the scores of the
    last one in listing order silently replace the others. *)
Theorem get_t60_data_last_wins folder w :
  exists d w',
    get_t60_data folder w = (Return d, w')
    /\ written w' = written w
    /\ forall t, d !! t = last (stored_under t folder).
Proof.
  eexists _, _. split; [apply get_t60_data_dict|]. split; [done|].
  apply t60_data_lookup.
Qed.

Lemma common_tested folder1 folder2 t :
  t ∈ common (t60_data_of folder1) (t60_data_of folder2)
  <-> exists scores1 scores2,
        scores_at t folder1 = Some scores1 /\ scores_at t folder2 = Some scores2
        /\ t60_data_of folder1 !!! t = scores1
        /\ t60_data_of folder2 !!! t = scores2.
Proof.
  rewrite common_elem, !elem_of_dom, !t60_data_lookup. split.
  - intros [[s1 H1] [s2 H2]]. exists s1, s2.
    rewrite <- t60_data_lookup in H1, H2.
    rewrite (lookup_total_correct _ _ _ H1), (lookup_total_correct _ _ _ H2).
    by rewrite <- !t60_data_lookup.
  - intros (s1 & s2 & H1 & H2 & _). eauto.
Qed.

Lemma row_tested folder1 folder2 row :
  row ∈ omap (row_at (t60_data_of folder1) (t60_data_of folder2))
          (common (t60_data_of folder1) (t60_data_of folder2))
  <-> tested folder1 folder2 (T60 row) (Return (Levene_Stat row, P_Value row)).
Proof.
  rewrite list_elem_of_omap. unfold variance_test_notions.tested. split.
  - intros (t & Ht & Hrow). apply common_tested in Ht as (s1 & s2 & H1 & H2 & E1 & E2).
    unfold variance_test.row_at in Hrow. rewrite E1, E2 in Hrow.
    destruct (levene s1 s2) as [[stat p]|err] eqn:E; [|done].
    injection Hrow as <-. cbn. eauto.
  - intros (s1 & s2 & H1 & H2 & E). exists (T60 row). split.
    + apply common_tested. exists s1, s2. split; [done|]. split; [done|].
      rewrite <- t60_data_lookup in H1, H2.
      by rewrite (lookup_total_correct _ _ _ H1), (lookup_total_correct _ _ _ H2).
    + rewrite <- t60_data_lookup in H1, H2. unfold variance_test.row_at.
      rewrite (lookup_total_correct _ _ _ H1), (lookup_total_correct _ _ _ H2), E.
      by destruct row.
Qed.

Lemma line_tested folder1 folder2 t err :
  ErrorLevene t err
    ∈ map (line_at (t60_data_of folder1) (t60_data_of folder2))
        (common (t60_data_of folder1) (t60_data_of folder2))
  <-> tested folder1 folder2 t (Raise err).
Proof.
  rewrite list_elem_of_In, in_map_iff. unfold variance_test_notions.tested. split.
  - intros (t' & Hline & Ht). apply list_elem_of_In, common_tested in Ht as (s1 & s2 & H1 & H2 & E1 & E2).
    unfold variance_test.line_at in Hline. rewrite E1, E2 in Hline.
    destruct (levene s1 s2) as [[stat p]|err'] eqn:E; [done|].
    injection Hline as -> ->. eauto.
  - intros (s1 & s2 & H1 & H2 & E). exists t. split; [|apply list_elem_of_In].
    + rewrite <- t60_data_lookup in H1, H2. unfold variance_test.line_at.
      by rewrite (lookup_total_correct _ _ _ H1), (lookup_total_correct _ _ _ H2), E.
    + apply common_tested. exists s1, s2. split; [done|]. split; [done|].
      rewrite <- t60_data_lookup in H1, H2.
      by rewrite (lookup_total_correct _ _ _ H1), (lookup_total_correct _ _ _ H2).
Qed.

(** The whole run, with the dictionaries and the printed lines spelled
    out. *)
Lemma levene_test_lines folder1 folder2 output_file w :
  let d1 := t60_data_of folder1 in
  let d2 := t60_data_of folder2 in
  let out := read_errors folder1 ++ read_errors folder2 ++ [Banner]
             ++ map (line_at d1 d2) (common d1 d2) in
  levene_test_between_folders folder1 folder2 output_file w
  = match omap (row_at d1 d2) (common d1 d2) with
    | [] => (Raise (KeyError "T60"),
             {| console := console w ++ out; written := written w |})
    | results =>
        (Return tt,
         {| console := console w ++ out ++ [ResultsSaved output_file];
            written := written w ++ [(output_file, merge_sort by_T60 results)] |})
    end.
Proof.
  intros d1 d2 out. subst out.
  unfold variance_test.levene_test_between_folders.
  unfold mbind at 1, prog_bind. rewrite get_t60_data_dict.
  unfold mbind at 1, prog_bind. rewrite get_t60_data_dict.
  unfold mbind at 1, prog_bind, print at 1, modify. cbn [console written].
  unfold mbind at 1, prog_bind.
  rewrite levene_loop_run by (intros t; apply common_elem).
  cbn [app console written]. fold d1 d2.
  destruct (omap (row_at d1 d2) (common d1 d2)) as [|row results].
  - unfold mbind, prog_bind, lift. cbn [sort_values]. by rewrite <- !app_assoc.
  - unfold mbind, prog_bind, lift, print, to_csv, modify. cbn [sort_values console written].
    by rewrite <- !app_assoc.
Qed.

(** X11. The table of a completed run holds exactly the rows of the T60
    values kept in both folders at which Levene's test returned, each
    with the statistic and p-value computed from the scores the two
    folders ended up with at that T60. *)
Theorem levene_test_rows folder1 folder2 output_file w w' :
  levene_test_between_folders folder1 folder2 output_file w = (Return tt, w') ->
  exists table,
    written w' = written w ++ [(output_file, table)]
    /\ forall row,
         row ∈ table
         <-> exists scores1 scores2,
               last (stored_under (T60 row) folder1) = Some scores1
               /\ last (stored_under (T60 row) folder2) = Some scores2
               /\ levene scores1 scores2 = Return (Levene_Stat row, P_Value row).
Proof.
  rewrite levene_test_lines. cbv zeta.
  pose proof (row_tested folder1 folder2) as Hrows.
  destruct (omap _ _) as [|row results]; [done|].
  intros [= <-]. eexists. split; [done|].
  intros r. rewrite merge_sort_Permutation. apply Hrows.
Qed.

(** X12. The comparator either completes or stops with [KeyError: 'T60']
    having written nothing; it completes exactly when Levene's test
    returns at some T60 kept in both folders. *)
Theorem levene_test_completes_iff folder1 folder2 output_file w :
  let run := levene_test_between_folders folder1 folder2 output_file w in
  (fst run = Return tt
   \/ fst run = Raise (KeyError "T60") /\ written (snd run) = written w)
  /\ (fst run = Return tt
      <-> exists t scores1 scores2 stat p_value,
            last (stored_under t folder1) = Some scores1
            /\ last (stored_under t folder2) = Some scores2
            /\ levene scores1 scores2 = Return (stat, p_value)).
Proof.
  cbv zeta. rewrite levene_test_lines. cbv zeta.
  pose proof (row_tested folder1 folder2) as Hrows.
  destruct (omap _ _) as [|row results]; cbn [fst snd written].
  - split; [by right|]. split; [done|].
    intros (t & s1 & s2 & stat & p & H1 & H2 & E).
    exfalso. apply (not_elem_of_nil {| T60 := t; Levene_Stat := stat; P_Value := p |}).
    apply Hrows. exists s1, s2. by cbn.
  - split; [by left|]. split; [|done]. intros _.
    destruct (proj1 (Hrows row)) as (s1 & s2 & H1 & H2 & E); [apply list_elem_of_here|].
    by exists (T60 row), s1, s2, (Levene_Stat row), (P_Value row).
Qed.

(** X13. Whether the run completes or not, a failure of Levene's test is
    on the console exactly for the T60 values kept in both folders at
    which the test raised, with the exception it raised. *)
Theorem levene_failures_reported folder1 folder2 output_file w t err :
  ErrorLevene t err
    ∈ console (snd (levene_test_between_folders folder1 folder2 output_file w))
  <-> ErrorLevene t err ∈ console w
      \/ exists scores1 scores2,
           last (stored_under t folder1) = Some scores1
           /\ last (stored_under t folder2) = Some scores2
           /\ levene scores1 scores2 = Raise err.
Proof.
  rewrite levene_test_lines. cbv zeta.
  pose proof (line_tested folder1 folder2 t err) as Hline.
  assert (forall folder, ErrorLevene t err ∉ read_errors folder) as Hno.
  { intros folder (e & _ & He)%list_elem_of_omap.
    unfold variance_test_notions.file_error in He.
    destruct (endswith _ _); [|done]. by destruct (read_scores float e). }
  destruct (omap _ _) as [|row results]; cbn [fst snd console];
    rewrite ?elem_of_app, ?list_elem_of_singleton, Hline;
    pose proof (Hno folder1); pose proof (Hno folder2); intuition congruence.
Qed.

End VarianceMore.

(** ** More on the Batch Scorers *)
Section ScorerMore.
Import scorer_io scorer_notions.

Ltac step :=
  unfold mbind, prog_bind, mret, prog_ret, lift, raise, try_except, invoke,
    writerow, print, modify; cbn [fst snd csv scored console].

Lemma appended_at_refl {A} out (w : world A) : appended_at out [] w w.
Proof. intros p. rewrite app_nil_r. by destruct (decide _). Qed.

Lemma appended_at_trans {A} out rows rows' (w w' w'' : world A) :
  appended_at out rows w w' -> appended_at out rows' w' w'' ->
  appended_at out (rows ++ rows') w w''.
Proof.
  intros H H' p. rewrite H', H. destruct (decide _); [|done]. by rewrite app_assoc.
Qed.

Lemma appended_at_open {A} out (w : world A) :
  appended_at out [] w (snd (open_append out w)).
Proof.
  intros p. rewrite rows_at_open_append, app_nil_r. by destruct (decide _).
Qed.

Lemma appended_at_row {A} out row (w : world A) sc co :
  appended_at out [row] w
    {| csv := <[out := default [] (csv w !! out) ++ [row]]> (csv w);
       scored := sc; console := co |}.
Proof.
  intros p. unfold rows_at. cbn [csv]. destruct (decide (p = out)) as [->|Hne].
  - by rewrite lookup_insert_eq.
  - by rewrite lookup_insert_ne.
Qed.

Ltac failed :=
  eexists _, []; split; [done|]; split; [apply appended_at_row|];
  split; [right; eauto|]; split; [by rewrite app_nil_r|]; split; [constructor|cbn; lia].

Ltac called :=
  cbn [fst snd csv scored console]; eexists _, [_]; split; [done|]; split; [apply appended_at_row|].

Variable listdir : string -> list string.
Variable isdir : string -> bool.
Variable sf_read : string -> result (list Qc * Z).
Variable stoi : list Qc -> list Qc -> Z -> result num.
Variable SIIB : list get_siib.sample -> list get_siib.sample -> Z -> result num.
Variable cwd : string.

Lemma estoi_pair_effect rp ca out sub cf df w :
  pair_effect (get_estoi.process_pair sf_read stoi rp ca out sub cf df) out sub df w.
Proof.
  unfold pair_effect, named_by_outcome, get_estoi.process_pair. step.
  destruct (sf_read (path_join ca cf)) as [[clean fs_c]|e1]; [|failed].
  destruct (sf_read (path_join rp df)) as [[degraded fs_d]|e2]; [|failed].
  destruct (bool_decide (fs_c <> fs_d)); [failed|].
  assert (Forall equal_lengths
            [ {| clean_arg := align clean degraded; degraded_arg := degraded;
                 fs_arg := fs_c |} ]) as Hcalls.
  { constructor; [apply align_length|constructor]. }
  destruct (stoi _ _ _) as [s|e3]; called;
    (split; [eauto|]); (split; [done|]); (split; [exact Hcalls|cbn; lia]).
Qed.

Lemma siib_pair_effect rp ca out sub cf df w :
  pair_effect (get_siib.process_pair sf_read SIIB rp ca out sub cf df) out sub df w.
Proof.
  unfold pair_effect, named_by_outcome, get_siib.process_pair. step.
  destruct (sf_read (path_join ca cf)) as [[clean fs_c]|e1]; [|failed].
  destruct (sf_read (path_join rp df)) as [[degraded fs_d]|e2]; [|failed].
  destruct (bool_decide (fs_c <> fs_d)); [failed|].
  destruct (get_siib.normalize (align clean degraded)) as [cn|e3] eqn:Hcn; [|failed].
  destruct (get_siib.normalize degraded) as [dn|e4] eqn:Hdn; [|failed].
  destruct (get_siib.true_div (length cn) fs_c) as [secs|e5]; [|failed].
  apply normalize_length in Hcn, Hdn. rewrite align_length in Hcn.
  set (reps := if decide (secs <= Qc_of_Z 5)%Qc then 10%nat else 5%nat).
  assert (Forall equal_lengths
            [ {| clean_arg := np_tile cn reps; degraded_arg := np_tile dn reps;
                 fs_arg := fs_c |} ]) as Hcalls.
  { constructor; [|constructor]. unfold equal_lengths. cbn.
    by rewrite !np_tile_length, Hcn, Hdn. }
  destruct (SIIB _ _ _) as [s|e6]; called;
    (split; [eauto|]); (split; [done|]); (split; [exact Hcalls|cbn; lia]).
Qed.

Lemma for_each_pairs {A} (body : string * string -> prog (world A) unit) out sub :
  (forall pair w, pair_effect (body pair) out sub (snd pair) w) ->
  forall pairs w,
    exists rows calls,
      fst (for_each pairs body w) = Return tt
      /\ appended_at out rows w (snd (for_each pairs body w))
      /\ Forall2 (named_by_outcome sub) (map snd pairs) rows
      /\ scored (snd (for_each pairs body w)) = scored w ++ calls
      /\ Forall equal_lengths calls
      /\ (length calls <= length pairs)%nat.
Proof.
  intros Hbody pairs. induction pairs as [|pair pairs IH]; intros w.
  - exists [], []. cbn. split; [done|]. split; [apply appended_at_refl|].
    split; [constructor|]. split; [by rewrite app_nil_r|]. split; [constructor|lia].
  - destruct (Hbody pair w) as (row & calls & Hret & Hrows & Hname & Hsc & Heq & Hlen).
    cbn [for_each]. unfold mbind, prog_bind.
    destruct (body pair w) as [r w1]. cbn [fst snd] in *. subst r.
    destruct (IH w1) as (rows & calls' & Hret' & Hrows' & Hnames & Hsc' & Heq' & Hlen').
    exists (row :: rows), (calls ++ calls'). split; [done|].
    split; [apply (appended_at_trans out [row] rows w w1); done|].
    split; [by constructor|]. split; [by rewrite Hsc', Hsc, app_assoc|].
    split; [by apply Forall_app|]. rewrite length_app. cbn [length]. lia.
Qed.

(** The shape both [process_rir_folder] functions have, around the body
    of their loop. *)
Lemma rir_folder_matching {A} (body : string * string -> prog (world A) unit)
    rp ca out sub w :
  (forall pair w, pair_effect (body pair) out sub (snd pair) w) ->
  matching listdir ca rp ->
  let run : prog (world A) unit :=
    open_append out ;;
    if bool_decide (length (wav_files (listdir ca)) <> length (wav_files (listdir rp)))
    then raise (mismatch_error (length (wav_files (listdir ca)))
                  (length (wav_files (listdir rp))) rp)
    else for_each (zip (wav_files (listdir ca)) (wav_files (listdir rp))) body in
  exists block calls,
    fst (run w) = Return tt
    /\ appended_at out block w (snd (run w))
    /\ block_of listdir rp sub block
    /\ scored (snd (run w)) = scored w ++ calls
    /\ Forall equal_lengths calls
    /\ (length calls <= length (wav_files (listdir rp)))%nat.
Proof.
  intros Hbody Hlen run. unfold matching in Hlen.
  pose proof (appended_at_open out w) as Hopen.
  assert (scored (snd (open_append out w)) = scored w) as Hsc by done.
  assert (run w = for_each (zip (wav_files (listdir ca)) (wav_files (listdir rp))) body
                    (snd (open_append out w))) as ->.
  { subst run. rewrite bool_decide_eq_false_2 by (intros H; by apply H). done. }
  set (w0 := snd (open_append out w)) in *.
  destruct (for_each_pairs body out sub Hbody
              (zip (wav_files (listdir ca)) (wav_files (listdir rp))) w0)
    as (rows & calls & Hret & Hrows & Hnames & Hsc' & Heq & Hcalls).
  exists rows, calls. split; [done|].
  split; [apply (appended_at_trans out [] rows w w0); done|].
  split; [|split; [by rewrite Hsc', Hsc|split; [done|]]].
  - unfold block_of. change (map snd ?l) with (l.*2) in Hnames.
    by rewrite snd_zip in Hnames by lia.
  - rewrite length_zip in Hcalls. lia.
Qed.

Lemma estoi_folder_matching rp ca out sub w :
  matching listdir ca rp ->
  exists block calls,
    fst (get_estoi.process_rir_folder listdir sf_read stoi rp ca out sub w) = Return tt
    /\ appended_at out block w
         (snd (get_estoi.process_rir_folder listdir sf_read stoi rp ca out sub w))
    /\ block_of listdir rp sub block
    /\ scored (snd (get_estoi.process_rir_folder listdir sf_read stoi rp ca out sub w))
       = scored w ++ calls
    /\ Forall equal_lengths calls
    /\ (length calls <= length (wav_files (listdir rp)))%nat.
Proof.
  intros H. apply (rir_folder_matching _ rp ca out sub w); [|done].
  intros pair w'. apply estoi_pair_effect.
Qed.

Lemma siib_folder_matching rp ca out sub w :
  matching listdir ca rp ->
  exists block calls,
    fst (get_siib.process_rir_folder listdir sf_read SIIB rp ca out sub w) = Return tt
    /\ appended_at out block w
         (snd (get_siib.process_rir_folder listdir sf_read SIIB rp ca out sub w))
    /\ block_of listdir rp sub block
    /\ scored (snd (get_siib.process_rir_folder listdir sf_read SIIB rp ca out sub w))
       = scored w ++ calls
    /\ Forall equal_lengths calls
    /\ (length calls <= length (wav_files (listdir rp)))%nat.
Proof.
  intros H. apply (rir_folder_matching _ rp ca out sub w); [|done].
  intros pair w'. apply siib_pair_effect.
Qed.

(** X14. In both scorers, when the numbers of clean and of degraded
    [.wav] files agree, [process_rir_folder] completes and appends to its
    CSV exactly one row per degraded file, in sorted order of the file
    names, each a score row or an error row for that file; the rows at
    every other path are left as they were. *)
Theorem matching_folder_rows rp ca out sub (w1 : world Qc) (w2 : world get_siib.sample) :
  matching listdir ca rp ->
  folder_effect (get_estoi.process_rir_folder listdir sf_read stoi rp ca out sub)
    listdir out rp sub w1
  /\ folder_effect (get_siib.process_rir_folder listdir sf_read SIIB rp ca out sub)
       listdir out rp sub w2.
Proof.
  intros H. split.
  - destruct (estoi_folder_matching rp ca out sub w1 H) as (block & calls & ? & ? & ? & _).
    by exists block.
  - destruct (siib_folder_matching rp ca out sub w2 H) as (block & calls & ? & ? & ? & _).
    by exists block.
Qed.

(** X15. In both scorers, whatever the folders hold, every call
    [process_rir_folder] makes to the scorer passes a clean and a
    degraded signal of the same length, and there is at most one call per
    degraded file. *)
Theorem scorer_calls_equal_lengths rp ca out sub
    (w1 : world Qc) (w2 : world get_siib.sample) :
  (exists calls,
     scored (snd (get_estoi.process_rir_folder listdir sf_read stoi rp ca out sub w1))
     = scored w1 ++ calls
     /\ Forall equal_lengths calls
     /\ (length calls <= length (wav_files (listdir rp)))%nat)
  /\ (exists calls,
        scored (snd (get_siib.process_rir_folder listdir sf_read SIIB rp ca out sub w2))
        = scored w2 ++ calls
        /\ Forall equal_lengths calls
        /\ (length calls <= length (wav_files (listdir rp)))%nat).
Proof.
  destruct (decide (matching listdir ca rp)) as [H|H]; split.
  - destruct (estoi_folder_matching rp ca out sub w1 H) as (block & calls & _ & _ & _ & ?).
    by exists calls.
  - destruct (siib_folder_matching rp ca out sub w2 H) as (block & calls & _ & _ & _ & ?).
    by exists calls.
  - destruct (estoi_mismatch listdir sf_read stoi rp ca out sub w1 H) as (_ & Hsc & _).
    exists []. rewrite Hsc, app_nil_r. split; [done|]. split; [constructor|cbn; lia].
  - destruct (siib_mismatch listdir sf_read SIIB rp ca out sub w2 H) as (_ & Hsc & _).
    exists []. rewrite Hsc, app_nil_r. split; [done|]. split; [constructor|cbn; lia].
Qed.

(** The loop of [process_t60_folder], around what it does with one
    sub-folder. *)
Lemma t60_loop {A} (f : string -> prog (world A) unit) out tp ca :
  (forall sub w, matching listdir ca (path_join tp sub) ->
     folder_effect (f sub) listdir out (path_join tp sub) sub w) ->
  (forall sub w, ~ matching listdir ca (path_join tp sub) ->
     aborts_untouched (f sub) w
       (mismatch_error (length (wav_files (listdir ca)))
          (length (wav_files (listdir (path_join tp sub)))) (path_join tp sub))) ->
  forall rirs w,
    (Forall (fun sub => matching listdir ca (path_join tp sub)) rirs ->
     t60_effect (for_each rirs f) listdir out tp rirs (Return tt) w)
    /\ (forall before bad after,
          rirs = before ++ bad :: after ->
          Forall (fun sub => matching listdir ca (path_join tp sub)) before ->
          ~ matching listdir ca (path_join tp bad) ->
          t60_effect (for_each rirs f) listdir out tp before
            (Raise (mismatch_error (length (wav_files (listdir ca)))
                      (length (wav_files (listdir (path_join tp bad))))
                      (path_join tp bad))) w).
Proof.
  intros Hok Hbad rirs. induction rirs as [|sub rirs IH]; intros w; split.
  - intros _. exists []. cbn. split; [done|]. split; [apply appended_at_refl|constructor].
  - intros before bad after E. by destruct before.
  - intros Hall. apply Forall_cons in Hall as [Hsub Hall].
    destruct (Hok sub w Hsub) as (block & Hret & Hrows & Hblock).
    cbn [for_each]. unfold t60_effect, mbind, prog_bind.
    destruct (f sub w) as [r w1]. cbn [fst snd] in *. subst r.
    destruct (proj1 (IH w1) Hall) as (blocks & Hret' & Hrows' & Hblocks).
    exists (block :: blocks). split; [done|].
    split; [apply (appended_at_trans out block (concat blocks) w w1); done|].
    by constructor.
  - intros before bad after E Hall Hno. destruct before as [|sub' before].
    + cbn [app] in E. injection E as -> ->.
      destruct (Hbad bad w Hno) as (Hret & _ & _ & Hrows).
      cbn [for_each]. unfold t60_effect, mbind, prog_bind.
      destruct (f bad w) as [r w1]. cbn [fst snd] in *. subst r.
      exists []. split; [done|]. split; [|constructor].
      intros p. rewrite Hrows, app_nil_r. by destruct (decide _).
    + cbn [app] in E. injection E as <- ->.
      apply Forall_cons in Hall as [Hsub Hall].
      destruct (Hok sub w Hsub) as (block & Hret & Hrows & Hblock).
      cbn [for_each]. unfold t60_effect, mbind, prog_bind.
      destruct (f sub w) as [r w1]. cbn [fst snd] in *. subst r.
      destruct (proj2 (IH w1) before bad after eq_refl Hall Hno)
        as (blocks & Hret' & Hrows' & Hblocks).
      exists (block :: blocks). split; [done|].
      split; [apply (appended_at_trans out block (concat blocks) w w1); done|].
      by constructor.
Qed.

Lemma estoi_t60_loop t60 :
  let tp := path_join get_estoi.degraded_base_folder t60 in
  let out := path_join (get_estoi.output_folder_path cwd) (t60 +:+ "_estoi_scores.csv") in
  let rirs := filter (fun f => isdir (path_join tp f) = true) (listdir tp) in
  let ok := fun sub => matching listdir get_estoi.clean_audio_folder (path_join tp sub) in
  let run := get_estoi.process_t60_folder listdir isdir sf_read stoi cwd t60 in
  forall w,
    (Forall ok rirs -> t60_effect run listdir out tp rirs (Return tt) w)
    /\ (forall before bad after,
          rirs = before ++ bad :: after -> Forall ok before -> ~ ok bad ->
          t60_effect run listdir out tp before
            (Raise (mismatch_error
                      (length (wav_files (listdir get_estoi.clean_audio_folder)))
                      (length (wav_files (listdir (path_join tp bad))))
                      (path_join tp bad))) w).
Proof.
  intros tp out rirs ok run w.
  apply (t60_loop (fun sub => get_estoi.process_rir_folder listdir sf_read stoi
                                (path_join tp sub) get_estoi.clean_audio_folder out sub)
           out tp get_estoi.clean_audio_folder).
  - intros sub w' H.
    destruct (estoi_folder_matching (path_join tp sub) get_estoi.clean_audio_folder
                out sub w' H) as (block & calls & ? & ? & ? & _).
    by exists block.
  - intros sub w' H. by apply estoi_mismatch.
Qed.

Lemma siib_t60_loop t60 :
  let tp := path_join get_siib.degraded_base_folder t60 in
  let out := path_join (get_siib.output_folder_path cwd) (t60 +:+ "_siib_scores.csv") in
  let rirs := filter (fun f => isdir (path_join tp f) = true) (listdir tp) in
  let ok := fun sub => matching listdir get_siib.clean_audio_folder (path_join tp sub) in
  let run := get_siib.process_t60_folder listdir isdir sf_read SIIB cwd t60 in
  forall w,
    (Forall ok rirs -> t60_effect run listdir out tp rirs (Return tt) w)
    /\ (forall before bad after,
          rirs = before ++ bad :: after -> Forall ok before -> ~ ok bad ->
          t60_effect run listdir out tp before
            (Raise (mismatch_error
                      (length (wav_files (listdir get_siib.clean_audio_folder)))
                      (length (wav_files (listdir (path_join tp bad))))
                      (path_join tp bad))) w).
Proof.
  intros tp out rirs ok run w.
  apply (t60_loop (fun sub => get_siib.process_rir_folder listdir sf_read SIIB
                                (path_join tp sub) get_siib.clean_audio_folder out sub)
           out tp get_siib.clean_audio_folder).
  - intros sub w' H.
    destruct (siib_folder_matching (path_join tp sub) get_siib.clean_audio_folder
                out sub w' H) as (block & calls & ? & ? & ? & _).
    by exists block.
  - intros sub w' H. by apply siib_mismatch.
Qed.

(** X16. In both scorers, when every RIR sub-folder holds as many [.wav]
    files as the clean folder, [process_t60_folder] completes, changes the
    rows of no file but the CSV of the T60 folder, and appends there one
    block of rows per sub-folder, in listing order, each block with one
    row per degraded file in sorted order. *)
Theorem t60_folder_completes t60 (w1 : world Qc) (w2 : world get_siib.sample) :
  (let tp := path_join get_estoi.degraded_base_folder t60 in
   let out := path_join (get_estoi.output_folder_path cwd) (t60 +:+ "_estoi_scores.csv") in
   let rirs := filter (fun f => isdir (path_join tp f) = true) (listdir tp) in
   Forall (fun sub => matching listdir get_estoi.clean_audio_folder (path_join tp sub))
     rirs ->
   t60_effect (get_estoi.process_t60_folder listdir isdir sf_read stoi cwd t60)
     listdir out tp rirs (Return tt) w1)
  /\ (let tp := path_join get_siib.degraded_base_folder t60 in
      let out := path_join (get_siib.output_folder_path cwd) (t60 +:+ "_siib_scores.csv") in
      let rirs := filter (fun f => isdir (path_join tp f) = true) (listdir tp) in
      Forall (fun sub => matching listdir get_siib.clean_audio_folder (path_join tp sub))
        rirs ->
      t60_effect (get_siib.process_t60_folder listdir isdir sf_read SIIB cwd t60)
        listdir out tp rirs (Return tt) w2).
Proof.
  split.
  - intros tp out rirs. apply estoi_t60_loop.
  - intros tp out rirs. apply siib_t60_loop.
Qed.

(** X17. In both scorers (they name the same clean and degraded
    folders) the first RIR sub-folder whose file count differs from the
    clean folder's stops [process_t60_folder] with the count-mismatch
    error of that sub-folder: the sub-folders after it are not processed,
    and the rows of the sub-folders before it stay in the CSV. *)
Theorem t60_folder_aborts t60 before bad after
    (w1 : world Qc) (w2 : world get_siib.sample) :
  let tp := path_join get_estoi.degraded_base_folder t60 in
  let ca := get_estoi.clean_audio_folder in
  filter (fun f => isdir (path_join tp f) = true) (listdir tp) = before ++ bad :: after ->
  Forall (fun sub => matching listdir ca (path_join tp sub)) before ->
  ~ matching listdir ca (path_join tp bad) ->
  let e := mismatch_error (length (wav_files (listdir ca)))
             (length (wav_files (listdir (path_join tp bad)))) (path_join tp bad) in
  t60_effect (get_estoi.process_t60_folder listdir isdir sf_read stoi cwd t60) listdir
    (path_join (get_estoi.output_folder_path cwd) (t60 +:+ "_estoi_scores.csv"))
    tp before (Raise e) w1
  /\ t60_effect (get_siib.process_t60_folder listdir isdir sf_read SIIB cwd t60) listdir
       (path_join (get_siib.output_folder_path cwd) (t60 +:+ "_siib_scores.csv"))
       tp before (Raise e) w2.
Proof.
  intros tp ca E Hall Hno e. split.
  - by apply (proj2 (estoi_t60_loop t60 w1) before bad after).
  - by apply (proj2 (siib_t60_loop t60 w2) before bad after).
Qed.

End ScorerMore.

(** ** The signal preparation of the scorers *)
Section SignalMore.
Import scorer_io.

(** X18. The aligned clean signal has the length of the degraded one: it
    is the clean signal's prefix, followed by zeros when the clean signal
    is the shorter one. *)
Theorem align_lookup clean degraded i :
  align clean degraded !! i
  = if decide (i < length degraded)%nat then Some (default 0%Qc (clean !! i)) else None.
Proof.
  unfold align, np_pad.
  destruct (Nat.ltb_spec (length clean) (length degraded)) as [Hlt|Hge].
  - destruct (decide (i < length degraded)%nat) as [Hi|Hi].
    + destruct (decide (i < length clean)%nat) as [Hc|Hc].
      * rewrite lookup_app_l by done.
        destruct (lookup_lt_is_Some_2 clean i Hc) as [a Ha]. by rewrite Ha.
      * rewrite lookup_app_r by lia. rewrite (lookup_ge_None_2 clean i) by lia.
        cbn. apply lookup_replicate_2. lia.
    + apply lookup_ge_None_2. rewrite length_app, length_replicate. lia.
  - destruct (Nat.ltb_spec (length degraded) (length clean)) as [Hlt|Hge'].
    + destruct (decide (i < length degraded)%nat) as [Hi|Hi].
      * rewrite lookup_take_lt by done.
        destruct (lookup_lt_is_Some_2 clean i) as [a Ha]; [lia|]. by rewrite Ha.
      * apply lookup_ge_None_2. rewrite length_take. lia.
    + destruct (decide (i < length degraded)%nat) as [Hi|Hi].
      * destruct (lookup_lt_is_Some_2 clean i) as [a Ha]; [lia|]. by rewrite Ha.
      * apply lookup_ge_None_2. lia.
Qed.

Lemma abs_cases a :
  (0 <= a)%Qc /\ get_siib.abs a = a \/ (a < 0)%Qc /\ get_siib.abs a = (- a)%Qc.
Proof.
  unfold get_siib.abs. destruct (decide (0 <= a)%Qc) as [H|H]; [by left|right].
  split; [by apply Qcnot_le_lt|done].
Qed.

Lemma max_cases a b :
  (a <= b)%Qc /\ get_siib.max a b = b \/ (b <= a)%Qc /\ get_siib.max a b = a.
Proof.
  unfold get_siib.max. destruct (decide (a <= b)%Qc) as [H|H]; [by left|right].
  split; [by apply Qclt_le_weak, Qcnot_le_lt|done].
Qed.

(** The peak [np.max(np.abs(x))] bounds every sample and is attained. *)
Lemma peak_spec a rest :
  let m := foldr (fun b m => get_siib.max (get_siib.abs b) m) (get_siib.abs a) rest in
  (forall b, b ∈ a :: rest -> (get_siib.abs b <= m)%Qc)
  /\ (exists b, b ∈ a :: rest /\ get_siib.abs b = m).
Proof.
  induction rest as [|c rest [IHle IHex]]; cbn [foldr].
  - split.
    + intros b ->%list_elem_of_singleton. apply Qcle_refl.
    + exists a. split; [apply list_elem_of_here|done].
  - cbv zeta in IHle, IHex.
    set (m := foldr _ _ rest) in *.
    destruct (max_cases (get_siib.abs c) m) as [[H ->]|[H ->]]; split.
    + intros b Hb. apply elem_of_cons in Hb as [->|Hb].
      * apply IHle, list_elem_of_here.
      * apply elem_of_cons in Hb as [->|Hb]; [done|].
        by apply IHle, list_elem_of_further.
    + destruct IHex as (b & Hb & E). exists b. split; [|done].
      apply elem_of_cons in Hb as [->|Hb]; [apply list_elem_of_here|].
      by apply list_elem_of_further, list_elem_of_further.
    + intros b Hb. apply elem_of_cons in Hb as [->|Hb].
      * eapply Qcle_trans; [|exact H]. apply IHle, list_elem_of_here.
      * apply elem_of_cons in Hb as [->|Hb]; [apply Qcle_refl|].
        eapply Qcle_trans; [|exact H]. by apply IHle, list_elem_of_further.
    + exists c. split; [|done]. apply list_elem_of_further, list_elem_of_here.
Qed.

Lemma abs_zero a : get_siib.abs a = 0%Qc -> a = 0%Qc.
Proof.
  destruct (abs_cases a) as [[_ ->]|[_ ->]]; [done|].
  intros H. rewrite <- (Qcopp_involutive a), H. done.
Qed.

Lemma abs_le_bounds a m : (get_siib.abs a <= m)%Qc -> (- m <= a)%Qc /\ (a <= m)%Qc.
Proof.
  rewrite !Qc2R_le, Qc2R_opp.
  destruct (abs_cases a) as [[H ->]|[H%Qclt_le_weak ->]];
    apply Qc2R_le in H; rewrite Qc2R_0 in H; rewrite ?Qc2R_opp; lra.
Qed.

Lemma div_bounds a m : (0 < m)%Qc -> (- m <= a)%Qc -> (a <= m)%Qc ->
  (- 1 <= a / m)%Qc /\ (a / m <= 1)%Qc.
Proof.
  intros Hm Hlo Hhi.
  assert (m <> 0%Qc) as Hne by (intros ->; by apply Qclt_not_eq in Hm).
  assert ((a / m) * m = a)%Qc as E by (by rewrite Qcmult_comm, Qcmult_div_r).
  split.
  - apply (Qcmult_le_mono_pos_r _ _ m Hm). rewrite E.
    by replace (- 1 * m)%Qc with (- m)%Qc by ring.
  - apply (Qcmult_le_mono_pos_r _ _ m Hm). by rewrite E, Qcmult_1_l.
Qed.

(** X19. [x / np.max(np.abs(x))] fails on an empty signal only.  For a
    silent signal (all samples zero) every sample becomes nan and no
    error is raised; otherwise every sample lies between -1 and 1 and
    some sample is exactly 1 or -1. *)
Theorem normalize_peak x :
  match get_siib.normalize x with
  | Raise e => x = []
  | Return xn =>
      length xn = length x
      /\ (Forall (fun a => a = 0%Qc) x /\ Forall (fun s => s = None) xn
          \/ Forall (fun s => exists q, s = Some q /\ (- 1 <= q)%Qc /\ (q <= 1)%Qc) xn
             /\ Exists (fun s => s = Some 1%Qc \/ s = Some (- 1)%Qc) xn)
  end.
Proof.
  destruct x as [|a rest]; [done|].
  unfold get_siib.normalize. cbn [get_siib.np_max_abs mbind result_bind mret result_ret].
  destruct (peak_spec a rest) as [Hle (b & Hb & Hat)]. cbv zeta in Hle, Hat.
  set (m := foldr _ _ rest) in *.
  split; [by rewrite length_map|].
  destruct (decide (m = 0%Qc)) as [Hm|Hm].
  - left. split.
    + apply Forall_forall. intros c Hc. apply abs_zero.
      apply Qcle_antisym.
      * rewrite <- Hm. by apply Hle.
      * destruct (abs_cases c) as [[H ->]|[H ->]]; [done|].
        apply Qclt_le_weak in H. apply Qcopp_le_compat in H. exact H.
    + apply Forall_forall. intros s Hs.
      apply list_elem_of_In, in_map_iff in Hs as (c & <- & _). done.
  - right.
    assert (0 < m)%Qc as Hpos.
    { destruct (Qcle_lt_or_eq 0 m) as [?|?]; [|done|congruence].
      rewrite <- Hat. destruct (abs_cases b) as [[H ->]|[H ->]]; [done|].
      apply Qclt_le_weak in H. apply Qcopp_le_compat in H. exact H. }
    split.
    + apply Forall_forall. intros s Hs.
      apply list_elem_of_In, in_map_iff in Hs as (c & <- & Hc%list_elem_of_In).
      exists (c / m)%Qc. split; [done|].
      destruct (abs_le_bounds c m (Hle c Hc)). by apply div_bounds.
    + apply Exists_exists. exists (Some (b / m)%Qc). split.
      * apply list_elem_of_In, in_map_iff. exists b. split; [done|by apply list_elem_of_In].
      * destruct (abs_cases b) as [[_ E]|[_ E]]; rewrite E in Hat.
        -- left. f_equal. rewrite Hat. unfold Qcdiv. by apply Qcmult_inv_r.
        -- right. f_equal. rewrite <- (Qcopp_involutive b), Hat.
           unfold Qcdiv. replace (- m * / m)%Qc with (- (m * / m))%Qc by ring.
           by rewrite Qcmult_inv_r.
Qed.

End SignalMore.

(** ** The script cal_kendall.py *)
Section MainFacts.
Import cal_kendall cal_kendall_main.

Variable float : string -> result Qc.
Variable to_numeric : string -> option Qc.
Variable is_text : string -> bool.
Variable kendall_p : list Qc -> list Qc -> num.
Variable folder : string -> list dir_entry.

Local Abbreviation main := (main float to_numeric kendall_p folder).
Local Abbreviation failures := (failures float to_numeric).
Local Abbreviation load_scores := (load_scores float to_numeric).
Local Abbreviation paired_samples := (paired_samples float to_numeric).
Local Abbreviation qualifying_rows := (qualifying_rows float).
Local Abbreviation summary_of := (summary_of kendall_p).

(** With the console, [calculate_folders_metrics] gives what it gives
    without, after the lines of the two loads. *)
Lemma run_calculate_folders_metrics_run folder1 folder2 t60_range console :
  run_calculate_folders_metrics float to_numeric kendall_p folder1 folder2 t60_range
    console
  = (calculate_folders_metrics float to_numeric kendall_p folder1 folder2 t60_range,
     console ++ failures folder1 t60_range ++ failures folder2 t60_range).
Proof.
  unfold run_calculate_folders_metrics, run_load_scores, mbind, prog_bind, lift.
  by rewrite <- app_assoc.
Qed.

Lemma main_run console :
  let printed :=
    console ++ failures (folder folder1) t60_range ++ failures (folder folder2) t60_range in
  main console
  = match calculate_folders_metrics float to_numeric kendall_p
            (folder folder1) (folder folder2) t60_range with
    | Return metrics =>
        (Return tt,
         printed ++ [PearsonLine (pearson metrics); KendallLine (kendall metrics);
                     KendallPValueLine (kendall_p_value metrics)])
    | Raise (ValueError msg) => (Return tt, printed ++ [ErrorLine (ValueError msg)])
    | Raise e => (Raise e, printed)
    end.
Proof.
  cbv zeta. unfold cal_kendall_main.main, try_except_ValueError.
  unfold mbind at 1, prog_bind. rewrite run_calculate_folders_metrics_run.
  unfold mbind, prog_bind, print, modify.
  destruct (calculate_folders_metrics _ _ _ _ _ _) as [m|[]]; cbn; try done.
  by rewrite <- !app_assoc.
Qed.


(** X21. When one of the two folders holds no score file that qualifies
    for the T60 range 1.0 to 8.0 of the script, the script prints the
    'Failed to process' lines of the two loads and nothing else: the
    [KeyError] passes the [except ValueError], so no 'Error:' line is
    printed. *)
Theorem main_uncaught_key_error console :
  (forall e, e ∈ folder folder1 -> qualifying_rows t60_range e = None)
  \/ (forall e, e ∈ folder folder2 -> qualifying_rows t60_range e = None) ->
  main console
  = (Raise (KeyError "t60"),
     console ++ failures (folder folder1) t60_range ++ failures (folder folder2) t60_range).
Proof.
  intros H. pose proof (main_run console) as Hrun. cbv zeta in Hrun.
  rewrite Hrun, calculate_no_columns; [done|].
  intros [H1 H2]. destruct H as [H|H];
    apply (load_scores_none_qualify float to_numeric) in H; rewrite H in *; done.
Qed.

End MainFacts.

(** ** The data of plot_mean_std *)
Section PlotDataFacts.
Import plot_layout std_deviation_plot.

Variable listdir : string -> list dir_entry.
Variable float : string -> result Qc.
Variable series_mean : list Qc -> num.
Variable series_std : list Qc -> num.
Variable sort_rows : list stat_row -> list stat_row.

Local Abbreviation read_stats := (read_stats float series_mean series_std).
Local Abbreviation collect_files := (collect_files float series_mean series_std).
Local Abbreviation collect := (collect listdir float series_mean series_std sort_rows).
Local Abbreviation readable := (readable float series_mean series_std).
Local Abbreviation plottable := (plottable listdir float series_mean series_std).
Local Abbreviation kept_rows := (kept_rows float series_mean series_std).
Local Abbreviation plotted := (plotted listdir float series_mean series_std sort_rows).
Local Abbreviation t60s_of := (t60s_of listdir float series_mean series_std).
Local Abbreviation sort_values := (sort_values sort_rows).

Lemma kept_rows_cons e files :
  kept_rows (e :: files)
  = match (if endswith (fst e) "_mean_scores.csv" then
             match read_stats e with Return row => Some row | Raise _ => None end
           else None) with
    | Some row => row :: kept_rows files
    | None => kept_rows files
    end.
Proof.
  unfold std_deviation_plot.kept_rows. cbn [omap list_omap].
  destruct (endswith (fst e) "_mean_scores.csv"); [|done]. by destruct (read_stats e).
Qed.

Lemma collect_files_ok files ts data :
  Forall readable files ->
  collect_files files ts data
  = Return (list_to_set (map t60 (kept_rows files)) ∪ ts, data ++ kept_rows files).
Proof.
  revert ts data. induction files as [|e files IH]; intros ts data Hok.
  - cbn. by rewrite (left_id_L ∅ (∪)), app_nil_r.
  - apply Forall_cons in Hok as [He Hok]. cbn [std_deviation_plot.collect_files].
    rewrite kept_rows_cons. unfold std_deviation_plot.readable, score_file in He.
    destruct (endswith (fst e) "_mean_scores.csv"); [|by apply IH].
    destruct (He eq_refl) as [row ->]. cbn [mbind result_bind].
    rewrite IH by done. cbn [map list_to_set]. f_equal. f_equal.
    + by rewrite (assoc_L (∪)), (comm_L (∪) (list_to_set _) {[t60 row]}).
    + by rewrite <- app_assoc.
Qed.

Lemma collect_files_returned files ts data v :
  collect_files files ts data = Return v -> Forall readable files.
Proof.
  revert ts data. induction files as [|e files IH]; intros ts data Hv; [constructor|].
  cbn [std_deviation_plot.collect_files] in Hv.
  unfold std_deviation_plot.readable, score_file. constructor.
  - destruct (endswith (fst e) "_mean_scores.csv"); [|done]. intros _.
    destruct (read_stats e) as [row|err]; [by exists row|done].
  - destruct (endswith (fst e) "_mean_scores.csv"); [|by eapply IH].
    destruct (read_stats e) as [row|err]; [|done]. by eapply IH.
Qed.

Lemma collect_files_failed before e after ts data err :
  Forall readable before -> score_file e -> read_stats e = Raise err ->
  collect_files (before ++ e :: after) ts data = Raise err.
Proof.
  intros Hok Hs He. revert ts data.
  induction before as [|e' before IH]; intros ts data.
  - cbn [app std_deviation_plot.collect_files]. unfold score_file in Hs. by rewrite Hs, He.
  - apply Forall_cons in Hok as [He' Hok]. cbn [app std_deviation_plot.collect_files].
    unfold std_deviation_plot.readable, score_file in He'.
    destruct (endswith (fst e') "_mean_scores.csv"); [|by apply IH].
    destruct (He' eq_refl) as [row ->]. cbn [mbind result_bind]. by apply IH.
Qed.

Lemma kept_rows_nil files :
  kept_rows files = [] -> Forall readable files -> forall e, e ∈ files -> ~ score_file e.
Proof.
  induction files as [|e' files IH]; intros Hk Hok e He; [by apply elem_of_nil in He|].
  apply Forall_cons in Hok as [He' Hok]. rewrite kept_rows_cons in Hk.
  unfold std_deviation_plot.readable, score_file in *.
  apply elem_of_cons in He as [->|He].
  - destruct (endswith (fst e') "_mean_scores.csv"); [|done].
    destruct (He' eq_refl) as [row E]. by rewrite E in Hk.
  - destruct (endswith (fst e') "_mean_scores.csv").
    + destruct (He' eq_refl) as [row E]. by rewrite E in Hk.
    + by apply IH.
Qed.

Lemma kept_rows_some files e :
  e ∈ files -> score_file e -> Forall readable files -> kept_rows files <> [].
Proof.
  intros He Hs Hok Hk. by apply (kept_rows_nil files Hk Hok e).
Qed.

Lemma collect_step folder label rest ts all console :
  collect ((folder, label) :: rest) ts all console
  = match collect_files (listdir folder) ts [] with
    | Return (ts', plot_data) =>
        match sort_values plot_data with
        | Return plot_df =>
            collect rest ts' (all ++ [(plot_df, label)])
              (console ++ [ProcessingFolder folder label])
        | Raise err => (Raise err, console ++ [ProcessingFolder folder label])
        end
    | Raise err => (Raise err, console ++ [ProcessingFolder folder label])
    end.
Proof.
  cbn [std_deviation_plot.collect]. unfold mbind, prog_bind, print, modify, lift.
  destruct (collect_files _ _ _) as [[ts' plot_data]|err]; [|done].
  by destruct (sort_values plot_data).
Qed.

Lemma collect_ok input ts all console :
  Forall (fun item => plottable (fst item)) input ->
  collect input ts all console
  = (Return (t60s_of input ∪ ts, all ++ map plotted input),
     console ++ map processing input).
Proof.
  revert ts all console. induction input as [|[folder label] input IH];
    intros ts all console Hok.
  - cbn. unfold std_deviation_plot.t60s_of. cbn.
    by rewrite (left_id_L ∅ (∪)), !app_nil_r.
  - apply Forall_cons in Hok as [[[e [He Hs]] Hfiles] Hok]. cbn [fst] in *.
    rewrite collect_step, collect_files_ok by done. rewrite app_nil_l.
    pose proof (kept_rows_some _ e He Hs Hfiles) as Hne.
    unfold std_deviation_plot.sort_values.
    destruct (kept_rows (listdir folder)) as [|row rows] eqn:E; [done|].
    rewrite IH by done. cbn [map]. unfold std_deviation_plot.plotted at 2.
    unfold processing at 2. cbn [fst snd]. rewrite E, <- !app_assoc. cbn [app].
    unfold std_deviation_plot.t60s_of. cbn [flat_map fst].
    rewrite E, list_to_set_app_L. cbn [map].
    rewrite (assoc_L (∪) (list_to_set (flat_map _ input))).
    by rewrite (comm_L (∪) (list_to_set (flat_map _ input))).
Qed.

Lemma collect_returned input ts all console v :
  fst (collect input ts all console) = Return v ->
  Forall (fun item => plottable (fst item)) input.
Proof.
  revert ts all console. induction input as [|[folder label] input IH];
    intros ts all console Hv; [constructor|].
  rewrite collect_step in Hv.
  destruct (collect_files (listdir folder) ts []) as [[ts' plot_data]|err] eqn:E;
    [|done].
  pose proof (collect_files_returned _ _ _ _ E) as Hfiles.
  rewrite collect_files_ok in E by done. injection E as _ <-.
  unfold std_deviation_plot.sort_values in Hv. cbn [app] in Hv.
  destruct (kept_rows (listdir folder)) as [|row rows] eqn:Ek; [done|].
  constructor; [|by eapply IH]. cbn [fst]. split; [|done].
  destruct (decide (Exists (fun e => endswith (fst e) "_mean_scores.csv" = true)
                      (listdir folder))) as [Hex|Hno].
  - apply Exists_exists in Hex as (e & He & Hs). by exists e.
  - exfalso. assert (kept_rows (listdir folder) = []) as Hnil; [|by rewrite Hnil in Ek].
    clear -Hno. induction (listdir folder) as [|e files IH]; [done|].
    rewrite kept_rows_cons.
    destruct (endswith (fst e) "_mean_scores.csv") eqn:Es.
    + destruct Hno. by apply Exists_cons_hd.
    + apply IH. intros H. apply Hno. by apply Exists_cons_tl.
Qed.

(** X22. The data collection of [plot_mean_std] gets through exactly when
    every input folder holds at least one score file and every score file
    of every folder can be read, has a name whose part before the first
    underscore parses as a float, and has the column [mean_score].  Then
    [all_plot_data] holds one frame per input folder, in input order and
    with its label: the statistics of the score files of that folder;
    [all_t60_values] holds the T60 values of all of them, and one line
    per folder was printed. *)
Theorem collect_returns_iff input console :
  ((exists v, fst (collect input ∅ [] console) = Return v)
   <-> Forall (fun item => plottable (fst item)) input)
  /\ (Forall (fun item => plottable (fst item)) input ->
      collect input ∅ [] console
      = (Return (t60s_of input, map plotted input), console ++ map processing input)).
Proof.
  assert (Forall (fun item => plottable (fst item)) input ->
          collect input ∅ [] console
          = (Return (t60s_of input, map plotted input),
             console ++ map processing input)) as Hrun.
  { intros Hok. rewrite collect_ok by done. by rewrite (right_id_L ∅ (∪)). }
  split; [split|exact Hrun].
  - intros [v Hv]. by eapply collect_returned.
  - intros Hok. rewrite Hrun by done. by eexists.
Qed.

(** X23. A folder without any score file stops [plot_mean_std] with
    [KeyError: 't60'] raised by [sort_values], the folders after it are
    not looked at. *)
Theorem collect_empty_folder before folder label after console :
  Forall (fun item => plottable (fst item)) before ->
  (forall e, e ∈ listdir folder -> ~ score_file e) ->
  collect (before ++ (folder, label) :: after) ∅ [] console
  = (Raise (KeyError "t60"),
     console ++ map processing before ++ [ProcessingFolder folder label]).
Proof.
  intros Hok Hno. generalize (∅ : gset Qc) ([] : list (list stat_row * string)).
  revert console. induction before as [|[f l] before IH]; intros console ts all.
  - cbn [app map]. rewrite collect_step.
    assert (Forall readable (listdir folder)) as Hfiles.
    { apply Forall_forall. intros e He Hs. by destruct (Hno e He). }
    rewrite collect_files_ok by done. rewrite app_nil_l.
    assert (kept_rows (listdir folder) = []) as ->; [|done].
    clear Hfiles. induction (listdir folder) as [|e files IHf]; [done|].
    rewrite kept_rows_cons.
    destruct (endswith (fst e) "_mean_scores.csv") eqn:Es.
    + destruct (Hno e); [apply list_elem_of_here|done].
    + apply IHf. intros e' He'. apply Hno. by apply list_elem_of_further.
  - apply Forall_cons in Hok as [[[e [He Hs]] Hfiles] Hok]. cbn [fst] in *.
    cbn [app map]. rewrite collect_step, collect_files_ok by done. rewrite app_nil_l.
    pose proof (kept_rows_some _ e He Hs Hfiles) as Hne.
    unfold std_deviation_plot.sort_values.
    destruct (kept_rows (listdir f)) as [|row rows] eqn:E; [done|].
    rewrite IH by done. unfold processing at 2. cbn [fst snd app].
    by rewrite <- !app_assoc.
Qed.

(** X24. There is no [try] around the reading of a file: the first score
    file that cannot be read, whose T60 does not parse or that lacks the
    column [mean_score] stops [plot_mean_std] with its exception. *)
Theorem collect_first_failure before folder label after files e files' err console :
  Forall (fun item => plottable (fst item)) before ->
  listdir folder = files ++ e :: files' ->
  Forall readable files -> score_file e -> read_stats e = Raise err ->
  fst (collect (before ++ (folder, label) :: after) ∅ [] console) = Raise err.
Proof.
  intros Hok Hdir Hfiles Hs He.
  generalize (∅ : gset Qc) ([] : list (list stat_row * string)).
  revert console. induction before as [|[f l] before IH]; intros console ts all.
  - cbn [app]. rewrite collect_step, Hdir.
    by rewrite (collect_files_failed files e files' ts [] err).
  - apply Forall_cons in Hok as [[[e0 [He0 Hs0]] Hfiles0] Hok]. cbn [fst] in *.
    cbn [app]. rewrite collect_step, collect_files_ok by done. rewrite app_nil_l.
    pose proof (kept_rows_some _ e0 He0 Hs0 Hfiles0) as Hne.
    unfold std_deviation_plot.sort_values.
    destruct (kept_rows (listdir f)) as [|row rows] eqn:E; [done|].
    by apply IH.
Qed.

End PlotDataFacts.

(** ** The x positions and the grid of subplots *)
Section PlotLayoutFacts.
Import plot_layout std_deviation_plot.

Lemma index_lookup l t i : index l t = Some i -> l !! i = Some t.
Proof.
  revert i. induction l as [|a l IH]; intros i; [done|].
  cbn [index]. destruct (decide (a = t)) as [->|Hne].
  - by intros [= <-].
  - destruct (index l t) as [j|]; [|done]. intros [= <-]. by apply IH.
Qed.

Lemma index_elem l t : t ∈ l -> is_Some (index l t).
Proof.
  induction l as [|a l IH]; intros Ht; [by apply elem_of_nil in Ht|].
  cbn [index]. destruct (decide (a = t)) as [->|Hne]; [by eexists|].
  apply elem_of_cons in Ht as [->|Ht]; [done|].
  destruct (IH Ht) as [j ->]. by eexists.
Qed.

Lemma strongly_sorted_lookup l i j a b :
  StronglySorted Qcle l -> (i < j)%nat ->
  l !! i = Some a -> l !! j = Some b -> (a <= b)%Qc.
Proof.
  intros Hs. revert i j. induction Hs as [|c l Hs IH Hall]; intros i j Hij Hi Hj; [done|].
  destruct j as [|j]; [lia|]. cbn in Hj. destruct i as [|i].
  - injection Hi as ->. rewrite Forall_forall in Hall.
    apply Hall. by apply list_elem_of_lookup_2 in Hj.
  - cbn in Hi. apply (IH i j); [lia|done..].
Qed.

Lemma sorted_t60_values_NoDup ts : NoDup (sorted_t60_values ts).
Proof. unfold sorted_t60_values. rewrite merge_sort_Permutation. apply NoDup_elements. Qed.

Lemma sorted_t60_values_sorted ts : StronglySorted Qcle (sorted_t60_values ts).
Proof. apply Sorted_StronglySorted; [apply _|]. apply (Sorted_merge_sort Qcle). Qed.

Lemma sorted_t60_values_elem ts t : t ∈ sorted_t60_values ts <-> t ∈ ts.
Proof. unfold sorted_t60_values. by rewrite merge_sort_Permutation, elem_of_elements. Qed.

(** The positions grow with the T60. *)
Lemma sorted_t60_values_positions ts i j a b :
  sorted_t60_values ts !! i = Some a -> sorted_t60_values ts !! j = Some b ->
  (i < j)%nat <-> (a < b)%Qc.
Proof.
  intros Hi Hj. pose proof (sorted_t60_values_sorted ts) as Hs.
  pose proof (sorted_t60_values_NoDup ts) as Hnd. split.
  - intros Hij. destruct (Qcle_lt_or_eq a b) as [Hlt | ->]; [|done|].
    + by apply (strongly_sorted_lookup (sorted_t60_values ts) i j a b).
    + assert (i = j) by (by apply (NoDup_lookup (sorted_t60_values ts) i j b Hnd)). lia.
  - intros Hab. destruct (decide (i < j)%nat) as [|Hge]; [done|exfalso].
    destruct (decide (i = j)) as [->|Hne].
    + rewrite Hi in Hj. injection Hj as ->. by apply Qclt_not_eq in Hab.
    + apply (Qclt_not_le _ _ Hab).
      apply (strongly_sorted_lookup _ j i b a Hs); [lia|done..].
Qed.

(** [math.ceil(n / k)] for a positive [k]. *)
Lemma ceil_div_bounds n k :
  (0 < k)%Z ->
  exists m, ceil_div n k = Return m /\ ((m - 1) * k < n)%Z /\ (n <= m * k)%Z.
Proof.
  intros Hk. unfold ceil_div. rewrite decide_False by lia.
  set (q := (inject_Z n / inject_Z k)%Q). exists (Qceiling q). split; [done|].
  assert (0 < inject_Z k)%Q as Hpos by (unfold Qlt; cbn; lia).
  assert (q * inject_Z k == inject_Z n)%Q as Hq.
  { unfold q. rewrite Qmult_comm. apply Qmult_div_r. intros E. rewrite E in Hpos.
    by apply Qlt_irrefl in Hpos. }
  split.
  - pose proof (Qceiling_lt q) as H.
    apply (Qmult_lt_r _ _ _ Hpos) in H. rewrite Hq, <- inject_Z_mult in H.
    by rewrite Zlt_Qlt.
  - pose proof (Qle_ceiling q) as H.
    apply (Qmult_le_r _ _ _ Hpos) in H. rewrite Hq, <- inject_Z_mult in H.
    by rewrite Zle_Qle.
Qed.

Lemma chunks_concat {A} (l : list A) (k m : nat) :
  (0 < k)%nat -> (length l <= m * k)%nat ->
  concat (map (fun i => take k (drop (i * k) l)) (seq 0 m)) = l.
Proof.
  intros Hk. revert l. induction m as [|m IH]; intros l Hl.
  - cbn in *. destruct l; [done|cbn in Hl; lia].
  - cbn [seq map concat]. rewrite <- seq_shift, map_map.
    change (0 * k)%nat with 0%nat. cbn [drop].
    transitivity (take k l ++ drop k l); [|apply take_drop]. f_equal.
    etrans; [|apply (IH (drop k l)); rewrite length_drop; lia].
    f_equal. apply map_ext. intros i. by rewrite drop_drop.
Qed.

Variable listdir : string -> list dir_entry.
Variable float : string -> result Qc.
Variable series_mean : list Qc -> num.
Variable series_std : list Qc -> num.
Variable sort_rows : list stat_row -> list stat_row.

Local Abbreviation collect := (collect listdir float series_mean series_std sort_rows).
Local Abbreviation kept_rows := (kept_rows float series_mean series_std).

(** X25. When the collection gets through, the column [x_pos] of every
    frame is computed without a [ValueError]: each T60 of each frame is
    found among the sorted T60 values, at a position that holds that
    T60, and the positions grow strictly with the T60. *)
Theorem x_positions_found input console ts data console' :
  (forall l, sort_rows l ≡ₚ l) ->
  collect input ∅ [] console = (Return (ts, data), console') ->
  (forall plot_df label,
     (plot_df, label) ∈ data ->
     exists xs,
       x_pos ts plot_df = Some xs
       /\ Forall2 (fun r x => sorted_t60_values ts !! x = Some (t60 r)) plot_df xs)
  /\ (forall i j a b,
        sorted_t60_values ts !! i = Some a -> sorted_t60_values ts !! j = Some b ->
        (i < j)%nat <-> (a < b)%Qc).
Proof.
  intros Hperm Hrun. split; [|apply sorted_t60_values_positions].
  assert (Forall (fun item => plottable listdir float series_mean series_std (fst item))
            input) as Hok.
  { apply (collect_returned listdir float series_mean series_std sort_rows
             input ∅ [] console (ts, data)). by rewrite Hrun. }
  rewrite (collect_ok listdir float series_mean series_std sort_rows) in Hrun by done.
  injection Hrun as <- <- _. rewrite (right_id_L ∅ (∪)). cbn [app].
  intros plot_df label Hin.
  apply list_elem_of_In, in_map_iff in Hin as (item & [= <- _] & Hitem).
  assert (forall r, r ∈ sort_rows (kept_rows (listdir (fst item))) ->
            is_Some (index (sorted_t60_values
                              (t60s_of listdir float series_mean series_std input))
                       (t60 r))) as Hfound.
  { intros r Hr. apply index_elem, sorted_t60_values_elem.
    rewrite Hperm in Hr. unfold t60s_of. apply elem_of_list_to_set.
    apply list_elem_of_In, in_flat_map. exists item. split; [done|].
    apply in_map. by apply list_elem_of_In. }
  unfold x_pos. induction (sort_rows _) as [|r rows IH].
  - exists []. split; [done|constructor].
  - destruct (Hfound r) as [x Hx]; [apply list_elem_of_here|].
    destruct IH as (xs & Hxs & Hall).
    { intros r' Hr'. by apply Hfound, list_elem_of_further. }
    exists (x :: xs). split.
    + cbn [mapM]. rewrite Hx. cbn. by rewrite Hxs.
    + constructor; [by apply index_lookup|done].
Qed.

(** X26. With a positive [folders_per_subplot] the slices
    [all_plot_data[start_idx:end_idx]] of the subplots split
    [all_plot_data] in order: every folder is drawn in exactly one
    subplot, no subplot is empty and none holds more than
    [folders_per_subplot] folders. *)
Theorem subplot_chunks {A} (all_plot_data : list A) (folders_per_subplot : Z) :
  (0 < folders_per_subplot)%Z ->
  exists num_subplots : nat,
    ceil_div (Z.of_nat (length all_plot_data)) folders_per_subplot
    = Return (Z.of_nat num_subplots)
    /\ concat (map (current_data all_plot_data folders_per_subplot) (seq 0 num_subplots))
       = all_plot_data
    /\ forall subplot_idx,
         (subplot_idx < num_subplots)%nat ->
         current_data all_plot_data folders_per_subplot subplot_idx <> []
         /\ (Z.of_nat (length (current_data all_plot_data folders_per_subplot subplot_idx))
             <= folders_per_subplot)%Z.
Proof.
  intros Hk.
  destruct (ceil_div_bounds (Z.of_nat (length all_plot_data)) folders_per_subplot Hk)
    as (m & Hm & Hlo & Hhi).
  assert (0 <= m)%Z as Hm0 by nia.
  exists (Z.to_nat m). rewrite Z2Nat.id by done. split; [done|].
  assert (forall i, current_data all_plot_data folders_per_subplot i
                    = take (Z.to_nat folders_per_subplot)
                        (drop (i * Z.to_nat folders_per_subplot) all_plot_data)) as Hcur.
  { intros i. unfold current_data. f_equal; [f_equal; lia|f_equal; nia]. }
  split.
  - rewrite (map_ext _ _ Hcur). apply chunks_concat; [lia|nia].
  - intros i Hi. rewrite Hcur. split.
    + intros E. apply (f_equal length) in E. rewrite length_take, length_drop in E.
      cbn in E. nia.
    + rewrite length_take. lia.
Qed.

(** X27. In both plotting scripts, with a positive [subplots_per_row],
    the grid has an axis for every subplot, and fewer than
    [subplots_per_row] axes are left over and deleted. *)
Theorem axes_suffice (num_subplots subplots_per_row : Z) :
  (0 < subplots_per_row)%Z ->
  exists num_rows,
    ceil_div num_subplots subplots_per_row = Return num_rows
    /\ (num_subplots <= n_axes num_rows subplots_per_row)%Z
    /\ (Z.of_nat (length (hidden num_subplots (n_axes num_rows subplots_per_row)))
        < subplots_per_row)%Z.
Proof.
  intros Hk. destruct (ceil_div_bounds num_subplots subplots_per_row Hk)
    as (m & Hm & Hlo & Hhi).
  exists m. split; [done|]. unfold n_axes, hidden. split; [done|].
  rewrite length_map, length_seq. lia.
Qed.

End PlotLayoutFacts.

(** ** The points of plot_scatter *)
Section ScatterFacts.
Import scatter_plot.

(** One assignment [data[key] = score]. *)
Local Abbreviation ins := (fun (d : gmap key Qc) (kv : key * Qc) => <[fst kv := snd kv]> d).

Lemma store_rows_table t60 rows data :
  store_rows t60 (Table rows) data
  = Return (foldl ins data (map (fun row => ((t60, fst row), snd row)) rows)).
Proof.
  cbn [store_rows]. f_equal. revert data.
  induction rows as [|row rows IH]; intros data; [done|]. cbn [map foldl]. apply IH.
Qed.

Lemma scatter_collect_cons e files data :
  collect (e :: files) data
  = if endswith (fst e) "_mean_scores.csv" then
      match stored e with
      | Return rows => collect files (foldl ins data rows)
      | Raise err => Raise err
      end
    else collect files data.
Proof.
  cbn [collect]. destruct (endswith (fst e) "_mean_scores.csv"); [|done].
  unfold stored. destruct (snd e) as [[rows|column [|n]]|err]; cbn [mbind result_bind];
    try done.
  by rewrite store_rows_table.
Qed.

Lemma all_stored_cons e files :
  all_stored (e :: files)
  = (if endswith (fst e) "_mean_scores.csv" then
       match stored e with Return rows => rows | Raise _ => [] end
     else []) ++ all_stored files.
Proof. done. Qed.

Lemma scatter_collect_ok files data :
  Forall fine files -> collect files data = Return (foldl ins data (all_stored files)).
Proof.
  revert data. induction files as [|e files IH]; intros data Hok; [done|].
  apply Forall_cons in Hok as [He Hok]. rewrite scatter_collect_cons, all_stored_cons.
  unfold fine, score_file in He.
  destruct (endswith (fst e) "_mean_scores.csv"); [|by apply IH].
  destruct (He eq_refl) as [rows ->]. by rewrite IH, foldl_app.
Qed.

Lemma scatter_collect_returned files data d : collect files data = Return d -> Forall fine files.
Proof.
  revert data. induction files as [|e files IH]; intros data Hd; [constructor|].
  rewrite scatter_collect_cons in Hd. unfold fine, score_file. constructor.
  - destruct (endswith (fst e) "_mean_scores.csv"); [|done]. intros _.
    destruct (stored e) as [rows|err]; [by exists rows|done].
  - destruct (endswith (fst e) "_mean_scores.csv"); [|by eapply IH].
    destruct (stored e) as [rows|err]; [|done]. by eapply IH.
Qed.

Lemma foldl_ins_lookup (kvs : list (key * Qc)) (d : gmap key Qc) (k : key) :
  foldl ins d kvs !! k
  = match last (omap (fun kv => if decide (fst kv = k) then Some (snd kv) else None) kvs) with
    | Some v => Some v
    | None => d !! k
    end.
Proof.
  revert d. induction kvs as [|[k' v] kvs IH]; intros d; [done|].
  cbn [foldl]. rewrite IH. cbn [omap list_omap fst snd].
  destruct (decide (k' = k)) as [->|Hne].
  - rewrite last_cons, lookup_insert_eq. by destruct (last _).
  - by rewrite lookup_insert_ne.
Qed.

(** X28. When every score file of a folder can be read and has the two
    columns (or no row), the dictionary built from it maps each key (the
    file-name prefix as a string, [rir]) to the [mean_score] of the last
    row stored under that key, in listing order: T60 values are matched
    as strings, never as numbers. *)
Theorem scatter_collect_last_wins files :
  Forall fine files ->
  exists data,
    collect files ∅ = Return data
    /\ forall k, data !! k = last (stored_under k files).
Proof.
  intros Hok. eexists. split; [by apply scatter_collect_ok|].
  intros k. rewrite foldl_ins_lookup, lookup_empty. unfold stored_under.
  by destruct (last _).
Qed.

Lemma getitem_dom `{Countable K} (d : gmap K Qc) name k :
  k ∈ dom d -> getitem name d k = Return (d !!! k).
Proof.
  intros [v Hv]%elem_of_dom. unfold getitem. rewrite Hv.
  by rewrite (lookup_total_correct _ _ _ Hv).
Qed.

Lemma mapM_getitem (d : gmap key Qc) (l : list key) :
  (forall k, k ∈ l -> k ∈ dom d) ->
  mapM (fun k => getitem (str_key k) d k) l = Return (map (fun k => d !!! k) l).
Proof.
  induction l as [|k l IH]; intros Hl; [done|].
  cbn [mapM map]. rewrite (getitem_dom d) by (apply Hl, list_elem_of_here).
  cbn [mbind result_bind].
  rewrite IH by (intros k' Hk'; by apply Hl, list_elem_of_further). done.
Qed.

Lemma common_keys_elem x_data y_data k :
  k ∈ common_keys x_data y_data <-> is_Some (x_data !! k) /\ is_Some (y_data !! k).
Proof.
  unfold common_keys.
  by rewrite merge_sort_Permutation, elem_of_elements, elem_of_intersection, !elem_of_dom.
Qed.

Lemma common_keys_NoDup x_data y_data : NoDup (common_keys x_data y_data).
Proof. unfold common_keys. rewrite merge_sort_Permutation. apply NoDup_elements. Qed.

Lemma true_div_nonzero i (n : nat) :
  n <> 0%nat ->
  get_siib.true_div i (Z.of_nat n) = Return (of_nat i / Qc_of_Z (Z.of_nat n))%Qc.
Proof. intros Hn. unfold get_siib.true_div. by rewrite decide_False by lia. Qed.

(** The colours: a dictionary over the T60 values given. *)
Lemma color_map_loop (n : nat) (l : list string) (h : nat -> nat) (d : gmap string Qc) :
  n <> 0%nat ->
  exists d',
    foldl (fun r it => d ← r;
                       c ← get_siib.true_div (fst it) (Z.of_nat n);
                       mret (<[snd it := c]> d))
      (Return d) (imap (fun i t60 => (h i, t60)) l) = Return d'
    /\ dom d' = dom d ∪ list_to_set l.
Proof.
  intros Hn. revert h d. induction l as [|t l IH]; intros h d.
  - exists d. split; [done|]. cbn. by rewrite (right_id_L ∅ (∪)).
  - cbn [imap foldl fst snd mbind result_bind].
    rewrite (true_div_nonzero (h 0%nat) n Hn). cbn [mbind result_bind mret result_ret].
    destruct (IH (h ∘ S) (<[t := (of_nat (h 0%nat) / Qc_of_Z (Z.of_nat n))%Qc]> d))
      as (d' & Hd' & Hdom).
    exists d'. split; [exact Hd'|]. rewrite Hdom, dom_insert_L. cbn [list_to_set].
    by rewrite (assoc_L (∪)), (comm_L (∪) {[t]}).
Qed.

Lemma color_map_dom (l : list string) :
  exists d, color_map l = Return d /\ dom d = list_to_set l.
Proof.
  destruct l as [|t l]; [by exists ∅|].
  destruct (color_map_loop (length (t :: l)) (t :: l) (fun i => i) ∅)
    as (d & Hd & Hdom); [done|].
  exists d. split; [exact Hd|]. by rewrite Hdom, dom_empty_L, (left_id_L ∅ (∪)).
Qed.

Lemma mapM_dots (colors : gmap string Qc) (keys : list key) (f g : key -> Qc) :
  (forall k, k ∈ keys -> fst k ∈ dom colors) ->
  exists drawn,
    mapM (fun p => c ← getitem (fst p) colors (fst p);
                   mret {| t60 := fst p; x := fst (snd p); y := snd (snd p); color := c |})
      (zip (map fst keys) (zip (map f keys) (map g keys))) = Return drawn
    /\ map (fun p => (t60 p, x p, y p)) drawn = map (fun k => (fst k, f k, g k)) keys.
Proof.
  induction keys as [|k keys IH]; intros Hcol.
  - exists []. by split.
  - destruct IH as (drawn & Hd & Hm).
    { intros k' Hk'. by apply Hcol, list_elem_of_further. }
    exists ({| t60 := fst k; x := f k; y := g k; color := colors !!! fst k |} :: drawn).
    cbn [map zip zip_with mapM fst snd].
    rewrite (getitem_dom colors) by (apply Hcol, list_elem_of_here).
    cbn [mbind result_bind mret result_ret]. rewrite Hd. cbn [mbind result_bind].
    split; [done|]. cbn [map t60 x y]. by rewrite Hm.
Qed.

Lemma dots_run x_data y_data :
  exists drawn,
    dots x_data y_data = Return drawn
    /\ map (fun p => (t60 p, x p, y p)) drawn
       = map (fun k => (fst k, x_data !!! k, y_data !!! k)) (common_keys x_data y_data).
Proof.
  unfold dots. pose proof (common_keys_elem x_data y_data) as Helem.
  set (keys := common_keys x_data y_data) in *.
  rewrite (mapM_getitem x_data keys)
    by (intros k Hk; apply elem_of_dom; by apply Helem).
  cbn [mbind result_bind].
  rewrite (mapM_getitem y_data keys)
    by (intros k Hk; apply elem_of_dom; by apply Helem).
  cbn [mbind result_bind].
  destruct (color_map_dom
              (scorer_io.sorted (elements (list_to_set (map fst keys) : gset string))))
    as (colors & -> & Hdom).
  cbn [mbind result_bind]. apply mapM_dots.
  intros k Hk. rewrite Hdom. apply elem_of_list_to_set. unfold scorer_io.sorted.
  rewrite merge_sort_Permutation, elem_of_elements. apply elem_of_list_to_set.
  apply list_elem_of_In, in_map. by apply list_elem_of_In.
Qed.

(** X29. The matching of the two dictionaries never raises: every lookup
    finds its key, no division by zero occurs in the colour table, and
    there is exactly one dot per key present in both dictionaries, in
    the order of the sorted keys, with the x score, the y score and the
    T60 of that key. *)
Theorem dots_of_common_keys x_data y_data :
  exists drawn,
    dots x_data y_data = Return drawn
    /\ map (fun p => (t60 p, x p, y p)) drawn
       = map (fun k => (fst k, x_data !!! k, y_data !!! k)) (common_keys x_data y_data)
    /\ NoDup (common_keys x_data y_data)
    /\ forall k, k ∈ common_keys x_data y_data
                 <-> is_Some (x_data !! k) /\ is_Some (y_data !! k).
Proof.
  destruct (dots_run x_data y_data) as (drawn & Hd & Hm).
  exists drawn. split; [exact Hd|]. split; [exact Hm|].
  split; [apply common_keys_NoDup|apply common_keys_elem].
Qed.

Variable listdir : string -> list dir_entry.
Variable plt_subplots : Z -> Z -> result unit.

Local Abbreviation subplots := (subplots listdir).
Local Abbreviation plot_scatter := (plot_scatter listdir plt_subplots).

Lemma subplots_cons x_folder x_label rest idx n_axes y_data console :
  (Z.of_nat idx < n_axes)%Z ->
  subplots ((x_folder, x_label) :: rest) idx n_axes y_data console
  = match collect (listdir x_folder) ∅ with
    | Raise err => (Raise err, console ++ [ProcessingX x_folder x_label])
    | Return x_data =>
        match dots x_data y_data with
        | Raise err => (Raise err, console ++ [ProcessingX x_folder x_label])
        | Return drawn =>
            match subplots rest (S idx) n_axes y_data
                    (console ++ [ProcessingX x_folder x_label]) with
            | (Return others, w) => (Return (drawn :: others), w)
            | (Raise err, w) => (Raise err, w)
            end
        end
    end.
Proof.
  intros Hidx. cbn [scatter_plot.subplots]. unfold axis. rewrite decide_True by done.
  unfold mbind, prog_bind, print, modify, lift.
  destruct (collect (listdir x_folder) ∅) as [x_data|err]; [|done].
  destruct (dots x_data y_data) as [drawn|err]; [|done].
  by destruct (scatter_plot.subplots listdir rest _ _ y_data _) as [[others|err] w].
Qed.

Lemma subplots_run xs idx n_axes y_data console :
  (Z.of_nat (idx + length xs) <= n_axes)%Z ->
  (Forall (fun item => Forall fine (listdir (fst item))) xs ->
   exists drawn,
     subplots xs idx n_axes y_data console
     = (Return drawn, console ++ map (fun item => ProcessingX (fst item) (snd item)) xs)
     /\ length drawn = length xs)
  /\ (forall drawn, fst (subplots xs idx n_axes y_data console) = Return drawn ->
        Forall (fun item => Forall fine (listdir (fst item))) xs).
Proof.
  revert idx console. induction xs as [|[x_folder x_label] xs IH]; intros idx console Hn.
  - split; [|constructor]. intros _. exists []. cbn. by rewrite app_nil_r.
  - cbn [length] in Hn. rewrite subplots_cons by lia.
    destruct (IH (S idx) (console ++ [ProcessingX x_folder x_label])) as [IHok IHret];
      [lia|].
    destruct (collect (listdir x_folder) ∅) as [x_data|err] eqn:Ex.
    + destruct (dots_run x_data y_data) as (dr & -> & _). split.
      * intros [_ Hxs]%Forall_cons. destruct (IHok Hxs) as (drawn & -> & Hlen).
        exists (dr :: drawn). cbn [map fst snd length]. rewrite <- app_assoc.
        by rewrite Hlen.
      * intros drawn Hret. constructor; [by apply (scatter_collect_returned _ _ _ Ex)|].
        destruct (scatter_plot.subplots listdir xs _ _ y_data _) as [[others|err] w];
          [|done].
        by apply (IHret others).
    + split; [|done]. intros [Hx _]%Forall_cons. cbn [fst] in Hx.
      by rewrite (scatter_collect_ok _ _ Hx) in Ex.
Qed.

Lemma plot_scatter_run xs y_folder output_label subplots_per_row num_rows console :
  plot_layout.ceil_div (Z.of_nat (length xs)) subplots_per_row = Return num_rows ->
  plt_subplots num_rows subplots_per_row = Return tt ->
  plot_scatter xs y_folder output_label subplots_per_row console
  = match collect (listdir y_folder) ∅ with
    | Raise err => (Raise err, console ++ [ProcessingY y_folder output_label])
    | Return y_data =>
        subplots xs 0 (plot_layout.n_axes num_rows subplots_per_row) y_data
          (console ++ [ProcessingY y_folder output_label])
    end.
Proof.
  intros Hrows Hgrid.
  unfold scatter_plot.plot_scatter, mbind, prog_bind, print, modify, lift.
  destruct (collect (listdir y_folder) ∅); [|done]. by rewrite Hrows, Hgrid.
Qed.

(** X30. With a positive [subplots_per_row] and a grid that matplotlib
    creates, [plot_scatter] gets through exactly when every score file of
    the y folder and of every x folder can be read and has the columns
    [rir] and [mean_score] (or no row): no axis is missing, and a folder
    without score files is no obstacle, it gives a subplot without a
    dot.  One subplot is drawn per x folder. *)
Theorem plot_scatter_completes_iff xs y_folder output_label subplots_per_row console :
  (0 < subplots_per_row)%Z ->
  (forall num_rows,
     plot_layout.ceil_div (Z.of_nat (length xs)) subplots_per_row = Return num_rows ->
     plt_subplots num_rows subplots_per_row = Return tt) ->
  ((exists drawn,
      fst (plot_scatter xs y_folder output_label subplots_per_row console) = Return drawn)
   <-> Forall fine (listdir y_folder)
       /\ Forall (fun item => Forall fine (listdir (fst item))) xs)
  /\ forall drawn,
       fst (plot_scatter xs y_folder output_label subplots_per_row console) = Return drawn ->
       length drawn = length xs.
Proof.
  intros Hk Hgrid.
  destruct (ceil_div_bounds (Z.of_nat (length xs)) subplots_per_row Hk)
    as (num_rows & Hrows & _ & Hle).
  rewrite (plot_scatter_run _ _ _ _ num_rows) by auto.
  destruct (collect (listdir y_folder) ∅) as [y_data|err] eqn:Ey.
  - destruct (subplots_run xs 0 (plot_layout.n_axes num_rows subplots_per_row) y_data
                (console ++ [ProcessingY y_folder output_label])) as [Hok Hret].
    { unfold plot_layout.n_axes. lia. }
    split; [split|].
    + intros [drawn Hd]. split; [by apply (scatter_collect_returned _ _ _ Ey)|by eapply Hret].
    + intros [_ Hxs]. destruct (Hok Hxs) as (drawn & -> & _). by exists drawn.
    + intros drawn Hd. destruct (Hok (Hret _ Hd)) as (drawn' & E & Hlen).
      rewrite E in Hd. by injection Hd as <-.
  - split; [split|].
    + by intros [drawn Hd].
    + intros [Hy _]. by rewrite (scatter_collect_ok _ _ Hy) in Ey.
    + done.
Qed.

End ScatterFacts.

(** ** The further properties on concrete inputs *)

(** The file named [broken] is ignored. *)
Lemma load_scores_ignores_witness :
  cal_kendall.load_scores Fixtures.float Fixtures.parse_decimal
    ([("0.50_mean_scores.csv", Return [Fixtures.row "mic1" "0.8"])]
       ++ ("broken_mean_scores.csv", Return [Fixtures.row "mic1" "0.1"])
          :: [("1.5_mean_scores.csv", Return [Fixtures.row "mic1" "0.6"])]) None
  = cal_kendall.load_scores Fixtures.float Fixtures.parse_decimal
      ([("0.50_mean_scores.csv", Return [Fixtures.row "mic1" "0.8"])]
         ++ [("1.5_mean_scores.csv", Return [Fixtures.row "mic1" "0.6"])]) None.
Proof.
  apply (load_scores_ignores Fixtures.float Fixtures.parse_decimal).
  vm_compute. reflexivity.
Defined.

(** [folder_empty] holds no score file. *)
Lemma calculate_without_files_witness :
  cal_kendall.calculate_folders_metrics Fixtures.float Fixtures.parse_decimal
    Fixtures.no_p_value Fixtures.folder_A Fixtures.folder_empty None
  = Raise (KeyError "t60").
Proof.
  apply (calculate_without_files Fixtures.float Fixtures.parse_decimal
           Fixtures.no_p_value Fixtures.folder_A Fixtures.folder_empty None).
  right. intros e He. unfold Fixtures.folder_empty in He.
  repeat (apply elem_of_cons in He as [->|He]; [vm_compute; reflexivity|]).
  by apply elem_of_nil in He.
Defined.

(** The range from 1 down to 0. *)
Lemma calculate_inverted_range_witness :
  cal_kendall.load_scores Fixtures.float Fixtures.parse_decimal Fixtures.folder_A
    (Some (1%Qc, 0%Qc)) = cal_kendall.NoColumns
  /\ cal_kendall.calculate_folders_metrics Fixtures.float Fixtures.parse_decimal
       Fixtures.no_p_value Fixtures.folder_A Fixtures.folder_B (Some (1%Qc, 0%Qc))
     = Raise (KeyError "t60").
Proof.
  apply (calculate_inverted_range Fixtures.float Fixtures.parse_decimal
           Fixtures.no_p_value Fixtures.folder_A Fixtures.folder_B 1%Qc 0%Qc).
  vm_compute. reflexivity.
Defined.


(** The summary of [folder_A] against [folder_B]. *)
Lemma summary_ranges_witness :
  let m := cal_kendall.summary_of Fixtures.no_p_value
             (cal_kendall.paired_samples Fixtures.float Fixtures.parse_decimal
                Fixtures.folder_A Fixtures.folder_B None) in
  cal_kendall_notions.nan_or_unit (cal_kendall.pearson m)
  /\ cal_kendall_notions.nan_or_unit (cal_kendall.kendall m)
  /\ exists r, cal_kendall.rmse m = Real r /\ (0 <= r)%R.
Proof.
  apply (summary_ranges Fixtures.float Fixtures.parse_decimal Fixtures.no_p_value
           Fixtures.folder_A Fixtures.folder_B None).
  apply calculate_returns. vm_compute. lia.
Defined.


(** [folder_A] against a folder that lists the same scores for [mic1]
    and [mic2] under other spellings, and a score for [mic4]. *)
Lemma rmse_zero_on_equal_scores_witness :
  cal_kendall.rmse
    (cal_kendall.summary_of Fixtures.no_p_value
       (cal_kendall.paired_samples Fixtures.float Fixtures.parse_decimal
          Fixtures.folder_A
          [("0.5_mean_scores.csv",
            Return [Fixtures.row "mic2" "0.60"; Fixtures.row "mic4" "0.3";
                    Fixtures.row "mic1" "0.8"])] None)) = Real 0.
Proof.
  apply (rmse_zero_on_equal_scores Fixtures.float Fixtures.parse_decimal Fixtures.is_text
           Fixtures.no_p_value Fixtures.folder_A
           [("0.5_mean_scores.csv",
             Return [Fixtures.row "mic2" "0.60"; Fixtures.row "mic4" "0.3";
                     Fixtures.row "mic1" "0.8"])] None).
  - vm_compute. reflexivity.
  - vm_compute. reflexivity.
  - apply calculate_returns. vm_compute. lia.
  - apply Forall_forall. apply (bool_decide_unpack _). vm_compute. exact I.
Defined.

(** The table of the two eSTOI folders: the row of T60 = 0.5. *)
Lemma levene_test_rows_witness :
  exists table,
    variance_test.written
      (snd (variance_test.levene_test_between_folders Fixtures.float Fixtures.levene
              Fixtures.estoi_english Fixtures.estoi_mandarin "levene_results_estoi.csv"
              Fixtures.empty_world))
    = [("levene_results_estoi.csv", table)]
    /\ {| variance_test.T60 := Fixtures.half; variance_test.Levene_Stat := Real 0;
          variance_test.P_Value := Real 1 |} ∈ table.
Proof.
  destruct (levene_test_rows Fixtures.float Fixtures.levene
              Fixtures.estoi_english Fixtures.estoi_mandarin "levene_results_estoi.csv"
              Fixtures.empty_world
              (snd (variance_test.levene_test_between_folders Fixtures.float
                      Fixtures.levene Fixtures.estoi_english Fixtures.estoi_mandarin
                      "levene_results_estoi.csv" Fixtures.empty_world)))
    as (table & Htable & Hrows).
  - vm_compute. reflexivity.
  - exists table. split; [exact Htable|]. apply Hrows.
    exists [Fixtures.half; 1%Qc; Fixtures.half], [1%Qc; Fixtures.half].
    cbn [variance_test.T60 variance_test.Levene_Stat variance_test.P_Value].
    split; [|split]; [| |reflexivity]; vm_compute; do 2 f_equal;
      repeat (f_equal; try by apply Qc_is_canon).
Defined.

(** The sub-folder [rir_1] of the T60 folder [1.0]. *)
Lemma matching_folder_rows_witness :
  scorer_notions.folder_effect
    (get_estoi.process_rir_folder Recordings.listdir Recordings.sf_read Fixtures.scorer
       "clean_english_zero/1.0/rir_1" "clean_english" "out/1.0_estoi_scores.csv" "rir_1")
    Recordings.listdir "out/1.0_estoi_scores.csv" "clean_english_zero/1.0/rir_1" "rir_1"
    (Fixtures.no_output Qc)
  /\ scorer_notions.folder_effect
       (get_siib.process_rir_folder Recordings.listdir Recordings.sf_read Fixtures.scorer
          "clean_english_zero/1.0/rir_1" "clean_english" "out/1.0_estoi_scores.csv" "rir_1")
       Recordings.listdir "out/1.0_estoi_scores.csv" "clean_english_zero/1.0/rir_1" "rir_1"
       (Fixtures.no_output get_siib.sample).
Proof.
  apply (matching_folder_rows Recordings.listdir Recordings.sf_read Fixtures.scorer
           Fixtures.scorer).
  vm_compute. reflexivity.
Defined.

(** The T60 folder [1.0]: both sub-folders hold two recordings. *)
Lemma t60_folder_completes_witness :
  fst (get_estoi.process_t60_folder Recordings.listdir Recordings.isdir
         Recordings.sf_read Fixtures.scorer "/work" "1.0" (Fixtures.no_output Qc))
  = Return tt
  /\ fst (get_siib.process_t60_folder Recordings.listdir Recordings.isdir
            Recordings.sf_read Fixtures.scorer "/work" "1.0"
            (Fixtures.no_output get_siib.sample))
     = Return tt.
Proof.
  destruct (t60_folder_completes Recordings.listdir Recordings.isdir
              Recordings.sf_read Fixtures.scorer Fixtures.scorer "/work" "1.0"
              (Fixtures.no_output Qc) (Fixtures.no_output get_siib.sample))
    as [H1 H2].
  split.
  - destruct H1 as (blocks & Hret & _); [|exact Hret].
    apply (bool_decide_unpack _). vm_compute. exact I.
  - destruct H2 as (blocks & Hret & _); [|exact Hret].
    apply (bool_decide_unpack _). vm_compute. exact I.
Defined.

(** The T60 folder [0.5]: [rir_2] misses a recording. *)
Lemma t60_folder_aborts_witness :
  fst (get_estoi.process_t60_folder Recordings.listdir Recordings.isdir
         Recordings.sf_read Fixtures.scorer "/work" "0.5" (Fixtures.no_output Qc))
  = Raise (scorer_io.mismatch_error 2 1 "clean_english_zero/0.5/rir_2")
  /\ fst (get_siib.process_t60_folder Recordings.listdir Recordings.isdir
            Recordings.sf_read Fixtures.scorer "/work" "0.5"
            (Fixtures.no_output get_siib.sample))
     = Raise (scorer_io.mismatch_error 2 1 "clean_english_zero/0.5/rir_2").
Proof.
  destruct (t60_folder_aborts Recordings.listdir Recordings.isdir Recordings.sf_read
              Fixtures.scorer Fixtures.scorer "/work" "0.5" ["rir_1"] "rir_2" ["rir_3"]
              (Fixtures.no_output Qc) (Fixtures.no_output get_siib.sample))
    as [(b1 & H1 & _) (b2 & H2 & _)].
  - vm_compute. reflexivity.
  - apply (bool_decide_unpack _). vm_compute. exact I.
  - vm_compute. lia.
  - split; [exact H1|exact H2].
Defined.

(** Neither folder of the script qualifies: the first holds a file at
    T60 0.5 and a file whose name carries no T60, the second no score
    file.  The load of the first reports the file it cannot name a T60
    for. *)
Lemma main_uncaught_key_error_witness :
  cal_kendall_main.main Fixtures.float Fixtures.parse_decimal Fixtures.no_p_value
    Recordings.folder []
  = (Raise (KeyError "t60"),
     [cal_kendall_main.FailedToProcess "broken_mean_scores.csv"
        (ValueError "could not convert string to float: 'broken'")]).
Proof.
  apply (main_uncaught_key_error Fixtures.float Fixtures.parse_decimal
           Fixtures.no_p_value Recordings.folder []).
  right. intros e He. change (e ∈ Fixtures.folder_empty) in He.
  unfold Fixtures.folder_empty in He.
  repeat (apply elem_of_cons in He as [->|He]; [vm_compute; reflexivity|]).
  by apply elem_of_nil in He.
Defined.


(** The two eSTOI folders can be plotted. *)
Lemma estoi_folders_plottable :
  Forall (fun item => std_deviation_plot.plottable Plots.listdir Fixtures.float
                        Plots.series_mean Plots.series_std (fst item))
    Plots.estoi_folders.
Proof.
  repeat constructor.
  - exists ("0.5_mean_scores.csv",
            Return (Fixtures.mean_scores [Fixtures.half; 1%Qc; Fixtures.half])).
    split; [apply list_elem_of_here|reflexivity].
  - intros _. eexists. reflexivity.
  - intros _. eexists. reflexivity.
  - intros _. eexists. reflexivity.
  - exists ("2.0_mean_scores.csv", Return (Fixtures.mean_scores [Fixtures.half; 1%Qc])).
    split; [apply list_elem_of_here|reflexivity].
  - intros _. eexists. reflexivity.
  - intros _. eexists. reflexivity.
  - intros _. eexists. reflexivity.
Qed.

Lemma collect_returns_iff_witness :
  std_deviation_plot.collect Plots.listdir Fixtures.float Plots.series_mean
    Plots.series_std Plots.sort_rows Plots.estoi_folders ∅ [] []
  = (Return (std_deviation_plot.t60s_of Plots.listdir Fixtures.float Plots.series_mean
               Plots.series_std Plots.estoi_folders,
             map (std_deviation_plot.plotted Plots.listdir Fixtures.float
                    Plots.series_mean Plots.series_std Plots.sort_rows)
               Plots.estoi_folders),
     map std_deviation_plot.processing Plots.estoi_folders).
Proof.
  apply (proj2 (collect_returns_iff Plots.listdir Fixtures.float Plots.series_mean
                  Plots.series_std Plots.sort_rows Plots.estoi_folders [])).
  exact estoi_folders_plottable.
Defined.

(** After the two eSTOI folders, a folder without score files. *)
Lemma collect_empty_folder_witness :
  fst (std_deviation_plot.collect Plots.listdir Fixtures.float Plots.series_mean
         Plots.series_std Plots.sort_rows
         (Plots.estoi_folders ++ [("stipa_scores_mean", "STIPA")]) ∅ [] [])
  = Raise (KeyError "t60").
Proof.
  rewrite (collect_empty_folder Plots.listdir Fixtures.float Plots.series_mean
             Plots.series_std Plots.sort_rows Plots.estoi_folders
             "stipa_scores_mean" "STIPA" [] []).
  - reflexivity.
  - exact estoi_folders_plottable.
  - intros e He. apply list_elem_of_singleton in He as ->. vm_compute. discriminate.
Defined.

(** A score file named [high_mean_scores.csv]. *)
Lemma collect_first_failure_witness :
  fst (std_deviation_plot.collect Plots.listdir Fixtures.float Plots.series_mean
         Plots.series_std Plots.sort_rows
         ([] ++ [("haspi_scores_english_mean", "HASPI English")]) ∅ [] [])
  = Raise (ValueError "could not convert string to float: 'high'").
Proof.
  apply (collect_first_failure Plots.listdir Fixtures.float Plots.series_mean
           Plots.series_std Plots.sort_rows [] "haspi_scores_english_mean"
           "HASPI English" []
           [("0.5_mean_scores.csv", Return (Fixtures.mean_scores [Fixtures.half]))]
           ("high_mean_scores.csv", Return (Fixtures.mean_scores [1%Qc])) []).
  - constructor.
  - reflexivity.
  - repeat constructor. intros _. eexists. reflexivity.
  - reflexivity.
  - reflexivity.
Defined.

(** The x positions of the English eSTOI folder. *)
Lemma x_positions_found_witness :
  exists xs,
    std_deviation_plot.x_pos
      (std_deviation_plot.t60s_of Plots.listdir Fixtures.float Plots.series_mean
         Plots.series_std Plots.estoi_folders)
      (Plots.sort_rows
         (std_deviation_plot.kept_rows Fixtures.float Plots.series_mean Plots.series_std
            (Plots.listdir "estoi_scores_english_mean"))) = Some xs
    /\ length xs = 3%nat.
Proof.
  destruct (x_positions_found Plots.listdir Fixtures.float Plots.series_mean
              Plots.series_std Plots.sort_rows Plots.estoi_folders []
              (std_deviation_plot.t60s_of Plots.listdir Fixtures.float Plots.series_mean
                 Plots.series_std Plots.estoi_folders)
              (map (std_deviation_plot.plotted Plots.listdir Fixtures.float
                      Plots.series_mean Plots.series_std Plots.sort_rows)
                 Plots.estoi_folders)
              (map std_deviation_plot.processing Plots.estoi_folders)) as [Hx _].
  - intros l. apply merge_sort_Permutation.
  - rewrite (collect_ok Plots.listdir Fixtures.float Plots.series_mean
               Plots.series_std Plots.sort_rows) by exact estoi_folders_plottable.
    by rewrite (right_id_L ∅ (∪)).
  - destruct (Hx _ "ESTOI English" (list_elem_of_here _ _)) as (xs & Hxs & Hall).
    exists xs. split; [exact Hxs|].
    rewrite <- (Forall2_length _ _ _ Hall). unfold Plots.sort_rows.
    by rewrite (Permutation_length (merge_sort_Permutation _ _)).
Defined.

(** Seven folders, two per subplot. *)
Lemma subplot_chunks_witness :
  exists num_subplots : nat,
    plot_layout.ceil_div 7 2 = Return (Z.of_nat num_subplots)
    /\ concat (map (std_deviation_plot.current_data (seq 0 7) 2) (seq 0 num_subplots))
       = seq 0 7.
Proof.
  destruct (subplot_chunks (seq 0 7) 2) as (n & Hn & Hc & _); [lia|].
  exists n. split; [exact Hn|exact Hc].
Defined.

(** Four subplots, two per row. *)
Lemma axes_suffice_witness :
  exists num_rows,
    plot_layout.ceil_div 4 2 = Return num_rows
    /\ (4 <= plot_layout.n_axes num_rows 2)%Z.
Proof.
  destruct (axes_suffice 4 2) as (rows & Hr & Hle & _); [lia|].
  exists rows. split; [exact Hr|exact Hle].
Defined.

(** The key ("0.5", "rir_1") holds the score of its second row; the file
    named 0.50 has a key of its own. *)
Lemma scatter_collect_last_wins_witness :
  exists data,
    scatter_plot.collect Plots.scatter_files ∅ = Return data
    /\ data !! ("0.5", "rir_1") = Some 1%Qc
    /\ data !! ("0.50", "rir_1") = Some 0%Qc.
Proof.
  destruct (scatter_collect_last_wins Plots.scatter_files) as (data & Hd & Hl).
  - repeat constructor; intros H; try (eexists; reflexivity); discriminate H.
  - exists data. split; [exact Hd|]. rewrite !Hl. split; reflexivity.
Defined.

(** One x folder against the y folder, three subplots per row. *)
Lemma plot_scatter_completes_iff_witness :
  exists drawn,
    fst (scatter_plot.plot_scatter Plots.scatter_listdir Plots.plt_subplots
           [("haspi_scores_english_mean", "HASPI English")] "stipa_scores_mean" "STIPA" 3
           [])
    = Return drawn.
Proof.
  apply (plot_scatter_completes_iff Plots.scatter_listdir Plots.plt_subplots
           [("haspi_scores_english_mean", "HASPI English")] "stipa_scores_mean" "STIPA" 3
           []).
  - lia.
  - intros num_rows H. vm_compute in H. injection H as <-. reflexivity.
  - split; repeat constructor; intros H; try (eexists; reflexivity); discriminate H.
Defined.
